(** * Kalshi / Polymarket monitor: strategy state machines, order
      coordination, holdings ledger and instance lock

    A shallow embedding of the live monitoring-and-execution engine:
    - [src/polymarket/holdings.ts]            the persistent holdings ledger
    - [src/polymarket/order.ts]               Polymarket buy / sell primitives
    - [src/kalshi/bot.ts]                     Kalshi buy / sell primitives
    - [src/monitor/arb.ts]                    the cross-venue arbitrage check
    - [src/monitor/kalshi-1-poly-strategy.ts] the follow-confidence strategy
    - [src/core/monitor-lock.ts]              the single-instance lock
    - [src/core/validate-env.ts]              the required environment
    - [src/monitor/run.ts], [run-kalshi-1-poly.ts]  the two entry points
      and their balance gate

    Conventions of the embedding.
    - A JavaScript number is a value of [num]: a rational, NaN or one of
      the two infinities.  Every arithmetic operation and every decimal
      literal rounds its exact value to the nearest number with a
      significand of 53 bits, ties to the even one, as binary64 does
      ([fl]).  The exponent is not bounded: overflow and gradual underflow,
      which need magnitudes beyond 1.8e308 or below 2.3e-308, and the sign
      of zero are not represented.
    - Module-level mutable variables of a source file become the fields of
      a state record that every function takes and returns.
    - A call that leaves the process (venue client, order book query,
      on-chain balance, file system, signals) takes its answer from an
      environment record; what the source writes to the outside world is
      collected in a list of [Event]s, oldest first.  Failures are modelled
      where the source handles them (a [try]/[catch], an error field) and
      where an awaited call can reject without being caught: the promise
      of the invocation then rejects, which ends its trace with
      [EvRejected].
    - One invocation of an [async] function is run to completion. *)

From Stdlib Require Import ZArith QArith Qcanon Qround Qpower String Ascii List Lia Bool DecimalString.
From stdpp Require Import base numbers option list gmap strings.
Import ListNotations.

#[local] Open Scope Z_scope.
#[local] Open Scope string_scope.
#[local] Open Scope list_scope.

(* ===================================================================== *)
(** ** JavaScript numbers *)
(* ===================================================================== *)

Module JsNum.

Inductive num : Type :=
| Fin (q : Qc)
| NaN
| PInf
| NInf.

(** [2^e], for any integer [e]. *)
Definition pow2 (e : Z) : Q := (2 ^ e)%Q.

(** [floor (log2 |q|)] of a rational that is not zero. *)
Definition ilog2 (q : Q) : Z :=
  let n := Z.abs (Qnum q) in
  let e := Z.log2 n - Z.log2 (Zpos (Qden q)) in
  if Qle_bool (pow2 e) (n # Qden q) then e else e - 1.

(** The nearest integer, a tie going to the even one. *)
Definition roundHalfEven (q : Q) : Z :=
  let f := Qfloor q in
  match Qcompare (q - inject_Z f) (1 # 2) with
  | Lt => f
  | Gt => f + 1
  | Eq => if Z.even f then f else f + 1
  end.

(** Rounding to binary64: the nearest multiple of [2^(e-52)], where
    [2^e <= |q| < 2^(e+1)]. *)
Definition fl (q : Qc) : Qc :=
  if Qeq_bool q 0 then q
  else
    let u := pow2 (ilog2 q - 52) in
    Q2Qc (inject_Z (roundHalfEven (q / u)) * u).

(** An integer below [2^53] in magnitude. *)
Definition ofZ (z : Z) : num := Fin (Q2Qc (inject_Z z)).

(** Decimal literal [n / d], e.g. [dec 77 100] for [0.77]. *)
Definition dec (n : Z) (d : positive) : num := Fin (fl (Q2Qc (n # d))).

Definition zero : num := ofZ 0.
Definition one : num := ofZ 1.

(** [Number.isFinite] *)
Definition isFinite (x : num) : bool :=
  match x with Fin _ => true | _ => false end.

(** [x < y]; any comparison with NaN is false. *)
Definition ltb (x y : num) : bool :=
  match x, y with
  | Fin a, Fin b => bool_decide (a < b)%Qc
  | NInf, Fin _ | NInf, PInf | Fin _, PInf => true
  | _, _ => false
  end.

(** [x <= y] *)
Definition leb (x y : num) : bool :=
  match x, y with
  | Fin a, Fin b => bool_decide (a <= b)%Qc
  | NaN, _ | _, NaN => false
  | NInf, _ => true
  | _, PInf => true
  | _, _ => false
  end.

Definition gtb (x y : num) : bool := ltb y x.
Definition geb (x y : num) : bool := leb y x.

(** [x === y] on numbers *)
Definition eqb (x y : num) : bool :=
  match x, y with
  | Fin a, Fin b => bool_decide (a = b)
  | PInf, PInf | NInf, NInf => true
  | _, _ => false
  end.

Definition neg (x : num) : num :=
  match x with
  | Fin a => Fin (- a)%Qc
  | NaN => NaN
  | PInf => NInf
  | NInf => PInf
  end.

Definition add (x y : num) : num :=
  match x, y with
  | NaN, _ | _, NaN => NaN
  | Fin a, Fin b => Fin (fl (a + b)%Qc)
  | PInf, NInf | NInf, PInf => NaN
  | PInf, _ | _, PInf => PInf
  | NInf, _ | _, NInf => NInf
  end.

Definition sub (x y : num) : num := add x (neg y).

(** Sign of a rational: [1], [0] or [-1]. *)
Definition sgn (a : Qc) : Z :=
  if bool_decide (0 < a)%Qc then 1 else if bool_decide (a < 0)%Qc then -1 else 0.

Definition signedInf (s : Z) : num :=
  if (0 <? s)%Z then PInf else if (s <? 0)%Z then NInf else NaN.

Definition sgnNum (x : num) : Z :=
  match x with Fin a => sgn a | PInf => 1 | NInf => -1 | NaN => 0 end.

Definition mul (x y : num) : num :=
  match x, y with
  | NaN, _ | _, NaN => NaN
  | Fin a, Fin b => Fin (fl (a * b)%Qc)
  | _, _ => signedInf (sgnNum x * sgnNum y)%Z
  end.

(** Division; a zero divisor counts as [+0]. *)
Definition div (x y : num) : num :=
  match x, y with
  | NaN, _ | _, NaN => NaN
  | Fin a, Fin b =>
      if bool_decide (b = 0%Qc) then signedInf (sgn a) else Fin (fl (a / b)%Qc)
  | Fin _, _ => zero
  | _, Fin b => signedInf (sgnNum x * (if bool_decide (b < 0)%Qc then -1 else 1))%Z
  | _, _ => NaN
  end.

(** [Math.min] and [Math.max] of two arguments: NaN is contagious. *)
Definition min (x y : num) : num :=
  match x, y with
  | NaN, _ | _, NaN => NaN
  | _, _ => if leb x y then x else y
  end.

Definition max (x y : num) : num :=
  match x, y with
  | NaN, _ | _, NaN => NaN
  | _, _ => if leb x y then y else x
  end.

Definition floorQc (a : Qc) : Z := Qfloor (this a).
Definition ceilQc (a : Qc) : Z := Qceiling (this a).

Definition floor (x : num) : num :=
  match x with Fin a => ofZ (floorQc a) | _ => x end.

Definition ceil (x : num) : num :=
  match x with Fin a => ofZ (ceilQc a) | _ => x end.

(** [Math.round]: the nearest integer, halves towards [+Infinity]. *)
Definition round (x : num) : num :=
  match x with Fin a => ofZ (floorQc (a + Q2Qc (1 # 2))%Qc) | _ => x end.

(** The order of the reals extended by the infinities, as propositions;
    NaN is related to nothing. *)
Definition lt (x y : num) : Prop :=
  match x, y with
  | Fin a, Fin b => (a < b)%Qc
  | NInf, Fin _ | NInf, PInf | Fin _, PInf => True
  | _, _ => False
  end.

Definition le (x y : num) : Prop :=
  match x, y with
  | Fin a, Fin b => (a <= b)%Qc
  | NaN, _ | _, NaN => False
  | NInf, _ => True
  | _, PInf => True
  | _, _ => False
  end.

End JsNum.

Export JsNum.

Declare Scope num_scope.
Delimit Scope num_scope with num.
Bind Scope num_scope with num.
Infix "+" := JsNum.add : num_scope.
Infix "-" := JsNum.sub : num_scope.
Infix "*" := JsNum.mul : num_scope.
Infix "/" := JsNum.div : num_scope.
Infix "<?" := JsNum.ltb : num_scope.
Infix "<=?" := JsNum.leb : num_scope.
Infix ">?" := JsNum.gtb : num_scope.
Infix ">=?" := JsNum.geb : num_scope.

(* ===================================================================== *)
(** ** Regular expressions of the retry predicates *)
(* ===================================================================== *)

(** The two patterns of the source are alternations of literals in which
    [.] is the only metacharacter, tested with the [i] flag and without
    anchors.  A string is a sequence of code units below 256. *)
Module Regex.

Inductive item : Type :=
| Lit (c : ascii)
| Dot.

(** Case folding of the [i] flag on the letters A-Z. *)
Definition fold (c : ascii) : ascii :=
  let n := nat_of_ascii c in
  if ((65 <=? n) && (n <=? 90))%nat then ascii_of_nat (n + 32) else c.

Definition isLineTerminator (c : ascii) : bool :=
  let n := nat_of_ascii c in ((n =? 10) || (n =? 13))%nat.

Definition itemMatches (i : item) (c : ascii) : bool :=
  match i with
  | Lit l => bool_decide (fold l = fold c)
  | Dot => negb (isLineTerminator c)
  end.

Fixpoint matchesAt (pat : list item) (s : list ascii) : bool :=
  match pat, s with
  | [], _ => true
  | _ :: _, [] => false
  | i :: pat', c :: s' => itemMatches i c && matchesAt pat' s'
  end.

Fixpoint search (pat : list item) (s : list ascii) : bool :=
  matchesAt pat s ||
  match s with
  | [] => false
  | _ :: s' => search pat s'
  end.

(** One alternative, written as in the source: [.] is the wildcard. *)
Definition alt (src : string) : list item :=
  map (fun c => if bool_decide (c = "."%char) then Dot else Lit c)
      (list_ascii_of_string src).

(** [/a1|a2|.../i.test(s)] *)
Definition test (alts : list string) (s : string) : bool :=
  existsb (fun a => search (alt a) (list_ascii_of_string s)) alts.

End Regex.

(* ===================================================================== *)
(** ** Configuration ([src/core/config.ts]) *)
(* ===================================================================== *)

(** Every constant is read from the process environment when the module
    is loaded; the record holds the parsed values. *)
Record Config : Type := {
  BOT_DRY_RUN : bool;
  ARB_SUM_THRESHOLD : num;
  ARB_SUM_LOW : num;
  ARB_PRICE_BUFFER : num;
  ARB_SIZE : num;
  ARB_KALSHI_MIN : num;
  ARB_POLY_MIN : num;
  POLYMARKET_MIN_USD : num;
  ARB_DRY_RUN : bool;
  POLY_BUY_MIN : num;
  POLY_SELL_BELOW : num;
  POLY_SELL_RANGE_BUFFER : num;
  KALSHI_1_POLY_DRY_RUN : bool;
  KALSHI_1_POLY_SIZE : num;
  POLY_BUY_LIMIT_BUFFER : num;
  POLYMARKET_PRIVATE_KEY : string;
  POLYMARKET_PROXY : string;
  POLYMARKET_TICK_SIZE : string;
  POLYMARKET_NEG_RISK : bool;
  MIN_BALANCE_USD : num
}.

(** The values taken when no variable of the environment is set, with the
    two Polymarket credentials given. *)
Definition defaultConfig (privateKey proxy : string) : Config := {|
  BOT_DRY_RUN := false;
  ARB_SUM_THRESHOLD := dec 92 100;
  ARB_SUM_LOW := dec 75 100;
  ARB_PRICE_BUFFER := dec 2 100;
  ARB_SIZE := ofZ 5;
  ARB_KALSHI_MIN := ofZ 5;
  ARB_POLY_MIN := ofZ 5;
  POLYMARKET_MIN_USD := ofZ 1;
  ARB_DRY_RUN := false;
  POLY_BUY_MIN := dec 8 10;
  POLY_SELL_BELOW := dec 7 10;
  POLY_SELL_RANGE_BUFFER := dec 15 100;
  KALSHI_1_POLY_DRY_RUN := false;
  KALSHI_1_POLY_SIZE := ofZ 5;
  POLY_BUY_LIMIT_BUFFER := dec 1 100;
  POLYMARKET_PRIVATE_KEY := privateKey;
  POLYMARKET_PROXY := proxy;
  POLYMARKET_TICK_SIZE := "0.01";
  POLYMARKET_NEG_RISK := false;
  MIN_BALANCE_USD := ofZ 5
|}.

(** Truthiness of a string: the empty string is falsy. *)
Definition truthy (s : string) : bool := negb (bool_decide (s = "")).

Definition truthyOpt (o : option string) : bool :=
  match o with Some s => truthy s | None => false end.

(* ===================================================================== *)
(** ** What the process does to the outside world *)
(* ===================================================================== *)

Inductive Side : Type := UP | DOWN.

Inductive KalshiSide : Type := Yes | No.

Inductive Action : Type := Buy | Sell.

(** The error carried by [{ error: string }].  The three messages that
    [order.ts] builds itself keep their role instead of their text; no
    alternative of the retry patterns occurs in them, whatever numbers are
    printed into them. *)
Inductive OrderError : Type :=
| ErrNotionalBelowMin (notional minUsd : num)
| ErrLimitNotionalBelowMin (notional minUsd : num)
| ErrSellSizeNotPositive
| ErrVenue (msg : string).

(** Lines passed to [appendMonitorLogWithTimestamp] or [console.error]. *)
Inductive LogMsg : Type :=
| LPolyNotConfigured (tokenId : string) (price size : num)
| LPolyNotionalBelowMin (notional minUsd : num)
| LPolyLimitNotionalBelowMin (notional minUsd : num)
| LPolyBuyFailed (msg : string)
| LPolyBuyPlaced (orderId tokenId : string) (limitPrice size : num)
| LPolyOrderThrew (msg : string)
| LPolySellFailed (msg : string)
| LPolySellPlaced (orderId tokenId : string) (size : num)
| LPolySellThrew (msg : string)
| LKalshiDryRunBuy (ticker : string) (side : KalshiSide) (count price : num)
| LKalshiOrderPlaced (orderId ticker : string) (side : KalshiSide) (count price : num)
| LKalshiOrderFailed (ticker msg : string)
| LKalshiDryRunSell (ticker : string) (side : KalshiSide) (count : num)
| LKalshiSellPlaced (orderId ticker : string) (side : KalshiSide) (count : num)
| LKalshiSellFailed (ticker msg : string)
| LArbExit (leg : Side) (kalshiSide : KalshiSide) (kalshiCount polySize : num)
| LArbExitKalshiFailed (msg : string)
| LArbExitPolyFailed (e : OrderError)
| LArbOpportunity (leg : Side) (dryRun : bool) (sum kalshiPriceCents polyPrice polySize : num)
| LArbPolyFailed (e : OrderError)
| LArbKalshiFailed (msg : string)
| LArbRetry (retryPrice : num) (ask : option num)
| LStratBalanceFetched (balance : num)
| LStratBalanceScheduled (delayMs : num)
| LStratFokRetry (retryPrice : num) (ask : option num)
| LStratAfterBuyBalance (balance sellSize : num)
| LStratConservativeSize (sellSize : num)
| LStratExit (side : Side) (price threshold : num) (buffered : bool)
             (sellSize balance : num) (attempt : nat)
| LStratSellSkipped
| LStratSellSuccessful (sellSize : num)
| LStratSellFailed (attempt : nat) (e : OrderError)
| LStratWillRetry (attempt : nat)
| LStratClearingAfterMax
| LStratSkipMarket (ticker : string) (kUp kDown : num)
| LStratUsingCachedBalance (balance size : num)
| LStratEntry (side : Side) (kalshiPrice polyPrice size : num)
| LStratBuyFailed (side : Side) (e : OrderError)
| LBalanceBelowMinimum (kalshiCents : num) (polyUsd : option num)
| LAnotherMonitorRunning (pid : Z)
| LLockFileError
| LConfigMissing (missing : list string)
| LMainFailed (reason : string).

Inductive Event : Type :=
| EvLog (m : LogMsg)
(** [ordersApi.createOrder] *)
| EvKalshiOrder (ticker : string) (side : KalshiSide) (action : Action)
                (count price : num)
(** [clobClient.createAndPostOrder], a resting limit buy *)
| EvPolyBuy (tokenId : string) (price size : num) (tickSize : string) (negRisk : bool)
(** [clobClient.createAndPostMarketOrder], a fill-and-kill sell *)
| EvPolySell (tokenId : string) (amount : num) (tickSize : string) (negRisk : bool)
(** [setTimeout] of the fulfilment check *)
| EvFulfillmentCheck (orderId : string)
(** [await new Promise(r => setTimeout(r, ms))] *)
| EvDelay (ms : Z)
(** [getBestAskForToken] *)
| EvBestAskQuery (tokenId : string)
(** [setTimeout] / [clearTimeout] of the balance prefetch *)
| EvSetBalanceTimer (delayMs : num)
| EvClearBalanceTimer
(** [process.kill(pid, "SIGTERM")] *)
| EvSigterm (pid : Z)
(** an exception leaves the invocation: its promise rejects *)
| EvRejected (reason : string).

(* ===================================================================== *)
(** ** The holdings ledger ([src/polymarket/holdings.ts]) *)
(* ===================================================================== *)

Module Holdings.

(** The content of [data/token-holding.json].  A quantity is a JSON
    value: a finite number, or [null] (what [JSON.stringify] writes for a
    number that is not finite), here [None]. *)
Abbreviation TokenHoldings := (gmap string (gmap string (option Qc))).

(** The file: [None] when it is missing or does not parse, and whether
    [writeFileSync] succeeds. *)
Record Disk : Type := {
  holdingsFile : option TokenHoldings;
  writable : bool
}.

Definition loadHoldings (d : Disk) : TokenHoldings :=
  match holdingsFile d with
  | Some h => h
  | None => ∅
  end.

(** A failed write is reported on the console and otherwise ignored. *)
Definition saveHoldings (h : TokenHoldings) (d : Disk) : Disk :=
  if writable d then {| holdingsFile := Some h; writable := true |} else d.

Definition toJson (x : num) : option Qc :=
  match x with Fin q => Some q | _ => None end.

(** [holdings[conditionId][tokenId] ?? 0] *)
Definition currentAmount (inner : gmap string (option Qc)) (tokenId : string) : num :=
  match inner !! tokenId with
  | Some (Some q) => Fin q
  | _ => zero
  end.

Definition addHolding (conditionId tokenId : string) (amount : num) (d : Disk) : Disk :=
  if negb (truthy conditionId) || negb (truthy tokenId) || (amount <=? zero)%num
  then d
  else
    let holdings := loadHoldings d in
    let inner := match holdings !! conditionId with Some i => i | None => ∅ end in
    let current := currentAmount inner tokenId in
    saveHoldings (<[conditionId := <[tokenId := toJson (current + amount)%num]> inner]> holdings) d.

Definition getMarketHoldings (conditionId : string) (d : Disk) : gmap string (option Qc) :=
  match loadHoldings d !! conditionId with Some i => i | None => ∅ end.

Definition clearMarketHoldings (conditionId : string) (d : Disk) : Disk :=
  let holdings := loadHoldings d in
  match holdings !! conditionId with
  | Some _ => saveHoldings (delete conditionId holdings) d
  | None => d
  end.

(** The quantity the ledger a process would read back holds for a token. *)
Definition ledgerAmount (d : Disk) (conditionId tokenId : string) : num :=
  currentAmount (getMarketHoldings conditionId d) tokenId.

End Holdings.

Export Holdings.

(* ===================================================================== *)
(** ** Polymarket orders ([src/polymarket/order.ts]) *)
(* ===================================================================== *)

Module PolyOrder.

(** [PlacePolyResult = { orderId } | { error } | null] *)
Inductive PlacePolyResult : Type :=
| POk (orderId : string)
| PErr (e : OrderError)
| PNull.

(** [result && !("error" in result)] *)
Definition isOk (r : PlacePolyResult) : bool :=
  match r with POk _ => true | _ => false end.

Record PlacePolymarketOrderOptions : Type := {
  tickSize : option string;
  negRisk : option bool;
  forcePlace : bool;
  conditionId : option string
}.

(** What the CLOB client answers to one order: building the client
    throws, the call throws, or a response comes back with its
    [orderID ?? orderId] and [error ?? errorMsg] fields. *)
Inductive ClobOutcome : Type :=
| ClientFailed (text : string)
| CallThrew (text : string)
| Responded (orderId errMsg : option string).

(** A promise once it is settled.  [getBestAskForToken]
    ([src/polymarket/prices.ts]) awaits [fetch] and [res.json()] outside
    any [try]: its promise rejects when one of them throws, and otherwise
    resolves with the lowest finite ask of the book, or with [null]. *)
Inductive Settled (A : Type) : Type :=
| Fulfilled (a : A)
| Rejected (reason : string).

Arguments Fulfilled {A} a.
Arguments Rejected {A} reason.

Definition configured (cfg : Config) : bool :=
  truthy (POLYMARKET_PRIVATE_KEY cfg) && truthy (POLYMARKET_PROXY cfg).

Definition minUsdOf (cfg : Config) : num :=
  if (POLYMARKET_MIN_USD cfg >? zero)%num then POLYMARKET_MIN_USD cfg else one.

Definition roundPriceToTickSize (price : num) (tick : string) : num :=
  let decimals : Z :=
    if bool_decide (tick = "0.01") then 2
    else if bool_decide (tick = "0.001") then 3
    else if bool_decide (tick = "0.0001") then 4
    else 4 in
  let mult := ofZ (10 ^ decimals) in
  (round (price * mult) / mult)%num.

Definition placePolymarketOrder (cfg : Config) (tokenId : string) (price size : num)
    (options : PlacePolymarketOrderOptions) (clob : ClobOutcome) (d : Disk)
  : PlacePolyResult * Disk * list Event :=
  if negb (configured cfg) then
    (PNull, d, [EvLog (LPolyNotConfigured tokenId price size)])
  else if ARB_DRY_RUN cfg && negb (forcePlace options) then
    (PNull, d, [])
  else
    let minUsd := minUsdOf cfg in
    if (price * size <? minUsd)%num then
      (PErr (ErrNotionalBelowMin (price * size) minUsd), d,
       [EvLog (LPolyNotionalBelowMin (price * size) minUsd)])
    else
      match clob with
      | ClientFailed text => (PErr (ErrVenue text), d, [EvLog (LPolyOrderThrew text)])
      | _ =>
        let tick := match tickSize options with Some t => t | None => POLYMARKET_TICK_SIZE cfg end in
        let neg := match negRisk options with Some b => b | None => POLYMARKET_NEG_RISK cfg end in
        let limitPrice := JsNum.min (price + POLY_BUY_LIMIT_BUFFER cfg)%num (dec 99 100) in
        let roundedPrice := roundPriceToTickSize limitPrice tick in
        if (roundedPrice * size <? minUsd)%num then
          (PErr (ErrLimitNotionalBelowMin (roundedPrice * size) minUsd), d,
           [EvLog (LPolyLimitNotionalBelowMin (roundedPrice * size) minUsd)])
        else
          let request := EvPolyBuy tokenId roundedPrice size tick neg in
          match clob with
          | ClientFailed text | CallThrew text =>
              (PErr (ErrVenue text), d, [request; EvLog (LPolyOrderThrew text)])
          | Responded orderId errMsg =>
              if truthyOpt errMsg || negb (truthyOpt orderId) then
                let msg := match errMsg with Some m => m | None => "No order ID in response" end in
                (PErr (ErrVenue msg), d, [request; EvLog (LPolyBuyFailed msg)])
              else
                let oid := match orderId with Some o => o | None => "" end in
                let d' := if truthyOpt (conditionId options)
                          then addHolding (match conditionId options with Some c => c | None => "" end)
                                          tokenId size d
                          else d in
                (POk oid, d',
                 [request; EvLog (LPolyBuyPlaced oid tokenId roundedPrice size);
                  EvFulfillmentCheck oid])
          end
      end.

Definition sellPolymarketOrder (cfg : Config) (tokenId : string) (size : num)
    (options : PlacePolymarketOrderOptions) (clob : ClobOutcome)
  : PlacePolyResult * list Event :=
  if negb (configured cfg) then (PNull, [])
  else if ARB_DRY_RUN cfg && negb (forcePlace options) then (PNull, [])
  else if (size <=? zero)%num then (PErr ErrSellSizeNotPositive, [])
  else
    match clob with
    | ClientFailed text => (PErr (ErrVenue text), [EvLog (LPolySellThrew text)])
    | CallThrew text =>
        let tick := match tickSize options with Some t => t | None => POLYMARKET_TICK_SIZE cfg end in
        let neg := match negRisk options with Some b => b | None => POLYMARKET_NEG_RISK cfg end in
        (PErr (ErrVenue text), [EvPolySell tokenId size tick neg; EvLog (LPolySellThrew text)])
    | Responded orderId errMsg =>
        let tick := match tickSize options with Some t => t | None => POLYMARKET_TICK_SIZE cfg end in
        let neg := match negRisk options with Some b => b | None => POLYMARKET_NEG_RISK cfg end in
        let request := EvPolySell tokenId size tick neg in
        if truthyOpt errMsg || negb (truthyOpt orderId) then
          let msg := match errMsg with Some m => m | None => "No order ID in response" end in
          (PErr (ErrVenue msg), [request; EvLog (LPolySellFailed msg)])
        else
          let oid := match orderId with Some o => o | None => "" end in
          (POk oid, [request; EvLog (LPolySellPlaced oid tokenId size)])
    end.

(** [getPolymarketBalanceUsd]: [null] when Polymarket is not configured
    or the balance query throws; [queried] is the outcome of the query. *)
Definition getPolymarketBalanceUsd (cfg : Config) (queried : option num) : option num :=
  if negb (configured cfg) then None else queried.

(** [getProxyTokenBalanceHuman] ([src/polymarket/redeem.ts]): [0] without
    a proxy, and [0] for an answer that is not finite or a failed read. *)
Definition getProxyTokenBalanceHuman (cfg : Config) (onChain : num) : num :=
  if negb (truthy (POLYMARKET_PROXY cfg)) then zero
  else if isFinite onChain then onChain else zero.

End PolyOrder.

Export PolyOrder.

(* ===================================================================== *)
(** ** Kalshi orders ([src/kalshi/bot.ts]) *)
(* ===================================================================== *)

Module KalshiBot.

Inductive KalshiResult : Type :=
| KOk (orderId : string)
| KErr (msg : string).

(** [!("error" in result)] *)
Definition kIsOk (r : KalshiResult) : bool :=
  match r with KOk _ => true | KErr _ => false end.

(** [ordersApi.createOrder] throws, or answers with [order?.order_id]. *)
Inductive KalshiOutcome : Type :=
| KThrew (msg : string)
| KResponded (order_id : option string).

Definition placeOrder (cfg : Config) (ticker : string) (side : KalshiSide)
    (count priceCents : num) (arbLive : bool) (out : KalshiOutcome)
  : KalshiResult * list Event :=
  let dryRun := if arbLive then false else BOT_DRY_RUN cfg in
  if dryRun then
    (KOk "dry-run", [EvLog (LKalshiDryRunBuy ticker side count priceCents)])
  else
    let price := JsNum.max (ofZ 1) (JsNum.min (ofZ 99) priceCents) in
    let request := EvKalshiOrder ticker side Buy count price in
    match out with
    | KResponded order_id =>
        let orderId := match order_id with Some o => o | None => "unknown" end in
        (KOk orderId, [request; EvLog (LKalshiOrderPlaced orderId ticker side count price)])
    | KThrew msg => (KErr msg, [request; EvLog (LKalshiOrderFailed ticker msg)])
    end.

Definition placeSellOrder (cfg : Config) (ticker : string) (side : KalshiSide)
    (count : num) (arbLive : bool) (out : KalshiOutcome)
  : KalshiResult * list Event :=
  let dryRun := if arbLive then false else BOT_DRY_RUN cfg in
  if dryRun then
    (KOk "dry-run", [EvLog (LKalshiDryRunSell ticker side count)])
  else
    let price := ofZ 1 in
    let request := EvKalshiOrder ticker side Sell count price in
    match out with
    | KResponded order_id =>
        let orderId := match order_id with Some o => o | None => "unknown" end in
        (KOk orderId, [request; EvLog (LKalshiSellPlaced orderId ticker side count)])
    | KThrew msg => (KErr msg, [request; EvLog (LKalshiSellFailed ticker msg)])
    end.

End KalshiBot.

Export KalshiBot.

(* ===================================================================== *)
(** ** Price snapshots ([src/monitor/dual-monitor.ts]) *)
(* ===================================================================== *)

Module DualMonitor.

Record MarketPrices : Type := {
  ticker : string;
  upAskCents : num;
  downAskCents : num;
  lastPriceCents : num
}.

Record PolymarketPrices : Type := {
  slug : string;
  upAsk : num;
  downAsk : num;
  upTokenId : string;
  downTokenId : string;
  conditionId : string
}.

Record DualMarketPrices : Type := {
  kalshiTicker : string;
  kalshi : option MarketPrices;
  polymarket : option PolymarketPrices;
  fetchedAt : Z
}.

End DualMonitor.

Import DualMonitor.

(* ===================================================================== *)
(** ** Cross-venue arbitrage ([src/monitor/arb.ts]) *)
(* ===================================================================== *)

Module Arb.

Definition FOK_RETRY_DELAY_MS : Z := 200.

Definition fokPattern : list string :=
  ["couldn't be fully filled"; "FOK"; "FAK"; "fill.or.kill"; "fill.and.kill"].

Definition isFokNotFilledError (err : OrderError) : bool :=
  match err with
  | ErrVenue msg => Regex.test fokPattern msg
  | ErrSellSizeNotPositive => Regex.test fokPattern "Sell size must be positive"
  | ErrNotionalBelowMin _ _ | ErrLimitNotionalBelowMin _ _ => false
  end.

(** The price of the second attempt. *)
Definition retryPrice (cfg : Config) (currentAsk : option num) : num :=
  match currentAsk with
  | Some a => JsNum.min one (a + ARB_PRICE_BUFFER cfg)%num
  | None => dec 99 100
  end.

Definition retryPolymarketFokAfter200ms (cfg : Config) (tokenId : string) (size : num)
    (options : PlacePolymarketOrderOptions) (asked : Settled (option num))
    (clob : ClobOutcome) (d : Disk)
  : Settled PlacePolyResult * Disk * list Event :=
  match asked with
  | Rejected reason =>
      (Rejected reason, d, [EvDelay FOK_RETRY_DELAY_MS; EvBestAskQuery tokenId])
  | Fulfilled currentAsk =>
      let price := retryPrice cfg currentAsk in
      let '(r, d', evs) := placePolymarketOrder cfg tokenId price size options clob d in
      (Fulfilled r, d',
       [EvDelay FOK_RETRY_DELAY_MS; EvBestAskQuery tokenId;
        EvLog (LArbRetry price currentAsk)]
       ++ evs)
  end.

Record OpenArbPosition : Type := {
  leg : Side;
  kalshiSide : KalshiSide;
  kalshiCount : num;
  polyTokenId : string;
  polySize : num
}.

(** The module-level variables of [arb.ts]. *)
Record ArbState : Type := {
  upArbDoneTickers : gset string;
  downArbDoneTickers : gset string;
  openArbPositions : gmap string OpenArbPosition
}.

Definition initialArbState : ArbState := {|
  upArbDoneTickers := ∅;
  downArbDoneTickers := ∅;
  openArbPositions := ∅
|}.

Definition inRange (cfg : Config) (sum : num) : bool :=
  isFinite sum && (sum >=? ARB_SUM_LOW cfg)%num && (sum <? ARB_SUM_THRESHOLD cfg)%num.

(** The answers of the two venues during one invocation. *)
Record ArbEnv : Type := {
  kalshiBuy : KalshiOutcome;
  polyBuy : ClobOutcome;
  bestAsk : Settled (option num);
  polyRetry : ClobOutcome;
  kalshiSell : KalshiOutcome;
  polySell : ClobOutcome
}.

Definition exitArbPosition (cfg : Config) (ticker : string) (pos : OpenArbPosition)
    (env : ArbEnv) (st : ArbState) : ArbState * list Event :=
  let st' := {| upArbDoneTickers := upArbDoneTickers st;
                downArbDoneTickers := downArbDoneTickers st;
                openArbPositions := delete ticker (openArbPositions st) |} in
  let '(kRes, kEvs) :=
    placeSellOrder cfg ticker (kalshiSide pos) (kalshiCount pos) true (kalshiSell env) in
  let '(pRes, pEvs) :=
    sellPolymarketOrder cfg (polyTokenId pos) (polySize pos)
      {| tickSize := None; negRisk := None; forcePlace := true; PolyOrder.conditionId := None |}
      (polySell env) in
  (st',
   [EvLog (LArbExit (leg pos) (kalshiSide pos) (kalshiCount pos) (polySize pos))]
   ++ kEvs ++ pEvs
   ++ match kRes with KErr msg => [EvLog (LArbExitKalshiFailed msg)] | KOk _ => [] end
   ++ match pRes with PErr e => [EvLog (LArbExitPolyFailed e)] | _ => [] end).

(** The parameters of one leg's pair of orders. *)
Record LegOrder : Type := {
  loLeg : Side;
  loSum : num;
  loKalshiSide : KalshiSide;
  loKalshiContracts : num;
  loKalshiPriceCents : num;
  loPolyTokenId : string;
  loPolyPrice : num;
  loPolySize : num;
  loConditionId : string
}.

(** The branch one invocation takes, decided before the first [await]
    from the snapshot and the module state. *)
Inductive Decision : Type :=
| NoPrices
| ExitPosition (pos : OpenArbPosition)
| AlreadyAttempted (l : Side)
| Enter (o : LegOrder)
| Idle.

Definition legOrder (cfg : Config) (l : Side) (sum kAsk polyAsk : num)
    (tokenId condId : string) : LegOrder :=
  let kalshiContracts := JsNum.max (ARB_KALSHI_MIN cfg) (round (ARB_SIZE cfg)) in
  let minUsd := if (POLYMARKET_MIN_USD cfg >? zero)%num then POLYMARKET_MIN_USD cfg else one in
  let kalshiPriceCents := round ((kAsk + ARB_PRICE_BUFFER cfg) * ofZ 100)%num in
  let polyPrice := JsNum.min one (polyAsk + ARB_PRICE_BUFFER cfg)%num in
  let polySize :=
    JsNum.max (JsNum.max (ARB_POLY_MIN cfg) (ARB_SIZE cfg)) (ceil (minUsd / polyPrice)%num) in
  {| loLeg := l; loSum := sum;
     loKalshiSide := match l with UP => Yes | DOWN => No end;
     loKalshiContracts := kalshiContracts;
     loKalshiPriceCents := kalshiPriceCents;
     loPolyTokenId := tokenId;
     loPolyPrice := polyPrice;
     loPolySize := polySize;
     loConditionId := condId |}.

Definition sumUpOf (k : MarketPrices) (pm : PolymarketPrices) : num :=
  (upAskCents k / ofZ 100 + downAsk pm)%num.

Definition sumDownOf (k : MarketPrices) (pm : PolymarketPrices) : num :=
  (downAskCents k / ofZ 100 + upAsk pm)%num.

Definition exitDue (cfg : Config) (k : MarketPrices) (pm : PolymarketPrices)
    (pos : OpenArbPosition) : bool :=
  let sum := match leg pos with UP => sumUpOf k pm | DOWN => sumDownOf k pm end in
  isFinite sum && (sum <? ARB_SUM_LOW cfg)%num.

Definition arbDecision (cfg : Config) (p : DualMarketPrices) (st : ArbState) : Decision :=
  match kalshi p, polymarket p with
  | Some k, Some pm =>
      let kalshiTicker := kalshiTicker p in
      let kUp := (upAskCents k / ofZ 100)%num in
      let kDown := (downAskCents k / ofZ 100)%num in
      let polyUp := upAsk pm in
      let polyDown := downAsk pm in
      let sumUp := (kUp + polyDown)%num in
      let sumDown := (kDown + polyUp)%num in
      let exiting :=
        match openArbPositions st !! kalshiTicker with
        | Some pos => if exitDue cfg k pm pos then Some pos else None
        | None => None
        end in
      match exiting with
      | Some pos => ExitPosition pos
      | None =>
          if inRange cfg sumUp then
            if bool_decide (kalshiTicker ∈ upArbDoneTickers st) then AlreadyAttempted UP
            else Enter (legOrder cfg UP sumUp kUp polyDown (downTokenId pm) (conditionId pm))
          else if inRange cfg sumDown then
            if bool_decide (kalshiTicker ∈ downArbDoneTickers st) then AlreadyAttempted DOWN
            else Enter (legOrder cfg DOWN sumDown kDown polyUp (upTokenId pm) (conditionId pm))
          else Idle
      end
  | _, _ => NoPrices
  end.

(** [upArbDoneTickers.add] / [downArbDoneTickers.add] *)
Definition markAttempted (ticker : string) (l : Side) (st : ArbState) : ArbState :=
  match l with
  | UP => {| upArbDoneTickers := {[ticker]} ∪ upArbDoneTickers st;
             downArbDoneTickers := downArbDoneTickers st;
             openArbPositions := openArbPositions st |}
  | DOWN => {| upArbDoneTickers := upArbDoneTickers st;
               downArbDoneTickers := {[ticker]} ∪ downArbDoneTickers st;
               openArbPositions := openArbPositions st |}
  end.

(** The Polymarket result after the one conditional retry. *)
Definition polyWithRetry (cfg : Config) (o : LegOrder) (env : ArbEnv) (d : Disk)
  : Settled PlacePolyResult * Disk * list Event :=
  let options := {| tickSize := None; negRisk := None; forcePlace := false;
                    PolyOrder.conditionId := Some (loConditionId o) |} in
  let '(polyResult, d1, pEvs) :=
    placePolymarketOrder cfg (loPolyTokenId o) (loPolyPrice o) (loPolySize o)
      options (polyBuy env) d in
  match polyResult with
  | PErr e =>
      if isFokNotFilledError e then
        let '(r, d2, rEvs) :=
          retryPolymarketFokAfter200ms cfg (loPolyTokenId o) (loPolySize o) options
            (bestAsk env) (polyRetry env) d1 in
        (r, d2, pEvs ++ [EvLog (LArbPolyFailed e)] ++ rEvs)
      else (Fulfilled polyResult, d1, pEvs ++ [EvLog (LArbPolyFailed e)])
  | _ => (Fulfilled polyResult, d1, pEvs)
  end.

(** The body of one leg's branch once its flag is set.  The two orders are
    pending together; the events of the Kalshi order are listed first.
    When the retry rejects, the exception leaves the invocation before the
    Kalshi result is looked at. *)
Definition placeLeg (cfg : Config) (ticker : string) (o : LegOrder) (env : ArbEnv)
    (st : ArbState) (d : Disk) : ArbState * Disk * list Event :=
  let opportunity :=
    EvLog (LArbOpportunity (loLeg o) (ARB_DRY_RUN cfg) (loSum o)
             (loKalshiPriceCents o) (loPolyPrice o) (loPolySize o)) in
  if ARB_DRY_RUN cfg then (st, d, [opportunity])
  else
    let '(kalshiResult, kEvs) :=
      placeOrder cfg ticker (loKalshiSide o) (loKalshiContracts o) (loKalshiPriceCents o)
        true (kalshiBuy env) in
    let '(polySettled, d', pEvs) := polyWithRetry cfg o env d in
    match polySettled with
    | Rejected reason => (st, d', [opportunity] ++ kEvs ++ pEvs ++ [EvRejected reason])
    | Fulfilled polyResult =>
        let failed :=
          match kalshiResult with
          | KErr msg => [EvLog (LArbKalshiFailed msg)]
          | KOk _ => []
          end in
        let st' :=
          if kIsOk kalshiResult && isOk polyResult then
            {| upArbDoneTickers := upArbDoneTickers st;
               downArbDoneTickers := downArbDoneTickers st;
               openArbPositions :=
                 <[ticker := {| leg := loLeg o;
                                kalshiSide := loKalshiSide o;
                                kalshiCount := loKalshiContracts o;
                                polyTokenId := loPolyTokenId o;
                                polySize := loPolySize o |}]> (openArbPositions st) |}
          else st in
        (st', d', [opportunity] ++ kEvs ++ pEvs ++ failed)
    end.

Definition checkArbAndPlaceOrders (cfg : Config) (p : DualMarketPrices) (env : ArbEnv)
    (st : ArbState) (d : Disk) : ArbState * Disk * list Event :=
  match arbDecision cfg p st with
  | NoPrices | Idle | AlreadyAttempted _ => (st, d, [])
  | ExitPosition pos =>
      let '(st', evs) := exitArbPosition cfg (kalshiTicker p) pos env st in
      (st', d, evs)
  | Enter o =>
      placeLeg cfg (kalshiTicker p) o env (markAttempted (kalshiTicker p) (loLeg o) st) d
  end.

(** A run of the monitor: one invocation per snapshot, in order. *)
Fixpoint runArb (cfg : Config) (ticks : list (DualMarketPrices * ArbEnv))
    (st : ArbState) (d : Disk) : ArbState * Disk * list Event :=
  match ticks with
  | [] => (st, d, [])
  | (p, env) :: rest =>
      let '(st1, d1, evs1) := checkArbAndPlaceOrders cfg p env st d in
      let '(st2, d2, evs2) := runArb cfg rest st1 d1 in
      (st2, d2, evs1 ++ evs2)
  end.

End Arb.

(* ===================================================================== *)
(** ** Follow-confidence strategy ([src/monitor/kalshi-1-poly-strategy.ts]) *)
(* ===================================================================== *)

Module Strategy.

Definition KALSHI_1 : num := ofZ 100.
Definition POLY_PRICE_MAX : num := dec 99 100.
Definition FOK_RETRY_MS : Z := 100.
Definition FOK_RETRY_BUFFER : num := dec 1 100.
Definition BALANCE_FETCH_DELAY_MS : Z := 1500.
Definition SELL_MAX_ATTEMPTS : nat := 20.
Definition SELL_RETRY_DELAY_MS : Z := 1000.
Definition MINUTES_PAST_QUARTER_USE_BALANCE : num := ofZ 5.

Definition minutesSinceLastQuarter (nowMs : Z) : num :=
  let min := (nowMs / 60000) mod 60 in
  let sec := (nowMs / 1000) mod 60 in
  let ms := nowMs mod 1000 in
  let quarterMin := (min / 15) * 15 in
  (ofZ (min - quarterMin) + ofZ sec / ofZ 60 + ofZ ms / ofZ 60000)%num.

Definition getCurrentQuarterStartMs (nowMs : Z) : Z :=
  let min := (nowMs / 60000) mod 60 in
  let sec := (nowMs / 1000) mod 60 in
  let ms := nowMs mod 1000 in
  let quarterMin := (min / 15) * 15 in
  nowMs - ((min - quarterMin) * 60000 + sec * 1000 + ms).

(** The variables of the balance prefetch. *)
Record BalanceCache : Type := {
  lastQuarterStartMs : Z;
  cachedProxyBalanceUsd : option num;
  cachedProxyBalanceUsdAt : Z;
  balanceFetchScheduled : bool;
  (** the pending timer, with its delay *)
  balanceFetchTimeoutId : option num
}.

Record Position : Type := {
  side : Side;
  tokenId : string;
  size : num;
  conditionId : string
}.

(** The module-level variables of the strategy. *)
Record StratState : Type := {
  position : option Position;
  lastTicker : option string;
  entryAttemptedTicker : option string;
  cycleDoneTicker : option string;
  seenKalshiUp1 : bool;
  seenKalshiDown1 : bool;
  strategyBusy : bool;
  seenTickers : gset string;
  skippedTickers : gset string;
  cache : BalanceCache
}.

Definition initialStratState : StratState := {|
  position := None;
  lastTicker := None;
  entryAttemptedTicker := None;
  cycleDoneTicker := None;
  seenKalshiUp1 := false;
  seenKalshiDown1 := false;
  strategyBusy := false;
  seenTickers := ∅;
  skippedTickers := ∅;
  cache := {| lastQuarterStartMs := 0;
              cachedProxyBalanceUsd := None;
              cachedProxyBalanceUsdAt := 0;
              balanceFetchScheduled := false;
              balanceFetchTimeoutId := None |}
|}.

(** The answers of the outside world during one invocation. *)
Record StratEnv : Type := {
  (** [Date.now()] at the start of the evaluation *)
  nowMs : Z;
  (** outcome of the collateral balance query, [None] when it throws *)
  usdBalance : option num;
  (** [Date.now()] when the balance is cached *)
  balanceFetchedAt : Z;
  (** per sell attempt: the on-chain token balance and the venue's answer *)
  sellTry : nat -> num * ClobOutcome;
  buyFirst : ClobOutcome;
  bestAskNow : Settled (option num);
  buyRetry : ClobOutcome;
  (** on-chain token balance read after a buy *)
  balanceAfterBuy : num
}.

Definition withBusy (b : bool) (st : StratState) : StratState :=
  {| position := position st; lastTicker := lastTicker st;
     entryAttemptedTicker := entryAttemptedTicker st;
     cycleDoneTicker := cycleDoneTicker st;
     seenKalshiUp1 := seenKalshiUp1 st; seenKalshiDown1 := seenKalshiDown1 st;
     strategyBusy := b;
     seenTickers := seenTickers st; skippedTickers := skippedTickers st;
     cache := cache st |}.

Definition withCache (c : BalanceCache) (st : StratState) : StratState :=
  {| position := position st; lastTicker := lastTicker st;
     entryAttemptedTicker := entryAttemptedTicker st;
     cycleDoneTicker := cycleDoneTicker st;
     seenKalshiUp1 := seenKalshiUp1 st; seenKalshiDown1 := seenKalshiDown1 st;
     strategyBusy := strategyBusy st;
     seenTickers := seenTickers st; skippedTickers := skippedTickers st;
     cache := c |}.

Definition withPosition (pos : option Position) (st : StratState) : StratState :=
  {| position := pos; lastTicker := lastTicker st;
     entryAttemptedTicker := entryAttemptedTicker st;
     cycleDoneTicker := cycleDoneTicker st;
     seenKalshiUp1 := seenKalshiUp1 st; seenKalshiDown1 := seenKalshiDown1 st;
     strategyBusy := strategyBusy st;
     seenTickers := seenTickers st; skippedTickers := skippedTickers st;
     cache := cache st |}.

(** [cycleDoneTicker = ticker; position = null] *)
Definition cycleDone (ticker : string) (st : StratState) : StratState :=
  {| position := None; lastTicker := lastTicker st;
     entryAttemptedTicker := entryAttemptedTicker st;
     cycleDoneTicker := Some ticker;
     seenKalshiUp1 := seenKalshiUp1 st; seenKalshiDown1 := seenKalshiDown1 st;
     strategyBusy := strategyBusy st;
     seenTickers := seenTickers st; skippedTickers := skippedTickers st;
     cache := cache st |}.

Definition onNewTicker (ticker : string) (st : StratState) : StratState :=
  let changed :=
    match lastTicker st with
    | Some t => negb (bool_decide (t = ticker))
    | None => false
    end in
  {| position := if changed then None else position st;
     lastTicker := Some ticker;
     entryAttemptedTicker := if changed then None else entryAttemptedTicker st;
     cycleDoneTicker := if changed then None else cycleDoneTicker st;
     seenKalshiUp1 := if changed then false else seenKalshiUp1 st;
     seenKalshiDown1 := if changed then false else seenKalshiDown1 st;
     strategyBusy := strategyBusy st;
     seenTickers := seenTickers st; skippedTickers := skippedTickers st;
     cache := cache st |}.

Definition ensureProxyBalanceScheduledOrFetched (cfg : Config) (env : StratEnv)
    (c : BalanceCache) : BalanceCache * list Event :=
  let quarterStart := getCurrentQuarterStartMs (nowMs env) in
  let '(c1, evs1) :=
    if bool_decide (quarterStart = lastQuarterStartMs c) then (c, [])
    else
      ({| lastQuarterStartMs := quarterStart;
          cachedProxyBalanceUsd := None;
          cachedProxyBalanceUsdAt := cachedProxyBalanceUsdAt c;
          balanceFetchScheduled := false;
          balanceFetchTimeoutId := None |},
       match balanceFetchTimeoutId c with Some _ => [EvClearBalanceTimer] | None => [] end) in
  if balanceFetchScheduled c1 then (c1, evs1)
  else
    let minsPast := minutesSinceLastQuarter (nowMs env) in
    if (minsPast >=? MINUTES_PAST_QUARTER_USE_BALANCE)%num then
      match getPolymarketBalanceUsd cfg (usdBalance env) with
      | Some balance =>
          ({| lastQuarterStartMs := lastQuarterStartMs c1;
              cachedProxyBalanceUsd := Some balance;
              cachedProxyBalanceUsdAt := balanceFetchedAt env;
              balanceFetchScheduled := true;
              balanceFetchTimeoutId := balanceFetchTimeoutId c1 |},
           evs1 ++ [EvLog (LStratBalanceFetched balance)])
      | None =>
          ({| lastQuarterStartMs := lastQuarterStartMs c1;
              cachedProxyBalanceUsd := cachedProxyBalanceUsd c1;
              cachedProxyBalanceUsdAt := cachedProxyBalanceUsdAt c1;
              balanceFetchScheduled := true;
              balanceFetchTimeoutId := balanceFetchTimeoutId c1 |},
           evs1)
      end
    else
      let delayMs := ((MINUTES_PAST_QUARTER_USE_BALANCE - minsPast) * ofZ 60 * ofZ 1000)%num in
      ({| lastQuarterStartMs := lastQuarterStartMs c1;
          cachedProxyBalanceUsd := cachedProxyBalanceUsd c1;
          cachedProxyBalanceUsdAt := cachedProxyBalanceUsdAt c1;
          balanceFetchScheduled := true;
          balanceFetchTimeoutId := Some delayMs |},
       evs1 ++ [EvLog (LStratBalanceScheduled delayMs); EvSetBalanceTimer delayMs]).

(** The callback of the timer set above, run between two evaluations. *)
Definition balanceFetchTimerFires (cfg : Config) (queried : option num) (at_ : Z)
    (c : BalanceCache) : BalanceCache * list Event :=
  match getPolymarketBalanceUsd cfg queried with
  | Some balance =>
      ({| lastQuarterStartMs := lastQuarterStartMs c;
          cachedProxyBalanceUsd := Some balance;
          cachedProxyBalanceUsdAt := at_;
          balanceFetchScheduled := balanceFetchScheduled c;
          balanceFetchTimeoutId := None |},
       [EvLog (LStratBalanceFetched balance)])
  | None =>
      ({| lastQuarterStartMs := lastQuarterStartMs c;
          cachedProxyBalanceUsd := cachedProxyBalanceUsd c;
          cachedProxyBalanceUsdAt := cachedProxyBalanceUsdAt c;
          balanceFetchScheduled := balanceFetchScheduled c;
          balanceFetchTimeoutId := None |},
       [])
  end.

Definition fokPattern : list string :=
  ["couldn't be fully filled"; "FOK"; "fill.or.kill"].

Definition isFokError (err : OrderError) : bool :=
  match err with
  | ErrVenue msg => Regex.test fokPattern msg
  | ErrSellSizeNotPositive => Regex.test fokPattern "Sell size must be positive"
  | ErrNotionalBelowMin _ _ | ErrLimitNotionalBelowMin _ _ => false
  end.

(** The price of the second attempt. *)
Definition retryPrice (ask : option num) : num :=
  match ask with
  | Some a => JsNum.min POLY_PRICE_MAX (a + FOK_RETRY_BUFFER)%num
  | None => POLY_PRICE_MAX
  end.

Definition placePolyBuyWithRetry (cfg : Config) (tokenId : string) (price size : num)
    (options : PlacePolymarketOrderOptions) (env : StratEnv) (d : Disk)
  : Settled PlacePolyResult * Disk * list Event :=
  let '(result, d1, evs1) :=
    placePolymarketOrder cfg tokenId price size options (buyFirst env) d in
  match result with
  | PErr e =>
      if negb (isFokError e) then (Fulfilled result, d1, evs1)
      else
        match bestAskNow env with
        | Rejected reason =>
            (Rejected reason, d1, evs1 ++ [EvDelay FOK_RETRY_MS; EvBestAskQuery tokenId])
        | Fulfilled ask =>
            let retryPrice := retryPrice ask in
            let '(result2, d2, evs2) :=
              placePolymarketOrder cfg tokenId retryPrice size options (buyRetry env) d1 in
            (Fulfilled result2, d2,
             evs1 ++ [EvDelay FOK_RETRY_MS; EvBestAskQuery tokenId;
                      EvLog (LStratFokRetry retryPrice ask)] ++ evs2)
        end
  | _ => (Fulfilled result, d1, evs1)
  end.

Definition updatePositionSizeFromBalance (cfg : Config) (env : StratEnv)
    (st : StratState) : StratState * list Event :=
  match position st with
  | None => (st, [EvDelay BALANCE_FETCH_DELAY_MS])
  | Some pos =>
      let balance := getProxyTokenBalanceHuman cfg (balanceAfterBuy env) in
      let sellSize := (floor (balance * ofZ 100) / ofZ 100)%num in
      let pos' :=
        if (sellSize >=? dec 1 100)%num
        then {| side := side pos; tokenId := tokenId pos; size := sellSize;
                conditionId := conditionId pos |}
        else pos in
      (withPosition (Some pos') st,
       [EvDelay BALANCE_FETCH_DELAY_MS; EvLog (LStratAfterBuyBalance balance sellSize)])
  end.

(** The size offered in one sell attempt. *)
Definition sellSizeOf (balanceHuman positionSize : num) : num :=
  if (balanceHuman >=? dec 1 100)%num
  then (floor (balanceHuman * ofZ 100) / ofZ 100)%num
  else JsNum.max (dec 1 100) (floor ((positionSize - dec 2 100) * ofZ 100) / ofZ 100)%num.

(** The [for] loop of the exit.  [fuel] bounds the recursion; the guard of
    the loop is tested as written.  After a successful sell the guard fails
    ([position] is null and [sold] is true), so the loop is left at once. *)
Fixpoint sellLoop (cfg : Config) (ticker : string) (currentPrice threshold : num)
    (buffered : bool) (env : StratEnv) (fuel attempt : nat)
    (st : StratState) (d : Disk) : StratState * Disk * list Event :=
  match fuel with
  | O => (st, d, [])
  | S fuel' =>
    match position st with
    | Some pos =>
      if (attempt <=? SELL_MAX_ATTEMPTS)%nat then
        let '(onChain, clob) := sellTry env attempt in
        let balanceHuman := getProxyTokenBalanceHuman cfg onChain in
        let sellSize := sellSizeOf balanceHuman (size pos) in
        let conservative :=
          if negb (balanceHuman >=? dec 1 100)%num && JsNum.eqb balanceHuman zero
             && (attempt =? 1)%nat
          then [EvLog (LStratConservativeSize sellSize)] else [] in
        let announce :=
          conservative ++
          [EvLog (LStratExit (side pos) currentPrice threshold buffered
                    sellSize balanceHuman attempt)] in
        if (sellSize <? dec 1 100)%num then
          (cycleDone ticker st, d, announce ++ [EvLog LStratSellSkipped])
        else
          let '(result, sEvs) :=
            sellPolymarketOrder cfg (tokenId pos) sellSize
              {| tickSize := None; negRisk := None; forcePlace := true;
                 PolyOrder.conditionId := Some (conditionId pos) |} clob in
          match result with
          | POk _ =>
              (cycleDone ticker st, clearMarketHoldings (conditionId pos) d,
               announce ++ sEvs ++ [EvLog (LStratSellSuccessful sellSize)])
          | PErr e =>
              if (attempt <? SELL_MAX_ATTEMPTS)%nat then
                let '(st', d', evs') :=
                  sellLoop cfg ticker currentPrice threshold buffered env fuel'
                    (S attempt) st d in
                (st', d',
                 announce ++ sEvs
                 ++ [EvLog (LStratSellFailed attempt e); EvLog (LStratWillRetry attempt);
                     EvDelay SELL_RETRY_DELAY_MS] ++ evs')
              else
                (cycleDone ticker st, d,
                 announce ++ sEvs
                 ++ [EvLog (LStratSellFailed attempt e); EvLog LStratClearingAfterMax])
          | PNull =>
              let '(st', d', evs') :=
                sellLoop cfg ticker currentPrice threshold buffered env fuel'
                  (S attempt) st d in
              (st', d', announce ++ sEvs ++ evs')
          end
      else (st, d, [])
    | None => (st, d, [])
    end
  end.

(** [effectiveSellThreshold] *)
Definition effectiveSellThreshold (cfg : Config) (kalshiSameSide : num) : num :=
  if (kalshiSameSide >=? one)%num
  then (POLY_SELL_BELOW cfg - POLY_SELL_RANGE_BUFFER cfg)%num
  else POLY_SELL_BELOW cfg.

(** The branch taken while a position is held. *)
Definition manageExit (cfg : Config) (ticker : string) (kUp kDown polyUp polyDown : num)
    (pos : Position) (env : StratEnv) (st : StratState) (d : Disk)
  : StratState * Disk * list Event :=
  let currentPrice := match side pos with UP => polyUp | DOWN => polyDown end in
  let kalshiSameSide := match side pos with UP => kUp | DOWN => kDown end in
  let threshold := effectiveSellThreshold cfg kalshiSameSide in
  if (currentPrice <? threshold)%num then
    if negb (KALSHI_1_POLY_DRY_RUN cfg) then
      sellLoop cfg ticker currentPrice threshold (kalshiSameSide >=? one)%num env
        SELL_MAX_ATTEMPTS 1%nat st d
    else (cycleDone ticker st, d, [])
  else (st, d, []).

(** Size of an entry. *)
Definition buySize (cfg : Config) (nowMs : Z) (c : BalanceCache) : num * list Event :=
  let minsPast := minutesSinceLastQuarter nowMs in
  if (minsPast >=? MINUTES_PAST_QUARTER_USE_BALANCE)%num then
    match cachedProxyBalanceUsd c with
    | Some balance =>
        if (balance >=? one)%num then
          let size := JsNum.max one (floor balance) in
          (size, [EvLog (LStratUsingCachedBalance balance size)])
        else (KALSHI_1_POLY_SIZE cfg, [])
    | None => (KALSHI_1_POLY_SIZE cfg, [])
    end
  else (KALSHI_1_POLY_SIZE cfg, []).

(** The body of [if (canBuyUp)] and of [if (canBuyDown)].  When the buy
    rejects, the exception leaves the evaluation through its [finally]. *)
Definition enter (cfg : Config) (s : Side) (ticker : string) (kalshiPrice polyPrice : num)
    (pm : PolymarketPrices) (env : StratEnv) (st : StratState) (d : Disk)
  : StratState * Disk * list Event :=
  let token := match s with UP => upTokenId pm | DOWN => downTokenId pm end in
  let '(size, sizeEvs) := buySize cfg (nowMs env) (cache st) in
  let announce := sizeEvs ++ [EvLog (LStratEntry s kalshiPrice polyPrice size)] in
  if negb (KALSHI_1_POLY_DRY_RUN cfg) then
    let '(settled, d1, bEvs) :=
      placePolyBuyWithRetry cfg token polyPrice size
        {| tickSize := None; negRisk := None; forcePlace := true;
           PolyOrder.conditionId := Some (DualMonitor.conditionId pm) |} env d in
    match settled with
    | Rejected reason => (st, d1, announce ++ bEvs ++ [EvRejected reason])
    | Fulfilled (POk _) =>
        let st1 :=
          {| position := Some {| side := s; tokenId := token; size := size;
                                 conditionId := DualMonitor.conditionId pm |};
             lastTicker := lastTicker st;
             entryAttemptedTicker := Some ticker;
             cycleDoneTicker := cycleDoneTicker st;
             seenKalshiUp1 := seenKalshiUp1 st; seenKalshiDown1 := seenKalshiDown1 st;
             strategyBusy := strategyBusy st;
             seenTickers := seenTickers st; skippedTickers := skippedTickers st;
             cache := cache st |} in
        let d2 := addHolding (DualMonitor.conditionId pm) token size d1 in
        let '(st2, uEvs) := updatePositionSizeFromBalance cfg env st1 in
        (st2, d2, announce ++ bEvs ++ uEvs)
    | Fulfilled (PErr e) => (st, d1, announce ++ bEvs ++ [EvLog (LStratBuyFailed s e)])
    | Fulfilled PNull => (st, d1, announce ++ bEvs)
    end
  else (st, d, announce).

(** The part of the evaluation that runs when no position is held. *)
Definition seekEntry (cfg : Config) (ticker : string) (k : MarketPrices)
    (pm : PolymarketPrices) (env : StratEnv) (st : StratState) (d : Disk)
  : StratState * Disk * list Event :=
  let kUp := (upAskCents k / ofZ 100)%num in
  let kDown := (downAskCents k / ofZ 100)%num in
  let polyUp := upAsk pm in
  let polyDown := downAsk pm in
  let firstSight := negb (bool_decide (ticker ∈ seenTickers st)) in
  let skipNow := firstSight && ((kUp >=? one)%num || (kDown >=? one)%num) in
  let st1 :=
    {| position := position st; lastTicker := lastTicker st;
       entryAttemptedTicker := entryAttemptedTicker st;
       cycleDoneTicker := cycleDoneTicker st;
       seenKalshiUp1 := seenKalshiUp1 st; seenKalshiDown1 := seenKalshiDown1 st;
       strategyBusy := strategyBusy st;
       seenTickers := if firstSight then {[ticker]} ∪ seenTickers st else seenTickers st;
       skippedTickers := if skipNow then {[ticker]} ∪ skippedTickers st else skippedTickers st;
       cache := cache st |} in
  let evs1 := if skipNow then [EvLog (LStratSkipMarket ticker kUp kDown)] else [] in
  if bool_decide (ticker ∈ skippedTickers st1) then (st1, d, evs1)
  else
    let st2 :=
      {| position := position st1; lastTicker := lastTicker st1;
         entryAttemptedTicker := entryAttemptedTicker st1;
         cycleDoneTicker := cycleDoneTicker st1;
         seenKalshiUp1 := seenKalshiUp1 st1 || (upAskCents k >=? KALSHI_1)%num;
         seenKalshiDown1 := seenKalshiDown1 st1 || (downAskCents k >=? KALSHI_1)%num;
         strategyBusy := strategyBusy st1;
         seenTickers := seenTickers st1; skippedTickers := skippedTickers st1;
         cache := cache st1 |} in
    if bool_decide (cycleDoneTicker st2 = Some ticker) then (st2, d, evs1)
    else
      let buyUpMethod1 := seenKalshiUp1 st2 && (polyUp >=? POLY_BUY_MIN cfg)%num in
      let canBuyUp := buyUpMethod1 && (polyUp <=? POLY_PRICE_MAX)%num in
      if canBuyUp then
        let '(st3, d3, evs3) := enter cfg UP ticker kUp polyUp pm env st2 d in
        (st3, d3, evs1 ++ evs3)
      else
        let buyDownMethod1 := seenKalshiDown1 st2 && (polyDown >=? POLY_BUY_MIN cfg)%num in
        let canBuyDown := buyDownMethod1 && (polyDown <=? POLY_PRICE_MAX)%num in
        if canBuyDown then
          let '(st3, d3, evs3) := enter cfg DOWN ticker kDown polyDown pm env st2 d in
          (st3, d3, evs1 ++ evs3)
        else (st2, d, evs1).

Definition checkKalshi1PolyStrategy (cfg : Config) (p : DualMarketPrices) (env : StratEnv)
    (st : StratState) (d : Disk) : StratState * Disk * list Event :=
  match kalshi p, polymarket p with
  | Some k, Some pm =>
      if strategyBusy st then (st, d, [])
      else
        let ticker := kalshiTicker p in
        let st1 := onNewTicker ticker (withBusy true st) in
        let '(c, bEvs) := ensureProxyBalanceScheduledOrFetched cfg env (cache st1) in
        let st2 := withCache c st1 in
        let kUp := (upAskCents k / ofZ 100)%num in
        let kDown := (downAskCents k / ofZ 100)%num in
        let '(st3, d3, evs) :=
          match position st2 with
          | Some pos => manageExit cfg ticker kUp kDown (upAsk pm) (downAsk pm) pos env st2 d
          | None => seekEntry cfg ticker k pm env st2 d
          end in
        (withBusy false st3, d3, bEvs ++ evs)
  | _, _ => (st, d, [])
  end.

End Strategy.

(* ===================================================================== *)
(** ** Single-instance lock ([src/core/monitor-lock.ts]) *)
(* ===================================================================== *)

Module MonitorLock.

(** The part of the machine the lock code looks at: the content of
    [logs/monitor.lock] when the file exists, and which other processes
    (or, for a negative number, process groups) answer to
    [process.kill(pid, 0)]. *)
Record World : Type := {
  lockFile : option string;
  running : Z -> bool
}.

(** The process identity, the outcome of each guarded system call, and
    what another process does to the file meanwhile. *)
Record LockEnv : Type := {
  (** [process.pid] *)
  pid : Z;
  (** the id of the process group of the caller *)
  pgid : Z;
  (** [readFileSync] throws although the file exists *)
  firstReadFails : bool;
  secondReadFails : bool;
  (** [unlinkSync] throws and leaves the file *)
  unlinkFails : bool;
  (** [process.kill(pid, "SIGTERM")] throws *)
  sigtermFails : bool;
  (** the signalled process still answers when probed next *)
  targetSurvives : bool;
  (** the exclusive create fails for another reason than [EEXIST] *)
  createFails : bool;
  (** the plain [writeFileSync] throws *)
  rewriteFails : bool;
  (** another process creates the lock file, with this content, after
      the take-over step and before the exclusive create *)
  createdMeanwhile : option string
}.

(** How [acquireMonitorLock] ends: it returns, it calls [process.exit],
    an exception leaves it, or the process is terminated by the [SIGTERM]
    it sent to its own process group. *)
Inductive Outcome : Type :=
| Returned
| Exited (code : Z)
| Threw
| Killed.

Definition isWhiteSpace (c : ascii) : bool :=
  let n := nat_of_ascii c in
  ((n =? 9) || (n =? 10) || (n =? 11) || (n =? 12) || (n =? 13) || (n =? 32) || (n =? 160))%nat.

Fixpoint dropWhile (f : ascii -> bool) (s : list ascii) : list ascii :=
  match s with
  | [] => []
  | c :: s' => if f c then dropWhile f s' else s
  end.

(** [String.prototype.trim] *)
Definition trim (s : string) : string :=
  string_of_list_ascii
    (rev (dropWhile isWhiteSpace (rev (dropWhile isWhiteSpace (list_ascii_of_string s))))).

Definition digitValue (c : ascii) : option Z :=
  let n := nat_of_ascii c in
  if ((48 <=? n) && (n <=? 57))%nat then Some (Z.of_nat n - 48) else None.

(** The value of the longest prefix of decimal digits; [None] without one. *)
Fixpoint digits (s : list ascii) (acc : option Z) : option Z :=
  match s with
  | [] => acc
  | c :: s' =>
      match digitValue c with
      | Some v => digits s' (Some (10 * match acc with Some a => a | None => 0 end + v))
      | None => acc
      end
  end.

(** [parseInt(s, 10)] followed by [Number.isFinite]: the integer read, or
    [None] for NaN and for a digit string beyond the range of a double.
    The rounding of integers above [2^53] is not represented. *)
Definition parseIntFinite (s : string) : option Z :=
  let body := dropWhile isWhiteSpace (list_ascii_of_string s) in
  let '(negative, rest) :=
    match body with
    | c :: rest' =>
        if bool_decide (c = "-"%char) then (true, rest')
        else if bool_decide (c = "+"%char) then (false, rest')
        else (false, body)
    | [] => (false, body)
    end in
  match digits rest None with
  | Some v =>
      if (v <? 2 ^ 1024 - 2 ^ 970)%Z then Some (if negative : bool then - v else v) else None
  | None => None
  end.

(** [String(pid)] *)
Definition stringOfPid (p : Z) : string :=
  DecimalString.NilZero.string_of_int (Z.to_int p).

(** [kill(2)] with the number [0], or with minus the id of the caller's
    process group, addresses every process of that group, the caller
    included. *)
Definition ownGroup (env : LockEnv) (p : Z) : bool :=
  bool_decide (p = 0) || bool_decide (p = - pgid env).

(** [process.kill(pid, 0)] does not throw: the caller itself and its own
    group always answer. *)
Definition isPidRunning (env : LockEnv) (w : World) (p : Z) : bool :=
  bool_decide (p = pid env) || ownGroup env p || running w p.

(** [readFileSync(LOCK_FILE, "utf8")]: [None] when it throws. *)
Definition readLock (fails : bool) (w : World) : option string :=
  if fails then None else lockFile w.

(** [try { fs.unlinkSync(LOCK_FILE) } catch { }] *)
Definition unlinkLock (env : LockEnv) (w : World) : World :=
  if unlinkFails env then w else {| lockFile := None; running := running w |}.

(** [try { process.kill(existingPid, "SIGTERM") } catch { }]; the last
    component tells whether the signal ended the caller, which it does
    when it went to the caller's own group and took effect. *)
Definition sendSigterm (env : LockEnv) (target : Z) (w : World)
  : World * list Event * bool :=
  if sigtermFails env then (w, [], false)
  else if ownGroup env target && negb (targetSurvives env)
  then (w, [EvSigterm target], true)
  else
    ({| lockFile := lockFile w;
        running := fun p => if bool_decide (p = target) then targetSurvives env
                            else running w p |},
     [EvSigterm target], false).

Definition killExistingAndRemoveLock (env : LockEnv) (w : World)
  : World * list Event * bool :=
  match readLock (firstReadFails env) w with
  | None => (w, [], false)
  | Some content =>
      match parseIntFinite (trim content) with
      | None => (w, [], false)
      | Some existingPid =>
          if bool_decide (existingPid = pid env) then (unlinkLock env w, [], false)
          else
            let '(w1, evs, killed) :=
              if isPidRunning env w existingPid then sendSigterm env existingPid w
              else (w, [], false) in
            if killed then (w1, evs, true) else (unlinkLock env w1, evs, false)
      end
  end.

(** What another process starting at the same time does to the file. *)
Definition interfere (env : LockEnv) (w : World) : World :=
  match createdMeanwhile env, lockFile w with
  | Some content, None => {| lockFile := Some content; running := running w |}
  | _, _ => w
  end.

Definition acquireMonitorLock (env : LockEnv) (w : World) : Outcome * World * list Event :=
  let '(w0, evs, killed) := killExistingAndRemoveLock env w in
  if killed then (Killed, w0, evs)
  else
    let w1 := interfere env w0 in
    let content := stringOfPid (pid env) in
    let written := {| lockFile := Some content; running := running w1 |} in
    match lockFile w1 with
    | None =>
        (* [writeFileSync(LOCK_FILE, content, { flag: "wx" })] *)
        if createFails env then (Threw, w1, evs) else (Returned, written, evs)
    | Some _ =>
        (* [EEXIST] *)
        let existing :=
          match readLock (secondReadFails env) w1 with
          | Some c => trim c
          | None => ""
          end in
        let alive :=
          match parseIntFinite existing with
          | Some existingPid =>
              if isPidRunning env w1 existingPid then Some existingPid else None
          | None => None
          end in
        match alive with
        | Some existingPid =>
            (Exited 1, w1, evs ++ [EvLog (LAnotherMonitorRunning existingPid)])
        | None =>
            if rewriteFails env then (Exited 1, w1, evs ++ [EvLog LLockFileError])
            else (Returned, written, evs)
        end
    end.


End MonitorLock.

(* ===================================================================== *)
(** ** Required environment ([src/core/validate-env.ts]) *)
(* ===================================================================== *)

Module ValidateEnv.

(** [process.env]: the value of a variable when it is set. *)
Definition ProcessEnv : Type := string -> option string.

(** [(process.env[name] ?? "").trim()] *)
Definition getEnv (penv : ProcessEnv) (name : string) : string :=
  MonitorLock.trim (match penv name with Some v => v | None => "" end).

(** The entries of [missing]; the function throws when there is one. *)
Definition validateRequiredEnv (penv : ProcessEnv) : list string :=
  (if truthy (getEnv penv "KALSHI_API_KEY") then [] else ["KALSHI_API_KEY"])
  ++ (if negb (truthy (getEnv penv "KALSHI_PRIVATE_KEY_PATH"))
         && negb (truthy (getEnv penv "KALSHI_PRIVATE_KEY_PEM"))
      then ["KALSHI_PRIVATE_KEY_PATH or KALSHI_PRIVATE_KEY_PEM"] else [])
  ++ (if truthy (getEnv penv "POLYMARKET_PRIVATE_KEY")
         && negb (truthy (getEnv penv "POLYMARKET_PROXY"))
      then ["POLYMARKET_PROXY (required when POLYMARKET_PRIVATE_KEY is set)"] else []).

(** [validateRequiredEnvOrExit]: [None] when it returns, the line it
    prints before [process.exit(1)] otherwise. *)
Definition validateRequiredEnvOrExit (penv : ProcessEnv) : option (list Event) :=
  match validateRequiredEnv penv with
  | [] => None
  | missing => Some [EvLog (LConfigMissing missing)]
  end.

End ValidateEnv.

(* ===================================================================== *)
(** ** The two entry points and their balance gate *)
(* ===================================================================== *)

(** How an [async] function that may end the process settles. *)
Inductive Ending : Type :=
| Resolves
| Exits (code : Z)
| Rejects (reason : string).

(** How far [main] gets: it goes on to start the price monitor, the
    process exits, or the process is terminated by a signal. *)
Inductive MainOutcome : Type :=
| StartsMonitor
| ProcessExit (code : Z)
| ProcessKilled.

(** The answers of the outside world to [main]. *)
Record MainEnv : Type := {
  processEnv : ValidateEnv.ProcessEnv;
  lockEnv : MonitorLock.LockEnv;
  (** [getKalshiBalanceCents()]: [res.data.balance ?? 0], or a rejection
      when the client cannot be built or the request fails *)
  kalshiBalance : Settled num;
  (** outcome of the collateral balance query, [None] when it throws *)
  polyBalance : option num
}.

(** [src/monitor/run-kalshi-1-poly.ts], the follow-confidence entry point *)
Module RunKalshi1Poly.

(** The [process.exit(1)] of this copy is commented out. *)
Definition checkBalancesOrExit (cfg : Config) (env : MainEnv) : Ending * list Event :=
  let minCents := round (MIN_BALANCE_USD cfg * ofZ 100)%num in
  match kalshiBalance env with
  | Rejected reason => (Rejects reason, [])
  | Fulfilled kalshiCents =>
      let polyUsd := getPolymarketBalanceUsd cfg (polyBalance env) in
      let kalshiOk := (kalshiCents >=? minCents)%num in
      let polyOk :=
        match polyUsd with
        | None => true
        | Some usd => (usd >=? MIN_BALANCE_USD cfg)%num
        end in
      if negb kalshiOk || negb polyOk
      then (Resolves, [EvLog (LBalanceBelowMinimum kalshiCents polyUsd)])
      else (Resolves, [])
  end.

(** [main], up to the start of the price monitor, with the handler of
    [main().catch]. *)
Definition main (cfg : Config) (env : MainEnv) (w : MonitorLock.World)
  : MainOutcome * MonitorLock.World * list Event :=
  match ValidateEnv.validateRequiredEnvOrExit (processEnv env) with
  | Some evs => (ProcessExit 1, w, evs)
  | None =>
      let '(locked, w1, lEvs) := MonitorLock.acquireMonitorLock (lockEnv env) w in
      match locked with
      | MonitorLock.Exited code => (ProcessExit code, w1, lEvs)
      | MonitorLock.Killed => (ProcessKilled, w1, lEvs)
      | MonitorLock.Threw =>
          (ProcessExit 1, w1, lEvs ++ [EvLog (LMainFailed "lock file")])
      | MonitorLock.Returned =>
          let '(gate, gEvs) := checkBalancesOrExit cfg env in
          match gate with
          | Resolves => (StartsMonitor, w1, lEvs ++ gEvs)
          | Exits code => (ProcessExit code, w1, lEvs ++ gEvs)
          | Rejects reason =>
              (ProcessExit 1, w1, lEvs ++ gEvs ++ [EvLog (LMainFailed reason)])
          end
      end
  end.

End RunKalshi1Poly.

(** [src/monitor/run.ts], the arbitrage entry point *)
Module RunMonitor.

Definition checkBalancesOrExit (cfg : Config) (env : MainEnv) : Ending * list Event :=
  let minCents := round (MIN_BALANCE_USD cfg * ofZ 100)%num in
  match kalshiBalance env with
  | Rejected reason => (Rejects reason, [])
  | Fulfilled kalshiCents =>
      let polyUsd := getPolymarketBalanceUsd cfg (polyBalance env) in
      let kalshiOk := (kalshiCents >=? minCents)%num in
      let polyOk :=
        match polyUsd with
        | None => true
        | Some usd => (usd >=? MIN_BALANCE_USD cfg)%num
        end in
      if negb kalshiOk || negb polyOk
      then (Exits 1, [EvLog (LBalanceBelowMinimum kalshiCents polyUsd)])
      else (Resolves, [])
  end.

Definition main (cfg : Config) (env : MainEnv) (w : MonitorLock.World)
  : MainOutcome * MonitorLock.World * list Event :=
  match ValidateEnv.validateRequiredEnvOrExit (processEnv env) with
  | Some evs => (ProcessExit 1, w, evs)
  | None =>
      let '(locked, w1, lEvs) := MonitorLock.acquireMonitorLock (lockEnv env) w in
      match locked with
      | MonitorLock.Exited code => (ProcessExit code, w1, lEvs)
      | MonitorLock.Killed => (ProcessKilled, w1, lEvs)
      | MonitorLock.Threw =>
          (ProcessExit 1, w1, lEvs ++ [EvLog (LMainFailed "lock file")])
      | MonitorLock.Returned =>
          let '(gate, gEvs) := checkBalancesOrExit cfg env in
          match gate with
          | Resolves => (StartsMonitor, w1, lEvs ++ gEvs)
          | Exits code => (ProcessExit code, w1, lEvs ++ gEvs)
          | Rejects reason =>
              (ProcessExit 1, w1, lEvs ++ gEvs ++ [EvLog (LMainFailed reason)])
          end
      end
  end.

End RunMonitor.

(* ===================================================================== *)
(** * Vocabulary of the statements *)
(* ===================================================================== *)

#[global] Instance Side_eq_dec : EqDecision Side.
Proof. solve_decision. Defined.

#[global] Instance KalshiSide_eq_dec : EqDecision KalshiSide.
Proof. solve_decision. Defined.

(** What a trace holds, read off event by event. *)
Module Trace.

(** The waits, in order. *)
Fixpoint delaysOf (evs : list Event) : list Z :=
  match evs with
  | [] => []
  | EvDelay ms :: rest => ms :: delaysOf rest
  | _ :: rest => delaysOf rest
  end.

(** The prices announced for a second attempt, in order. *)
Fixpoint retryPricesOf (evs : list Event) : list num :=
  match evs with
  | [] => []
  | EvLog (LArbRetry price _) :: rest => price :: retryPricesOf rest
  | EvLog (LStratFokRetry price _) :: rest => price :: retryPricesOf rest
  | _ :: rest => retryPricesOf rest
  end.

(** The buy requests that reached Polymarket: token, limit price, size. *)
Fixpoint polyBuysOf (evs : list Event) : list (string * num * num) :=
  match evs with
  | [] => []
  | EvPolyBuy tokenId price size _ _ :: rest => (tokenId, price, size) :: polyBuysOf rest
  | _ :: rest => polyBuysOf rest
  end.

(** The sell requests that reached Polymarket: token and amount. *)
Fixpoint polySellsOf (evs : list Event) : list (string * num) :=
  match evs with
  | [] => []
  | EvPolySell tokenId amount _ _ :: rest => (tokenId, amount) :: polySellsOf rest
  | _ :: rest => polySellsOf rest
  end.

(** The buy orders that reached Kalshi: ticker and side. *)
Fixpoint kalshiBuysOf (evs : list Event) : list (string * KalshiSide) :=
  match evs with
  | [] => []
  | EvKalshiOrder t s Buy _ _ :: rest => (t, s) :: kalshiBuysOf rest
  | _ :: rest => kalshiBuysOf rest
  end.

(** The sell orders that reached Kalshi: ticker, side, count, price. *)
Fixpoint kalshiSellsOf (evs : list Event) : list (string * KalshiSide * num * num) :=
  match evs with
  | [] => []
  | EvKalshiOrder t s Sell count price :: rest => (t, s, count, price) :: kalshiSellsOf rest
  | _ :: rest => kalshiSellsOf rest
  end.

(** The legs whose entry a trace announces ([Opportunity (UP leg)] ...). *)
Fixpoint opportunityLegs (evs : list Event) : list Side :=
  match evs with
  | [] => []
  | EvLog (LArbOpportunity l _ _ _ _ _) :: rest => l :: opportunityLegs rest
  | _ :: rest => opportunityLegs rest
  end.

(** The reasons of the rejections. *)
Fixpoint rejectionsOf (evs : list Event) : list string :=
  match evs with
  | [] => []
  | EvRejected reason :: rest => reason :: rejectionsOf rest
  | _ :: rest => rejectionsOf rest
  end.

End Trace.

Module ArbSpec.

(** The combined sum an invocation computes for a leg: Kalshi's ask of
    the leg's side plus Polymarket's ask of the opposite side. *)
Definition legSum (l : Side) (k : MarketPrices) (pm : PolymarketPrices) : num :=
  match l with UP => Arb.sumUpOf k pm | DOWN => Arb.sumDownOf k pm end.

(** The attempt flags of a leg. *)
Definition attemptedSet (l : Side) (st : Arb.ArbState) : gset string :=
  match l with
  | UP => Arb.upArbDoneTickers st
  | DOWN => Arb.downArbDoneTickers st
  end.

Definition kalshiSideOf (l : Side) : KalshiSide :=
  match l with UP => Yes | DOWN => No end.

(** The Polymarket token a leg buys: the one of the opposite side. *)
Definition polyTokenOf (l : Side) (pm : PolymarketPrices) : string :=
  match l with UP => downTokenId pm | DOWN => upTokenId pm end.

(** The band in the words of the specification: a finite sum with
    [low <= sum] and [sum < high]. *)
Definition inBand (cfg : Config) (sum : num) : Prop :=
  isFinite sum = true /\ JsNum.le (ARB_SUM_LOW cfg) sum
  /\ JsNum.lt sum (ARB_SUM_THRESHOLD cfg).

(** A position is recorded for the snapshot's ticker and the sum of its
    leg fell below the band. *)
Definition exitPending (cfg : Config) (p : DualMarketPrices) (st : Arb.ArbState) : Prop :=
  exists k pm pos,
    kalshi p = Some k /\ polymarket p = Some pm
    /\ Arb.openArbPositions st !! kalshiTicker p = Some pos
    /\ isFinite (legSum (Arb.leg pos) k pm) = true
    /\ JsNum.lt (legSum (Arb.leg pos) k pm) (ARB_SUM_LOW cfg).

(** The trace announces an entry of leg [l]. *)
Definition announced (l : Side) (evs : list Event) : Prop :=
  l ∈ Trace.opportunityLegs evs.

(** How many Kalshi buys of a trace open leg [l] on ticker [t]. *)
Definition entryOrders (t : string) (l : Side) (evs : list Event) : nat :=
  length (List.filter (fun b => bool_decide (b = (t, kalshiSideOf l)))
            (Trace.kalshiBuysOf evs)).

(** The buys of a trace are those of one entry of leg [l] on the snapshot
    [p]: at most one Kalshi order, for the leg's side of the ticker, and
    at most two Polymarket orders, for the leg's token. *)
Definition buysOfLeg (p : DualMarketPrices) (l : Side) (evs : list Event) : Prop :=
  (Trace.kalshiBuysOf evs = [] \/ Trace.kalshiBuysOf evs = [(kalshiTicker p, kalshiSideOf l)])
  /\ (length (Trace.polyBuysOf evs) <= 2)%nat
  /\ (forall tok price size, (tok, price, size) ∈ Trace.polyBuysOf evs ->
        exists pm, polymarket p = Some pm /\ tok = polyTokenOf l pm).

(** Every buy of an invocation belongs to the one entry it announces; an
    invocation that announces none sends no buy to either venue. *)
Definition attributed (p : DualMarketPrices) (evs : list Event) : Prop :=
  match Trace.opportunityLegs evs with
  | [] => Trace.kalshiBuysOf evs = [] /\ Trace.polyBuysOf evs = []
  | [l] => buysOfLeg p l evs
  | _ => False
  end.

(** The invocations of a run: snapshot, state before, and trace. *)
Fixpoint invocations (cfg : Config) (ticks : list (DualMarketPrices * Arb.ArbEnv))
    (st : Arb.ArbState) (d : Disk) : list (DualMarketPrices * Arb.ArbState * list Event) :=
  match ticks with
  | [] => []
  | (p, env) :: rest =>
      let '(st1, d1, evs) := Arb.checkArbAndPlaceOrders cfg p env st d in
      (p, st, evs) :: invocations cfg rest st1 d1
  end.

(** The invocations of a run that announce an entry of leg [l] on [t]. *)
Definition attemptsOn (t : string) (l : Side)
    (invs : list (DualMarketPrices * Arb.ArbState * list Event))
  : list (DualMarketPrices * Arb.ArbState * list Event) :=
  List.filter (fun i => bool_decide (kalshiTicker i.1.1 = t)
                        && bool_decide (l ∈ Trace.opportunityLegs i.2)) invs.

Definition isSellEvent (e : Event) : bool :=
  match e with
  | EvKalshiOrder _ _ Sell _ _ => true
  | EvPolySell _ _ _ _ => true
  | _ => false
  end.

Definition noSells (evs : list Event) : bool :=
  forallb (fun e => negb (isSellEvent e)) evs.

(** The record an entry stores when both orders succeed. *)
Definition positionOf (o : Arb.LegOrder) : Arb.OpenArbPosition :=
  {| Arb.leg := Arb.loLeg o;
     Arb.kalshiSide := Arb.loKalshiSide o;
     Arb.kalshiCount := Arb.loKalshiContracts o;
     Arb.polyTokenId := Arb.loPolyTokenId o;
     Arb.polySize := Arb.loPolySize o |}.

(** What the two venues return for the orders of an entry: the Kalshi
    result, and the Polymarket result after the conditional retry. *)
Definition kalshiResultOf (cfg : Config) (ticker : string) (o : Arb.LegOrder)
    (env : Arb.ArbEnv) : KalshiResult :=
  (placeOrder cfg ticker (Arb.loKalshiSide o) (Arb.loKalshiContracts o)
     (Arb.loKalshiPriceCents o) true (Arb.kalshiBuy env)).1.

Definition polySettledOf (cfg : Config) (o : Arb.LegOrder) (env : Arb.ArbEnv) (d : Disk)
  : Settled PlacePolyResult :=
  (Arb.polyWithRetry cfg o env d).1.1.

(** [polyResult && !("error" in polyResult)], false when the retry
    rejected and left no result. *)
Definition polySucceeded (cfg : Config) (o : Arb.LegOrder) (env : Arb.ArbEnv) (d : Disk)
  : bool :=
  match polySettledOf cfg o env d with
  | Fulfilled r => isOk r
  | Rejected _ => false
  end.

Definition bothSucceeded (cfg : Config) (ticker : string) (o : Arb.LegOrder)
    (env : Arb.ArbEnv) (d : Disk) : bool :=
  kIsOk (kalshiResultOf cfg ticker o env) && polySucceeded cfg o env d.

Definition isPolyFailureLog (e : Event) : bool :=
  match e with
  | EvLog (LArbPolyFailed _) => true
  | EvLog (LPolyNotConfigured _ _ _) => true
  | _ => false
  end.

Definition isKalshiFailureLog (e : Event) : bool :=
  match e with
  | EvLog (LArbKalshiFailed _) => true
  | _ => false
  end.

End ArbSpec.

Module RetrySpec.

(** The options the arbitrage check passes with its Polymarket buy. *)
Definition arbOptions (o : Arb.LegOrder) : PlacePolymarketOrderOptions :=
  {| tickSize := None; negRisk := None; forcePlace := false;
     PolyOrder.conditionId := Some (Arb.loConditionId o) |}.

(** The first Polymarket call of an arbitrage entry. *)
Definition arbFirst (cfg : Config) (o : Arb.LegOrder) (env : Arb.ArbEnv) (d : Disk)
  : PlacePolyResult * Disk * list Event :=
  placePolymarketOrder cfg (Arb.loPolyTokenId o) (Arb.loPolyPrice o) (Arb.loPolySize o)
    (arbOptions o) (Arb.polyBuy env) d.

(** A second call at price [price], on the ledger the first call left. *)
Definition arbSecond (cfg : Config) (o : Arb.LegOrder) (env : Arb.ArbEnv) (d : Disk)
    (price : num) : PlacePolyResult * Disk * list Event :=
  placePolymarketOrder cfg (Arb.loPolyTokenId o) price
    (Arb.loPolySize o) (arbOptions o) (Arb.polyRetry env) (arbFirst cfg o env d).1.2.

(** The same two calls in the follow-confidence strategy. *)
Definition stratFirst (cfg : Config) (tokenId : string) (price size : num)
    (options : PlacePolymarketOrderOptions) (env : Strategy.StratEnv) (d : Disk)
  : PlacePolyResult * Disk * list Event :=
  placePolymarketOrder cfg tokenId price size options (Strategy.buyFirst env) d.

Definition stratSecond (cfg : Config) (tokenId : string) (price size : num)
    (options : PlacePolymarketOrderOptions) (env : Strategy.StratEnv) (d : Disk)
    (retryPrice : num) : PlacePolyResult * Disk * list Event :=
  placePolymarketOrder cfg tokenId retryPrice size options (Strategy.buyRetry env)
    (stratFirst cfg tokenId price size options env d).1.2.



(** The limit price a buy request carries for a price passed to
    [placePolymarketOrder]: the buy buffer added, capped at 0.99, rounded
    to the tick. *)
Definition limitPriceFor (cfg : Config) (options : PlacePolymarketOrderOptions)
    (price : num) : num :=
  roundPriceToTickSize
    (JsNum.min (price + POLY_BUY_LIMIT_BUFFER cfg)%num (dec 99 100))
    (match tickSize options with Some t => t | None => POLYMARKET_TICK_SIZE cfg end).


End RetrySpec.

Module StratSpec.

Import Strategy.

Definition isExitLog (e : Event) : bool :=
  match e with
  | EvLog (LStratExit _ _ _ _ _ _ _) => true
  | _ => false
  end.

(** An exit is attempted: the line [Exit: ... selling ...] is written,
    which precedes every call of [sellPolymarketOrder]. *)
Definition exitAttempted (evs : list Event) : bool := existsb isExitLog evs.

Definition isSellSuccessLog (e : Event) : bool :=
  match e with
  | EvLog (LStratSellSuccessful _) => true
  | _ => false
  end.

Definition sellSucceeded (evs : list Event) : bool := existsb isSellSuccessLog evs.

Definition isAbandonLog (e : Event) : bool :=
  match e with
  | EvLog LStratClearingAfterMax => true
  | _ => false
  end.

(** The position is given up after the last failed attempt. *)
Definition abandoned (evs : list Event) : bool := existsb isAbandonLog evs.

(** The two prices the exit rule looks at for a held position. *)
Definition heldPrice (pos : Position) (pm : PolymarketPrices) : num :=
  match side pos with UP => upAsk pm | DOWN => downAsk pm end.

Definition kalshiSameSide (pos : Position) (k : MarketPrices) : num :=
  (match side pos with UP => upAskCents k | DOWN => downAskCents k end / ofZ 100)%num.

(** An evaluation that starts while a position is held on the ticker of
    the snapshot. *)
Definition holdingTick (p : DualMarketPrices) (st : StratState)
    (k : MarketPrices) (pm : PolymarketPrices) (pos : Position) : Prop :=
  kalshi p = Some k /\ polymarket p = Some pm
  /\ strategyBusy st = false
  /\ lastTicker st = Some (kalshiTicker p)
  /\ position st = Some pos.


(** The exit rule fires on this snapshot. *)
Definition exitDue (cfg : Config) (k : MarketPrices) (pm : PolymarketPrices)
    (pos : Position) : Prop :=
  JsNum.lt (heldPrice pos pm) (effectiveSellThreshold cfg (kalshiSameSide pos k)).

Definition sellOptions (pos : Position) : PlacePolymarketOrderOptions :=
  {| tickSize := None; negRisk := None; forcePlace := true;
     PolyOrder.conditionId := Some (conditionId pos) |}.

(** What [sellPolymarketOrder] returns in attempt [n] of an exit. *)
Definition sellResultAt (cfg : Config) (pos : Position) (env : StratEnv) (n : nat)
  : PlacePolyResult :=
  (sellPolymarketOrder cfg (tokenId pos)
     (sellSizeOf (getProxyTokenBalanceHuman cfg (sellTry env n).1) (size pos))
     (sellOptions pos) (sellTry env n).2).1.


(** The size an entry of this evaluation buys. *)
Definition entrySize (cfg : Config) (env : StratEnv) (st : StratState) : num :=
  (buySize cfg (nowMs env) (ensureProxyBalanceScheduledOrFetched cfg env (cache st)).1).1.

(** The ledger has an entry for the settlement id. *)
Definition ledgerHas (d : Disk) (conditionId : string) : bool :=
  match loadHoldings d !! conditionId with Some _ => true | None => false end.

End StratSpec.

(** Concrete inputs used to instantiate the statements. *)
Module Scenario.

Import Strategy.

Definition ticker1 : string := "KXBTC15M-26NOV0315-15".

(** polySellBelow = 0.77, buffer = 0.15, everything else at its default. *)
Definition cfg77 : Config := {|
  BOT_DRY_RUN := false;
  ARB_SUM_THRESHOLD := dec 92 100;
  ARB_SUM_LOW := dec 75 100;
  ARB_PRICE_BUFFER := dec 2 100;
  ARB_SIZE := ofZ 5;
  ARB_KALSHI_MIN := ofZ 5;
  ARB_POLY_MIN := ofZ 5;
  POLYMARKET_MIN_USD := ofZ 1;
  ARB_DRY_RUN := false;
  POLY_BUY_MIN := dec 8 10;
  POLY_SELL_BELOW := dec 77 100;
  POLY_SELL_RANGE_BUFFER := dec 15 100;
  KALSHI_1_POLY_DRY_RUN := false;
  KALSHI_1_POLY_SIZE := ofZ 5;
  POLY_BUY_LIMIT_BUFFER := dec 1 100;
  POLYMARKET_PRIVATE_KEY := "key";
  POLYMARKET_PROXY := "0xproxy";
  POLYMARKET_TICK_SIZE := "0.01";
  POLYMARKET_NEG_RISK := false;
  MIN_BALANCE_USD := ofZ 5
|}.


Definition kalshiPrices (upCents downCents : num) : MarketPrices :=
  {| ticker := ticker1; upAskCents := upCents; downAskCents := downCents;
     lastPriceCents := upCents |}.

Definition polyPrices (up down : num) : PolymarketPrices :=
  {| slug := "btc-updown-15m"; upAsk := up; downAsk := down;
     upTokenId := "tok-up"; downTokenId := "tok-down";
     DualMonitor.conditionId := "0xc0nd" |}.

Definition snapshot (k : MarketPrices) (pm : PolymarketPrices) : DualMarketPrices :=
  {| kalshiTicker := ticker1; kalshi := Some k; polymarket := Some pm; fetchedAt := 0 |}.

(** Kalshi UP at 1.00. *)
Definition kalshiUpAtOne : MarketPrices := kalshiPrices (ofZ 100) (ofZ 1).

(** Polymarket UP fallen to 0.60. *)
Definition polyFallen : PolymarketPrices := polyPrices (dec 60 100) (dec 41 100).

(** Polymarket UP at 0.82. *)
Definition polyFollowing : PolymarketPrices := polyPrices (dec 82 100) (dec 19 100).



Definition exitSnapshot : DualMarketPrices := snapshot kalshiUpAtOne polyFallen.

Definition entrySnapshot : DualMarketPrices := snapshot kalshiUpAtOne polyFollowing.

Definition heldPosition : Position :=
  {| side := UP; tokenId := "tok-up"; size := ofZ 5; conditionId := "0xc0nd" |}.

(** Two minutes into a quarter hour, nothing cached yet. *)
Definition now : Z := 1793689320000.

Definition holdingState : StratState := {|
  position := Some heldPosition;
  lastTicker := Some ticker1;
  entryAttemptedTicker := Some ticker1;
  cycleDoneTicker := None;
  seenKalshiUp1 := true;
  seenKalshiDown1 := false;
  strategyBusy := false;
  seenTickers := {[ticker1]};
  skippedTickers := ∅;
  cache := {| lastQuarterStartMs := getCurrentQuarterStartMs now;
              cachedProxyBalanceUsd := None;
              cachedProxyBalanceUsdAt := 0;
              balanceFetchScheduled := true;
              balanceFetchTimeoutId := Some (ofZ 180000) |}
|}.

(** The state after earlier ticks that saw Kalshi UP below 1.00. *)
Definition watchingState : StratState := {|
  position := None;
  lastTicker := Some ticker1;
  entryAttemptedTicker := None;
  cycleDoneTicker := None;
  seenKalshiUp1 := false;
  seenKalshiDown1 := false;
  strategyBusy := false;
  seenTickers := {[ticker1]};
  skippedTickers := ∅;
  cache := cache holdingState
|}.

(** The ledger after the entry of five shares was booked twice. *)
Definition ledgerAfterBuy : Disk := {|
  holdingsFile := Some {[ "0xc0nd" := {[ "tok-up" := Some (Q2Qc (inject_Z 10)) ]} ]};
  writable := true
|}.

Definition emptyLedger : Disk := {| holdingsFile := None; writable := true |}.

Definition accepted : ClobOutcome := Responded (Some "0xorder") None.
Definition refused : ClobOutcome := Responded None (Some "not enough balance / allowance").


(** The venue refuses twice and accepts the third sell; buys are accepted. *)
Definition envThirdAccepted : StratEnv := {|
  nowMs := now;
  usdBalance := Some (ofZ 40);
  balanceFetchedAt := now;
  sellTry := fun n => (ofZ 5, if (n <? 3)%nat then refused else accepted);
  buyFirst := accepted;
  bestAskNow := Fulfilled (Some (dec 83 100));
  buyRetry := accepted;
  balanceAfterBuy := ofZ 5
|}.

End Scenario.

(** Concrete inputs of the arbitrage check. *)
Module ArbScenario.

Definition cfg : Config := defaultConfig "key" "0xproxy".

(** Kalshi UP 0.62 + Polymarket DOWN 0.30: in binary64 the sum is
    0.9199999999999999, just below the upper bound 0.92.
    Kalshi DOWN 0.40 + Polymarket UP 0.71 is outside the band. *)
Definition edgeK : MarketPrices := Scenario.kalshiPrices (ofZ 62) (ofZ 40).
Definition edgePm : PolymarketPrices := Scenario.polyPrices (dec 71 100) (dec 30 100).
Definition edge : DualMarketPrices := Scenario.snapshot edgeK edgePm.

(** Both sums inside the band: 0.40 + 0.45 and 0.45 + 0.40. *)
Definition bothK : MarketPrices := Scenario.kalshiPrices (ofZ 40) (ofZ 45).
Definition bothPm : PolymarketPrices := Scenario.polyPrices (dec 40 100) (dec 45 100).
Definition bothInBand : DualMarketPrices := Scenario.snapshot bothK bothPm.

(** The venue's answer to a buy that found no counterparty. *)
Definition unfilled : ClobOutcome :=
  Responded None (Some "order couldn't be fully filled or killed").

(** Every order is accepted. *)
Definition calm : Arb.ArbEnv := {|
  Arb.kalshiBuy := KResponded (Some "k-buy");
  Arb.polyBuy := Scenario.accepted;
  Arb.bestAsk := Fulfilled (Some (dec 46 100));
  Arb.polyRetry := Scenario.accepted;
  Arb.kalshiSell := KResponded (Some "k-sell");
  Arb.polySell := Scenario.accepted
|}.

(** The first Polymarket buy is not filled; the book shows an ask of 0.46
    and the second buy is accepted. *)
Definition refilled : Arb.ArbEnv := {|
  Arb.kalshiBuy := KResponded (Some "k-buy");
  Arb.polyBuy := unfilled;
  Arb.bestAsk := Fulfilled (Some (dec 46 100));
  Arb.polyRetry := Scenario.accepted;
  Arb.kalshiSell := KResponded (Some "k-sell");
  Arb.polySell := Scenario.accepted
|}.


(** The first Polymarket buy is not filled and the book shows no ask. *)
Definition bookEmpty : Arb.ArbEnv := {|
  Arb.kalshiBuy := KResponded (Some "k-buy");
  Arb.polyBuy := unfilled;
  Arb.bestAsk := Fulfilled None;
  Arb.polyRetry := Scenario.accepted;
  Arb.kalshiSell := KResponded (Some "k-sell");
  Arb.polySell := Scenario.accepted
|}.

(** The order of the UP leg on [bothInBand]. *)
Definition upOrder : Arb.LegOrder :=
  Arb.legOrder cfg UP (ArbSpec.legSum UP bothK bothPm)
    (upAskCents bothK / ofZ 100)%num (downAsk bothPm) (downTokenId bothPm)
    (DualMonitor.conditionId bothPm).

End ArbScenario.

Module LockSpec.

Import MonitorLock.

(** The pids a trace sent [SIGTERM] to, in order. *)
Fixpoint signalsOf (evs : list Event) : list Z :=
  match evs with
  | [] => []
  | EvSigterm p :: rest => p :: signalsOf rest
  | _ :: rest => signalsOf rest
  end.

(** The process the lock file names, when its content parses. *)
Definition holder (w : World) : option Z :=
  match lockFile w with
  | Some content => parseIntFinite (trim content)
  | None => None
  end.


(** The lock file names the caller's own process group, and the signal
    sent to it is delivered and takes effect. *)
Definition signalsOwnGroup (env : LockEnv) (w : World) : bool :=
  match holder w with
  | Some e =>
      negb (bool_decide (e = pid env)) && ownGroup env e
      && negb (sigtermFails env) && negb (targetSurvives env)
  | None => false
  end.

(** The signals of the take-over step: one, to the process the file
    names, when that is not the caller, answers the probe and the signal
    can be sent. *)
Definition takeoverSignals (env : LockEnv) (w : World) : list Z :=
  match holder w with
  | Some e =>
      if bool_decide (e = pid env) then []
      else if isPidRunning env w e && negb (sigtermFails env) then [e] else []
  | None => []
  end.

Definition isRefusalLog (e : Event) : bool :=
  match e with
  | EvLog (LAnotherMonitorRunning _) => true
  | _ => false
  end.

(** A lock held by process 4242, which is running; we are process 100. *)
Definition heldWorld : World :=
  {| lockFile := Some "4242"; running := fun p => bool_decide (p = 4242) |}.

(** No lock file; process 4343 is starting as well. *)
Definition freeWorld : World :=
  {| lockFile := None; running := fun p => bool_decide (p = 4343) |}.

(** A lock file that holds the number 0. *)
Definition zeroWorld : World :=
  {| lockFile := Some "0"; running := fun _ => false |}.

(** Every call works; the signalled process is gone when probed. *)
Definition calmEnv : LockEnv :=
  {| pid := 100; pgid := 100; firstReadFails := false; secondReadFails := false;
     unlinkFails := false; sigtermFails := false; targetSurvives := false;
     createFails := false; rewriteFails := false; createdMeanwhile := None |}.

(** The lock file cannot be removed and the holder outlives the signal. *)
Definition stuckEnv : LockEnv :=
  {| pid := 100; pgid := 100; firstReadFails := false; secondReadFails := false;
     unlinkFails := true; sigtermFails := false; targetSurvives := true;
     createFails := false; rewriteFails := false; createdMeanwhile := None |}.


End LockSpec.

Module GateSpec.

Definition isBalanceLog (e : Event) : bool :=
  match e with
  | EvLog (LBalanceBelowMinimum _ _) => true
  | _ => false
  end.

(** The line [[Balance] Below minimum ...] is in the trace. *)
Definition shortfallLogged (evs : list Event) : bool := existsb isBalanceLog evs.

(** A balance is short in the words of the specification: the Kalshi
    balance, in cents, is not at least the minimum in cents, or Polymarket
    is configured, its balance could be read and is not at least the
    minimum. *)
Definition shortfall (cfg : Config) (kalshiCents : num) (polyUsd : option num) : Prop :=
  ~ JsNum.le (round (MIN_BALANCE_USD cfg * ofZ 100)%num) kalshiCents
  \/ (configured cfg = true
      /\ exists usd, polyUsd = Some usd /\ ~ JsNum.le (MIN_BALANCE_USD cfg) usd).

(** [main] reaches the balance gate: the environment is complete and the
    lock is acquired. *)
Definition reachesGate (env : MainEnv) (w : MonitorLock.World) : Prop :=
  ValidateEnv.validateRequiredEnv (processEnv env) = []
  /\ (MonitorLock.acquireMonitorLock (lockEnv env) w).1.1 = MonitorLock.Returned.

(** A complete environment. *)
Definition completeEnv : ValidateEnv.ProcessEnv :=
  fun name =>
    if bool_decide (name = "KALSHI_API_KEY") then Some "key-id"
    else if bool_decide (name = "KALSHI_PRIVATE_KEY_PATH") then Some " ./kalshi.pem "
    else None.

(** Kalshi holds 1.00 USD, Polymarket 40 USD; the minimum is 5 USD. *)
Definition kalshiShort : MainEnv :=
  {| processEnv := completeEnv; lockEnv := LockSpec.calmEnv;
     kalshiBalance := Fulfilled (ofZ 100); polyBalance := Some (ofZ 40) |}.

(** Both balances above the minimum. *)
Definition funded : MainEnv :=
  {| processEnv := completeEnv; lockEnv := LockSpec.calmEnv;
     kalshiBalance := Fulfilled (ofZ 2500); polyBalance := Some (ofZ 40) |}.

(** The Kalshi balance cannot be read. *)
Definition kalshiUnreachable : MainEnv :=
  {| processEnv := completeEnv; lockEnv := LockSpec.calmEnv;
     kalshiBalance := Rejected "connect ECONNREFUSED"; polyBalance := Some (ofZ 40) |}.

End GateSpec.

(* ===================================================================== *)
(** * Properties *)
(* ===================================================================== *)

(** ** Numbers *)

Section NumFacts.

Lemma ltb_lt (x y : num) : JsNum.ltb x y = true <-> JsNum.lt x y.
Proof.
  destruct x, y; simpl; rewrite ?bool_decide_eq_true; intuition congruence.
Qed.

Lemma leb_le (x y : num) : JsNum.leb x y = true <-> JsNum.le x y.
Proof.
  destruct x, y; simpl; rewrite ?bool_decide_eq_true; intuition congruence.
Qed.

Lemma geb_le (x y : num) : JsNum.geb x y = true <-> JsNum.le y x.
Proof. unfold JsNum.geb. apply leb_le. Qed.

Lemma isFinite_Fin (x : num) : isFinite x = true <-> exists q, x = Fin q.
Proof.
  destruct x; simpl; split; try congruence; eauto; intros [q Hq]; congruence.
Qed.

Lemma lt_irrefl (x : num) : ~ JsNum.lt x x.
Proof.
  destruct x; simpl; auto. intros H. exact (Qcle_not_lt _ _ (Qcle_refl q) H).
Qed.

Lemma le_refl_fin (x : num) : isFinite x = true -> JsNum.le x x.
Proof. destruct x; simpl; try congruence. intros _. apply Qcle_refl. Qed.

Lemma ltb_irrefl (x : num) : JsNum.ltb x x = false.
Proof.
  destruct (JsNum.ltb x x) eqn:E; [|reflexivity].
  apply ltb_lt in E. destruct (lt_irrefl _ E).
Qed.

End NumFacts.

(** ** Rounding to binary64 *)

Section FlFacts.

#[local] Open Scope Q_scope.

Lemma pow2_pos (e : Z) : 0 < pow2 e.
Proof. unfold pow2. apply Qpower_0_lt. reflexivity. Qed.

Lemma pow2_add (a b : Z) : pow2 (a + b) == pow2 a * pow2 b.
Proof. unfold pow2. apply Qpower_plus. discriminate. Qed.

Lemma pow2_Z (n : Z) : (0 <= n)%Z -> pow2 n == inject_Z (2 ^ n).
Proof. intros H. unfold pow2. rewrite Zpower_Qpower by exact H. reflexivity. Qed.

Lemma pow2_le (a b : Z) : (a <= b)%Z -> pow2 a <= pow2 b.
Proof.
  intros H. replace b with (a + (b - a))%Z by lia.
  rewrite pow2_add. rewrite <- (Qmult_1_r (pow2 a)) at 1.
  apply Qmult_le_l; [apply pow2_pos|].
  rewrite pow2_Z by lia. change 1 with (inject_Z 1). rewrite <- Zle_Qle.
  pose proof (Z.pow_pos_nonneg 2 (b - a)). lia.
Qed.

Lemma Q_as_quot (q : Q) : q * inject_Z (Zpos (Qden q)) == inject_Z (Qnum q).
Proof. destruct q as [n d]. unfold Qeq, Qmult, inject_Z. simpl. lia. Qed.

Lemma ilog2_spec (q : Q) : 0 < q -> pow2 (ilog2 q) <= q /\ q < pow2 (ilog2 q + 1).
Proof.
  intros Hq.
  assert (Hn : (0 < Qnum q)%Z).
  { destruct q as [n d]. unfold Qlt in Hq. simpl in *. lia. }
  unfold ilog2. rewrite (Z.abs_eq (Qnum q)) by lia.
  assert (Hqq : Qnum q # Qden q == q) by (by destruct q).
  set (a := Z.log2 (Qnum q)). set (b := Z.log2 (Zpos (Qden q))).
  pose proof (Z.log2_spec (Qnum q) Hn) as [Ha1 Ha2]. fold a in Ha1, Ha2.
  pose proof (Z.log2_spec (Zpos (Qden q)) ltac:(lia)) as [Hb1 Hb2]. fold b in Hb1, Hb2.
  pose proof (Z.log2_nonneg (Qnum q)) as Ha0. fold a in Ha0.
  pose proof (Z.log2_nonneg (Zpos (Qden q))) as Hb0. fold b in Hb0.
  set (D := inject_Z (Zpos (Qden q))).
  assert (HD : 0 < D) by (unfold D; change 0 with (inject_Z 0); rewrite <- Zlt_Qlt; lia).
  pose proof (Q_as_quot q) as HqD. fold D in HqD.
  assert (Hlow : pow2 (a - b - 1) <= q).
  { apply (Qmult_le_r _ _ D HD). rewrite HqD.
    apply Qle_trans with (pow2 (a - b - 1) * pow2 (b + 1)).
    - apply Qmult_le_l; [apply pow2_pos|]. unfold D. rewrite pow2_Z by lia.
      rewrite <- Zle_Qle. rewrite <- Z.add_1_r in Hb2. lia.
    - rewrite <- pow2_add. replace (a - b - 1 + (b + 1))%Z with a by lia.
      rewrite pow2_Z by lia. rewrite <- Zle_Qle. lia. }
  assert (Hhigh : q < pow2 (a - b + 1)).
  { apply (Qmult_lt_r _ _ D HD). rewrite HqD.
    apply Qlt_le_trans with (pow2 (a - b + 1) * pow2 b).
    - rewrite <- pow2_add. replace (a - b + 1 + b)%Z with (a + 1)%Z by lia.
      rewrite pow2_Z by lia. rewrite <- Zlt_Qlt. rewrite <- Z.add_1_r in Ha2. lia.
    - apply Qmult_le_l; [apply pow2_pos|]. unfold D. rewrite pow2_Z by lia.
      rewrite <- Zle_Qle. lia. }
  destruct (Qle_bool (pow2 (a - b)) (Qnum q # Qden q)) eqn:E.
  - apply Qle_bool_iff in E. rewrite Hqq in E. split; [exact E | exact Hhigh].
  - split; [exact Hlow|]. replace (a - b - 1 + 1)%Z with (a - b)%Z by lia.
    apply Qnot_le_lt. intros H. rewrite <- Hqq in H. apply Qle_bool_iff in H. congruence.
Qed.

Lemma ilog2_unique (q : Q) (e : Z) : pow2 e <= q -> q < pow2 (e + 1) -> 0 < q -> ilog2 q = e.
Proof.
  intros H1 H2 Hq. destruct (ilog2_spec q Hq) as [S1 S2].
  destruct (Z.lt_trichotomy (ilog2 q) e) as [Hlt | [Heq | Hgt]]; [|exact Heq|].
  - exfalso. assert (pow2 (ilog2 q + 1) <= pow2 e) by (apply pow2_le; lia).
    apply (Qlt_irrefl q). eapply Qlt_le_trans; [exact S2|]. eapply Qle_trans; eassumption.
  - exfalso. assert (pow2 (e + 1) <= pow2 (ilog2 q)) by (apply pow2_le; lia).
    apply (Qlt_irrefl q). eapply Qlt_le_trans; [exact H2|]. eapply Qle_trans; eassumption.
Qed.

Lemma ilog2_mono (x y : Q) : 0 < x -> x <= y -> (ilog2 x <= ilog2 y)%Z.
Proof.
  intros Hx Hxy. assert (Hy : 0 < y) by (eapply Qlt_le_trans; eassumption).
  destruct (ilog2_spec x Hx) as [X1 X2]. destruct (ilog2_spec y Hy) as [Y1 Y2].
  destruct (Z_le_gt_dec (ilog2 x) (ilog2 y)) as [H|H]; [exact H|exfalso].
  assert (pow2 (ilog2 y + 1) <= pow2 (ilog2 x)) by (apply pow2_le; lia).
  apply (Qlt_irrefl y). eapply Qlt_le_trans; [exact Y2|].
  eapply Qle_trans; [eassumption|]. eapply Qle_trans; eassumption.
Qed.

Lemma roundHalfEven_bounds (q : Q) :
  (Qfloor q <= roundHalfEven q <= Qfloor q + 1)%Z.
Proof.
  unfold roundHalfEven.
  destruct (q - inject_Z (Qfloor q) ?= 1 # 2); [destruct (Z.even _)| |]; lia.
Qed.

Lemma roundHalfEven_mono (x y : Q) : x <= y -> (roundHalfEven x <= roundHalfEven y)%Z.
Proof.
  intros Hxy. pose proof (Qfloor_resp_le _ _ Hxy) as Hf.
  pose proof (roundHalfEven_bounds x) as Bx. pose proof (roundHalfEven_bounds y) as By.
  destruct (Z.eq_dec (Qfloor x) (Qfloor y)) as [E|N]; [|lia].
  unfold roundHalfEven in *. rewrite <- E in *.
  assert (Hr : x - inject_Z (Qfloor x) <= y - inject_Z (Qfloor x)).
  { apply Qplus_le_l with (z := inject_Z (Qfloor x)). ring_simplify. exact Hxy. }
  destruct (x - inject_Z (Qfloor x) ?= 1 # 2) eqn:Cx;
    destruct (y - inject_Z (Qfloor x) ?= 1 # 2) eqn:Cy;
    try (destruct (Z.even (Qfloor x)); lia); try lia; exfalso.
  - apply Qeq_alt in Cx. apply Qlt_alt in Cy. rewrite Cx in Hr.
    apply (Qlt_irrefl (1 # 2)). eapply Qle_lt_trans; eassumption.
  - apply Qgt_alt in Cx. apply Qeq_alt in Cy. rewrite Cy in Hr.
    apply (Qlt_irrefl (1 # 2)). eapply Qlt_le_trans; eassumption.
  - apply Qgt_alt in Cx. apply Qlt_alt in Cy.
    apply (Qlt_irrefl (1 # 2)). eapply Qlt_le_trans; [exact Cx|].
    eapply Qle_trans; [exact Hr|]. apply Qlt_le_weak. exact Cy.
Qed.

Lemma roundHalfEven_Z (z : Z) : roundHalfEven (inject_Z z) = z.
Proof.
  unfold roundHalfEven. rewrite Qfloor_Z.
  assert (E : (inject_Z z - inject_Z z ?= 1 # 2) = Lt).
  { apply Qlt_alt. assert (H : inject_Z z - inject_Z z == 0) by ring. rewrite H. reflexivity. }
  by rewrite E.
Qed.

Lemma fl_val (x : Qc) :
  0 < x ->
  fl x == inject_Z (roundHalfEven (x / pow2 (ilog2 x - 52))) * pow2 (ilog2 x - 52).
Proof.
  intros Hx. unfold fl.
  destruct (Qeq_bool x 0) eqn:E.
  - apply Qeq_bool_iff in E. rewrite E in Hx. discriminate.
  - cbn [this Q2Qc]. apply Qred_correct.
Qed.

Lemma fl_lower (x : Qc) : 0 < x -> pow2 (ilog2 x) <= fl x.
Proof.
  intros Hx. rewrite (fl_val x Hx).
  destruct (ilog2_spec x Hx) as [L _].
  set (e := ilog2 x) in *. set (u := pow2 (e - 52)).
  assert (Hu : 0 < u) by apply pow2_pos.
  assert (He : pow2 e == inject_Z (2 ^ 52) * u).
  { unfold u. rewrite <- pow2_Z by lia. rewrite <- pow2_add. by replace (52 + (e - 52))%Z with e by lia. }
  rewrite He. apply Qmult_le_compat_r; [|by apply Qlt_le_weak].
  rewrite <- Zle_Qle. rewrite <- (roundHalfEven_Z (2 ^ 52)). apply roundHalfEven_mono.
  apply Qle_shift_div_l; [exact Hu|]. by rewrite <- He.
Qed.

Lemma fl_upper (x : Qc) : 0 < x -> fl x <= pow2 (ilog2 x + 1).
Proof.
  intros Hx. rewrite (fl_val x Hx).
  destruct (ilog2_spec x Hx) as [_ U].
  set (e := ilog2 x) in *. set (u := pow2 (e - 52)).
  assert (Hu : 0 < u) by apply pow2_pos.
  assert (He : pow2 (e + 1) == inject_Z (2 ^ 53) * u).
  { unfold u. rewrite <- pow2_Z by lia. rewrite <- pow2_add.
    by replace (53 + (e - 52))%Z with (e + 1)%Z by lia. }
  rewrite He. apply Qmult_le_compat_r; [|by apply Qlt_le_weak].
  rewrite <- Zle_Qle. rewrite <- (roundHalfEven_Z (2 ^ 53)). apply roundHalfEven_mono.
  apply Qle_shift_div_r; [exact Hu|]. rewrite <- He. by apply Qlt_le_weak.
Qed.

(** Rounding keeps the order of positive numbers. *)
Lemma fl_mono_pos (x y : Qc) : 0 < x -> x <= y -> fl x <= fl y.
Proof.
  intros Hx Hxy. assert (Hy : 0 < y) by (eapply Qlt_le_trans; eassumption).
  pose proof (ilog2_mono x y Hx Hxy) as He.
  destruct (Z.eq_dec (ilog2 x) (ilog2 y)) as [E|N].
  - rewrite (fl_val x Hx), (fl_val y Hy), E.
    apply Qmult_le_compat_r; [|apply Qlt_le_weak, pow2_pos].
    rewrite <- Zle_Qle. apply roundHalfEven_mono.
    apply Qmult_le_compat_r; [exact Hxy|].
    apply Qlt_le_weak, Qinv_lt_0_compat, pow2_pos.
  - eapply Qle_trans; [apply (fl_upper x Hx)|].
    eapply Qle_trans; [|apply (fl_lower y Hy)].
    apply pow2_le. lia.
Qed.

End FlFacts.

(** ** Traces *)

Section TraceFacts.

Lemma delaysOf_app (a b : list Event) :
  Trace.delaysOf (a ++ b) = Trace.delaysOf a ++ Trace.delaysOf b.
Proof.
  induction a as [|e a IH]; [reflexivity|]. destruct e; simpl; by rewrite ?IH.
Qed.

Lemma retryPricesOf_app (a b : list Event) :
  Trace.retryPricesOf (a ++ b) = Trace.retryPricesOf a ++ Trace.retryPricesOf b.
Proof.
  induction a as [|e a IH]; [reflexivity|].
  destruct e as [m| | | | | | | | | |]; simpl; rewrite ?IH; try reflexivity.
  destruct m; simpl; by rewrite ?IH.
Qed.

Lemma polyBuysOf_app (a b : list Event) :
  Trace.polyBuysOf (a ++ b) = Trace.polyBuysOf a ++ Trace.polyBuysOf b.
Proof.
  induction a as [|e a IH]; [reflexivity|]. destruct e; simpl; by rewrite ?IH.
Qed.

Lemma polySellsOf_app (a b : list Event) :
  Trace.polySellsOf (a ++ b) = Trace.polySellsOf a ++ Trace.polySellsOf b.
Proof.
  induction a as [|e a IH]; [reflexivity|]. destruct e; simpl; by rewrite ?IH.
Qed.

Lemma kalshiBuysOf_app (a b : list Event) :
  Trace.kalshiBuysOf (a ++ b) = Trace.kalshiBuysOf a ++ Trace.kalshiBuysOf b.
Proof.
  induction a as [|e a IH]; [reflexivity|].
  destruct e as [| ? ? [] ? ?| | | | | | | | |]; simpl; by rewrite ?IH.
Qed.

Lemma kalshiSellsOf_app (a b : list Event) :
  Trace.kalshiSellsOf (a ++ b) = Trace.kalshiSellsOf a ++ Trace.kalshiSellsOf b.
Proof.
  induction a as [|e a IH]; [reflexivity|].
  destruct e as [| ? ? [] ? ?| | | | | | | | |]; simpl; by rewrite ?IH.
Qed.

Lemma opportunityLegs_app (a b : list Event) :
  Trace.opportunityLegs (a ++ b) = Trace.opportunityLegs a ++ Trace.opportunityLegs b.
Proof.
  induction a as [|e a IH]; [reflexivity|].
  destruct e as [m| | | | | | | | | |]; simpl; rewrite ?IH; try reflexivity.
  destruct m; simpl; by rewrite ?IH.
Qed.

Lemma rejectionsOf_app (a b : list Event) :
  Trace.rejectionsOf (a ++ b) = Trace.rejectionsOf a ++ Trace.rejectionsOf b.
Proof.
  induction a as [|e a IH]; [reflexivity|]. destruct e; simpl; by rewrite ?IH.
Qed.

End TraceFacts.

Ltac trace_app :=
  rewrite ?delaysOf_app, ?retryPricesOf_app, ?polyBuysOf_app, ?polySellsOf_app,
    ?kalshiBuysOf_app, ?kalshiSellsOf_app, ?opportunityLegs_app, ?rejectionsOf_app.

(** ** What the order primitives leave in a trace *)

Section PrimitiveTraces.

Variable cfg : Config.

(** One call of [placePolymarketOrder] waits for nothing, announces
    nothing, touches Kalshi not at all, and sends at most one request:
    a buy of the token at the limit price of the price passed. *)
Lemma placePolymarketOrder_events tokenId price size options clob d :
  let evs := (placePolymarketOrder cfg tokenId price size options clob d).2 in
  Trace.opportunityLegs evs = [] /\ Trace.kalshiBuysOf evs = []
  /\ Trace.delaysOf evs = [] /\ Trace.retryPricesOf evs = []
  /\ Trace.rejectionsOf evs = []
  /\ (Trace.polyBuysOf evs = []
      \/ Trace.polyBuysOf evs = [(tokenId, RetrySpec.limitPriceFor cfg options price, size)]).
Proof.
  unfold placePolymarketOrder, RetrySpec.limitPriceFor.
  repeat case_match; simpl; repeat split; auto.
Qed.

Lemma placePolymarketOrder_sells tokenId price size options clob d :
  let evs := (placePolymarketOrder cfg tokenId price size options clob d).2 in
  Trace.polySellsOf evs = [] /\ Trace.kalshiSellsOf evs = [].
Proof. unfold placePolymarketOrder. repeat case_match; simpl; by split. Qed.

Lemma sellPolymarketOrder_events tokenId size options clob :
  let evs := (sellPolymarketOrder cfg tokenId size options clob).2 in
  Trace.opportunityLegs evs = [] /\ Trace.kalshiBuysOf evs = []
  /\ Trace.polyBuysOf evs = [] /\ Trace.rejectionsOf evs = [].
Proof. unfold sellPolymarketOrder. repeat case_match; simpl; by repeat split. Qed.

(** A live Kalshi buy sends exactly one order, for the ticker and side. *)
Lemma placeOrder_events ticker s count price out :
  let evs := (placeOrder cfg ticker s count price true out).2 in
  Trace.opportunityLegs evs = [] /\ Trace.kalshiBuysOf evs = [(ticker, s)]
  /\ Trace.polyBuysOf evs = [] /\ Trace.rejectionsOf evs = []
  /\ Trace.polySellsOf evs = [] /\ Trace.kalshiSellsOf evs = []
  /\ Trace.delaysOf evs = [] /\ Trace.retryPricesOf evs = [].
Proof. unfold placeOrder. destruct out; simpl; by repeat split. Qed.

Lemma placeSellOrder_events ticker s count live out :
  let evs := (placeSellOrder cfg ticker s count live out).2 in
  Trace.opportunityLegs evs = [] /\ Trace.kalshiBuysOf evs = []
  /\ Trace.polyBuysOf evs = [] /\ Trace.rejectionsOf evs = [].
Proof. unfold placeSellOrder. repeat case_match; simpl; by repeat split. Qed.

End PrimitiveTraces.

(** ** The single retry of a Polymarket buy *)

Section SingleRetry.

Variable cfg : Config.

Lemma polyWithRetry_cases o env d :
  Arb.polyWithRetry cfg o env d
  = let first := RetrySpec.arbFirst cfg o env d in
    match first.1.1 with
    | PErr e =>
        if Arb.isFokNotFilledError e then
          match Arb.bestAsk env with
          | Fulfilled ask =>
              let second := RetrySpec.arbSecond cfg o env d (Arb.retryPrice cfg ask) in
              (Fulfilled second.1.1, second.1.2,
               first.2 ++ [EvLog (LArbPolyFailed e)]
               ++ [EvDelay Arb.FOK_RETRY_DELAY_MS; EvBestAskQuery (Arb.loPolyTokenId o);
                   EvLog (LArbRetry (Arb.retryPrice cfg ask) ask)]
               ++ second.2)
          | Rejected reason =>
              (Rejected reason, first.1.2,
               first.2 ++ [EvLog (LArbPolyFailed e)]
               ++ [EvDelay Arb.FOK_RETRY_DELAY_MS; EvBestAskQuery (Arb.loPolyTokenId o)])
          end
        else (Fulfilled (PErr e), first.1.2, first.2 ++ [EvLog (LArbPolyFailed e)])
    | r => (Fulfilled r, first.1.2, first.2)
    end.
Proof.
  unfold Arb.polyWithRetry, Arb.retryPolymarketFokAfter200ms, RetrySpec.arbSecond,
    RetrySpec.arbFirst, RetrySpec.arbOptions.
  destruct (placePolymarketOrder cfg (Arb.loPolyTokenId o) (Arb.loPolyPrice o)
              (Arb.loPolySize o) _ (Arb.polyBuy env) d) as [[r d1] evs1].
  destruct r as [oid|e|]; try reflexivity. cbn [fst snd].
  destruct (Arb.isFokNotFilledError e); [|reflexivity].
  destruct (Arb.bestAsk env) as [ask|reason]; [|reflexivity].
  destruct (placePolymarketOrder cfg (Arb.loPolyTokenId o) _ _ _ (Arb.polyRetry env) d1)
    as [[r2 d2] evs2].
  reflexivity.
Qed.

Lemma placePolyBuyWithRetry_cases tokenId price size options env d :
  Strategy.placePolyBuyWithRetry cfg tokenId price size options env d
  = let first := RetrySpec.stratFirst cfg tokenId price size options env d in
    match first.1.1 with
    | PErr e =>
        if Strategy.isFokError e then
          match Strategy.bestAskNow env with
          | Fulfilled ask =>
              let second :=
                RetrySpec.stratSecond cfg tokenId price size options env d
                  (Strategy.retryPrice ask) in
              (Fulfilled second.1.1, second.1.2,
               first.2
               ++ [EvDelay Strategy.FOK_RETRY_MS; EvBestAskQuery tokenId;
                   EvLog (LStratFokRetry (Strategy.retryPrice ask) ask)]
               ++ second.2)
          | Rejected reason =>
              (Rejected reason, first.1.2,
               first.2 ++ [EvDelay Strategy.FOK_RETRY_MS; EvBestAskQuery tokenId])
          end
        else (Fulfilled (PErr e), first.1.2, first.2)
    | r => (Fulfilled r, first.1.2, first.2)
    end.
Proof.
  unfold Strategy.placePolyBuyWithRetry, RetrySpec.stratSecond, RetrySpec.stratFirst.
  destruct (placePolymarketOrder cfg tokenId price size options (Strategy.buyFirst env) d)
    as [[r d1] evs1].
  destruct r as [oid|e|]; try reflexivity. cbn [fst snd].
  destruct (Strategy.isFokError e); [|reflexivity]. cbn [negb].
  destruct (Strategy.bestAskNow env) as [ask|reason]; [|reflexivity].
  destruct (placePolymarketOrder cfg tokenId _ size options (Strategy.buyRetry env) d1)
    as [[r2 d2] evs2].
  reflexivity.
Qed.



End SingleRetry.

(** ** Cross-venue arbitrage: what one invocation decides and sends *)

Section ArbCheck.

Variable cfg : Config.

Lemma inRange_inBand (sum : num) :
  Arb.inRange cfg sum = true <-> ArbSpec.inBand cfg sum.
Proof.
  unfold Arb.inRange, ArbSpec.inBand.
  rewrite !andb_true_iff, geb_le, ltb_lt. tauto.
Qed.

Lemma inRange_not_inBand (sum : num) :
  Arb.inRange cfg sum = false <-> ~ ArbSpec.inBand cfg sum.
Proof.
  rewrite <- inRange_inBand. destruct (Arb.inRange cfg sum); split; congruence.
Qed.

Lemma exitDue_spec k pm pos :
  Arb.exitDue cfg k pm pos = true <->
  isFinite (ArbSpec.legSum (Arb.leg pos) k pm) = true
  /\ JsNum.lt (ArbSpec.legSum (Arb.leg pos) k pm) (ARB_SUM_LOW cfg).
Proof.
  unfold Arb.exitDue, ArbSpec.legSum.
  destruct (Arb.leg pos); rewrite andb_true_iff, ltb_lt; tauto.
Qed.

(** The test made on the stored position before anything else. *)
Lemma exiting_spec p st k pm :
  kalshi p = Some k -> polymarket p = Some pm ->
  match Arb.openArbPositions st !! kalshiTicker p with
  | Some pos => if Arb.exitDue cfg k pm pos then Some pos else None
  | None => None
  end = None <-> ~ ArbSpec.exitPending cfg p st.
Proof.
  intros Hk Hpm. unfold ArbSpec.exitPending. split.
  - intros H (k' & pm' & pos & Hk' & Hpm' & Hpos & Hfin & Hlt).
    rewrite Hk in Hk'. rewrite Hpm in Hpm'. injection Hk' as <-. injection Hpm' as <-.
    rewrite Hpos in H.
    assert (Arb.exitDue cfg k pm pos = true) as E by (by apply exitDue_spec).
    rewrite E in H. discriminate.
  - intros H. destruct (Arb.openArbPositions st !! kalshiTicker p) as [pos|] eqn:Epos;
      [|reflexivity].
    destruct (Arb.exitDue cfg k pm pos) eqn:E; [|reflexivity].
    exfalso. apply H. apply exitDue_spec in E as [Hfin Hlt]. by exists k, pm, pos.
Qed.

(** An entry is decided only for a leg whose sum is in the band and whose
    flag is not set; its orders are for the leg's side and token. *)
Lemma enter_inv (p : DualMarketPrices) (st : Arb.ArbState) (o : Arb.LegOrder) :
  Arb.arbDecision cfg p st = Arb.Enter o ->
  exists k pm, kalshi p = Some k /\ polymarket p = Some pm
    /\ Arb.loSum o = ArbSpec.legSum (Arb.loLeg o) k pm
    /\ Arb.inRange cfg (Arb.loSum o) = true
    /\ Arb.loKalshiSide o = ArbSpec.kalshiSideOf (Arb.loLeg o)
    /\ Arb.loPolyTokenId o = ArbSpec.polyTokenOf (Arb.loLeg o) pm
    /\ kalshiTicker p ∉ ArbSpec.attemptedSet (Arb.loLeg o) st.
Proof.
  unfold Arb.arbDecision.
  destruct (kalshi p) as [k|]; [|discriminate].
  destruct (polymarket p) as [pm|]; [|discriminate].
  intros H. exists k, pm. split; [done|]. split; [done|].
  destruct (match Arb.openArbPositions st !! kalshiTicker p with
            | Some pos => if Arb.exitDue cfg k pm pos then Some pos else None
            | None => None end); [discriminate|].
  destruct (Arb.inRange cfg _) eqn:Eup in H.
  - case_bool_decide; [discriminate|]. injection H as <-. simpl. done.
  - destruct (Arb.inRange cfg _) eqn:Edn in H; [|discriminate].
    case_bool_decide; [discriminate|]. injection H as <-. simpl. done.
Qed.

(** The legs an invocation enters, in the words of the specification. *)
Lemma decision_enter_iff p st k pm l :
  kalshi p = Some k -> polymarket p = Some pm ->
  (exists o, Arb.arbDecision cfg p st = Arb.Enter o /\ Arb.loLeg o = l)
  <-> (ArbSpec.inBand cfg (ArbSpec.legSum l k pm)
       /\ (kalshiTicker p ∉ ArbSpec.attemptedSet l st)
       /\ ~ ArbSpec.exitPending cfg p st
       /\ (l = DOWN -> ~ ArbSpec.inBand cfg (ArbSpec.legSum UP k pm))).
Proof.
  intros Hk Hpm. pose proof (exiting_spec p st k pm Hk Hpm) as Hex.
  unfold Arb.arbDecision. rewrite Hk, Hpm.
  destruct (match Arb.openArbPositions st !! kalshiTicker p with
            | Some pos => if Arb.exitDue cfg k pm pos then Some pos else None
            | None => None end) as [pos|].
  { split; [intros (o & ? & _); discriminate|].
    intros (_ & _ & Hn & _). apply Hex in Hn. discriminate. }
  assert (~ ArbSpec.exitPending cfg p st) as Hnp by (by apply Hex).
  change (upAskCents k / ofZ 100 + downAsk pm)%num with (ArbSpec.legSum UP k pm).
  change (downAskCents k / ofZ 100 + upAsk pm)%num with (ArbSpec.legSum DOWN k pm).
  destruct (Arb.inRange cfg (ArbSpec.legSum UP k pm)) eqn:Eup.
  - apply inRange_inBand in Eup. case_bool_decide as Hf.
    + split; [intros (o & ? & _); discriminate|].
      intros (Hin & Hnf & _ & Hdown). destruct l; simpl in *; [done|].
      destruct (Hdown eq_refl Eup).
    + split.
      * intros (o & [= <-] & <-). simpl.
        split; [exact Eup|]. split; [exact Hf|]. split; [exact Hnp|]. discriminate.
      * intros (Hin & Hnf & _ & Hdown). destruct l; [eauto|].
        destruct (Hdown eq_refl Eup).
  - apply inRange_not_inBand in Eup.
    destruct (Arb.inRange cfg (ArbSpec.legSum DOWN k pm)) eqn:Edn.
    + apply inRange_inBand in Edn. case_bool_decide as Hf.
      * split; [intros (o & ? & _); discriminate|].
        intros (Hin & Hnf & _). destruct l; simpl in *; [by destruct Eup | done].
      * split.
        -- intros (o & [= <-] & <-). simpl.
           split; [exact Edn|]. split; [exact Hf|]. split; [exact Hnp|]. by intros _.
        -- intros (Hin & Hnf & _). destruct l; [by destruct Eup | eauto].
    + apply inRange_not_inBand in Edn.
      split; [intros (o & ? & _); discriminate|].
      intros (Hin & _). destruct l; tauto.
Qed.

(** The Polymarket half of an entry: at most two requests, all for the
    leg's token; nothing for Kalshi. *)
Lemma polyWithRetry_events o env d :
  let evs := (Arb.polyWithRetry cfg o env d).2 in
  Trace.opportunityLegs evs = [] /\ Trace.kalshiBuysOf evs = []
  /\ Trace.rejectionsOf evs = []
  /\ (length (Trace.polyBuysOf evs) <= 2)%nat
  /\ (forall tok price size, (tok, price, size) ∈ Trace.polyBuysOf evs ->
        tok = Arb.loPolyTokenId o).
Proof.
  rewrite polyWithRetry_cases. cbn zeta.
  destruct (placePolymarketOrder_events cfg (Arb.loPolyTokenId o) (Arb.loPolyPrice o)
              (Arb.loPolySize o) (RetrySpec.arbOptions o) (Arb.polyBuy env) d)
    as (O1 & K1 & _ & _ & J1 & B1).
  fold (RetrySpec.arbFirst cfg o env d) in O1, K1, J1, B1.
  assert (forall ask,
    let second := RetrySpec.arbSecond cfg o env d (Arb.retryPrice cfg ask) in
    Trace.opportunityLegs second.2 = [] /\ Trace.kalshiBuysOf second.2 = []
    /\ Trace.rejectionsOf second.2 = []
    /\ (Trace.polyBuysOf second.2 = []
        \/ Trace.polyBuysOf second.2
           = [(Arb.loPolyTokenId o,
               RetrySpec.limitPriceFor cfg (RetrySpec.arbOptions o) (Arb.retryPrice cfg ask),
               Arb.loPolySize o)])) as H2.
  { intros ask. unfold RetrySpec.arbSecond.
    destruct (placePolymarketOrder_events cfg (Arb.loPolyTokenId o) (Arb.retryPrice cfg ask)
                (Arb.loPolySize o) (RetrySpec.arbOptions o) (Arb.polyRetry env)
                (RetrySpec.arbFirst cfg o env d).1.2) as (? & ? & _ & _ & ? & ?).
    done. }
  assert (forall b : list (string * num * num),
            (b = [] \/ exists price, b = [(Arb.loPolyTokenId o, price, Arb.loPolySize o)]) ->
            (length b <= 1)%nat
            /\ forall tok price size, (tok, price, size) ∈ b -> tok = Arb.loPolyTokenId o)
    as Hone.
  { intros b [-> | [price ->]]; simpl; (split; [lia|]); intros tok pr sz Hin.
    - by apply elem_of_nil in Hin.
    - apply list_elem_of_singleton in Hin. by injection Hin as -> _ _. }
  destruct (Hone (Trace.polyBuysOf (RetrySpec.arbFirst cfg o env d).2)) as [L1 T1].
  { destruct B1 as [->| ->]; eauto. }
  destruct ((RetrySpec.arbFirst cfg o env d).1.1) as [oid|e|]; cbn [fst snd].
  - repeat split; try done. lia.
  - destruct (Arb.isFokNotFilledError e); cbn [fst snd].
    + destruct (Arb.bestAsk env) as [ask|reason]; cbn [fst snd].
      * destruct (H2 ask) as (O2 & K2 & J2 & B2).
        destruct (Hone (Trace.polyBuysOf
                          (RetrySpec.arbSecond cfg o env d (Arb.retryPrice cfg ask)).2))
          as [L2 T2].
        { destruct B2 as [->| ->]; eauto. }
        trace_app. rewrite O1, K1, J1, O2, K2, J2. simpl.
        repeat split; try done.
        -- rewrite length_app. lia.
        -- intros tok pr sz Hin. apply elem_of_app in Hin as [Hin|Hin]; eauto.
      * trace_app. rewrite O1, K1, J1. simpl. rewrite !app_nil_r.
        repeat split; try done. lia.
    + trace_app. rewrite O1, K1, J1. simpl. rewrite !app_nil_r.
      repeat split; try done. lia.
  - repeat split; try done. lia.
Qed.

(** In a dry run the Polymarket call returns before any request. *)
Lemma polyWithRetry_dry o env d :
  ARB_DRY_RUN cfg = true ->
  Trace.polyBuysOf (Arb.polyWithRetry cfg o env d).2 = [].
Proof.
  intros Hdry. unfold Arb.polyWithRetry, placePolymarketOrder. rewrite Hdry. simpl.
  destruct (configured cfg); reflexivity.
Qed.

Lemma placeLeg_events ticker o env st d :
  let evs := (Arb.placeLeg cfg ticker o env st d).2 in
  Trace.opportunityLegs evs = [Arb.loLeg o]
  /\ Trace.kalshiBuysOf evs
     = (if ARB_DRY_RUN cfg then [] else [(ticker, Arb.loKalshiSide o)])
  /\ (length (Trace.polyBuysOf evs) <= 2)%nat
  /\ (forall tok price size, (tok, price, size) ∈ Trace.polyBuysOf evs ->
        tok = Arb.loPolyTokenId o)
  /\ (ARB_DRY_RUN cfg = true -> Trace.polyBuysOf evs = []).
Proof.
  unfold Arb.placeLeg. destruct (ARB_DRY_RUN cfg) eqn:Hdry.
  { simpl. repeat split; try done; try lia. intros tok pr sz Hin.
    by apply elem_of_nil in Hin. }
  destruct (placeOrder_events cfg ticker (Arb.loKalshiSide o) (Arb.loKalshiContracts o)
              (Arb.loKalshiPriceCents o) (Arb.kalshiBuy env))
    as (Ok & Kk & Bk & _).
  destruct (placeOrder cfg ticker (Arb.loKalshiSide o) (Arb.loKalshiContracts o)
              (Arb.loKalshiPriceCents o) true (Arb.kalshiBuy env)) as [kr kEvs].
  destruct (polyWithRetry_events o env d) as (Op & Kp & _ & Lp & Tp).
  destruct (Arb.polyWithRetry cfg o env d) as [[pr d'] pEvs].
  cbn [fst snd] in *.
  assert (forall tail, Trace.opportunityLegs tail = [] -> Trace.kalshiBuysOf tail = []
            -> Trace.polyBuysOf tail = [] ->
            let evs := [EvLog (LArbOpportunity (Arb.loLeg o) false (Arb.loSum o)
                                 (Arb.loKalshiPriceCents o) (Arb.loPolyPrice o)
                                 (Arb.loPolySize o))] ++ kEvs ++ pEvs ++ tail in
            Trace.opportunityLegs evs = [Arb.loLeg o]
            /\ Trace.kalshiBuysOf evs = [(ticker, Arb.loKalshiSide o)]
            /\ (length (Trace.polyBuysOf evs) <= 2)%nat
            /\ (forall tok price size, (tok, price, size) ∈ Trace.polyBuysOf evs ->
                  tok = Arb.loPolyTokenId o)
            /\ (false = true -> Trace.polyBuysOf evs = [])) as Hall.
  { intros tail Ot Kt Bt evs. unfold evs. trace_app.
    rewrite Ok, Kk, Bk, Op, Kp, Ot, Kt, Bt. simpl. rewrite !app_nil_r.
    repeat split; try done. }
  destruct pr as [polyResult|reason]; cbn [fst snd].
  - apply Hall; by destruct kr.
  - by apply Hall.
Qed.

Lemma exitArbPosition_events ticker pos env st :
  let evs := (Arb.exitArbPosition cfg ticker pos env st).2 in
  Trace.opportunityLegs evs = [] /\ Trace.kalshiBuysOf evs = []
  /\ Trace.polyBuysOf evs = [].
Proof.
  unfold Arb.exitArbPosition.
  destruct (placeSellOrder_events cfg ticker (Arb.kalshiSide pos) (Arb.kalshiCount pos)
              true (Arb.kalshiSell env)) as (Ok & Kk & Bk & _).
  destruct (placeSellOrder cfg ticker (Arb.kalshiSide pos) (Arb.kalshiCount pos) true
              (Arb.kalshiSell env)) as [kr kEvs].
  set (opts := {| tickSize := None |}).
  destruct (sellPolymarketOrder_events cfg (Arb.polyTokenId pos) (Arb.polySize pos)
              opts (Arb.polySell env)) as (Op & Kp & Bp & _).
  destruct (sellPolymarketOrder cfg (Arb.polyTokenId pos) (Arb.polySize pos) opts
              (Arb.polySell env)) as [pr pEvs].
  cbn [fst snd] in *. trace_app. rewrite Ok, Kk, Bk, Op, Kp, Bp.
  destruct kr, pr; by repeat split.
Qed.

(** The announcement and the buys of one invocation, by its decision. *)
Lemma check_events p env st d :
  let evs := (Arb.checkArbAndPlaceOrders cfg p env st d).2 in
  match Arb.arbDecision cfg p st with
  | Arb.Enter o =>
      Trace.opportunityLegs evs = [Arb.loLeg o]
      /\ Trace.kalshiBuysOf evs
         = (if ARB_DRY_RUN cfg then [] else [(kalshiTicker p, Arb.loKalshiSide o)])
      /\ (length (Trace.polyBuysOf evs) <= 2)%nat
      /\ (forall tok price size, (tok, price, size) ∈ Trace.polyBuysOf evs ->
            tok = Arb.loPolyTokenId o)
      /\ (ARB_DRY_RUN cfg = true -> Trace.polyBuysOf evs = [])
  | _ =>
      Trace.opportunityLegs evs = [] /\ Trace.kalshiBuysOf evs = []
      /\ Trace.polyBuysOf evs = []
  end.
Proof.
  unfold Arb.checkArbAndPlaceOrders.
  destruct (Arb.arbDecision cfg p st) as [|pos|l'|o|] eqn:Edec; cbn [fst snd];
    try done.
  - pose proof (exitArbPosition_events (kalshiTicker p) pos env st) as H.
    destruct (Arb.exitArbPosition cfg (kalshiTicker p) pos env st) as [st' evs].
    exact H.
  - apply placeLeg_events.
Qed.

(** The flags only grow, by the leg an invocation enters. *)
Lemma placeLeg_flags l ticker o env st d :
  ArbSpec.attemptedSet l (Arb.placeLeg cfg ticker o env st d).1.1 = ArbSpec.attemptedSet l st.
Proof.
  unfold Arb.placeLeg. destruct (ARB_DRY_RUN cfg); [reflexivity|].
  destruct (placeOrder _ _ _ _ _ _ _) as [kr kEvs].
  destruct (Arb.polyWithRetry cfg o env d) as [[pr d'] pEvs].
  destruct pr as [polyResult|reason]; cbn [fst snd]; [|reflexivity].
  destruct (kIsOk kr && isOk polyResult); destruct l; reflexivity.
Qed.

Lemma exitArbPosition_flags l ticker pos env st :
  ArbSpec.attemptedSet l (Arb.exitArbPosition cfg ticker pos env st).1 = ArbSpec.attemptedSet l st.
Proof.
  unfold Arb.exitArbPosition.
  destruct (placeSellOrder _ _ _ _ _ _) as [kr kEvs].
  destruct (sellPolymarketOrder _ _ _ _ _) as [pr pEvs].
  destruct l; reflexivity.
Qed.

Lemma markAttempted_flags l ticker l' st :
  ArbSpec.attemptedSet l (Arb.markAttempted ticker l' st)
  = if decide (l' = l) then {[ticker]} ∪ ArbSpec.attemptedSet l st
    else ArbSpec.attemptedSet l st.
Proof. destruct l, l'; reflexivity. Qed.

Lemma check_flags l p env st d :
  ArbSpec.attemptedSet l (Arb.checkArbAndPlaceOrders cfg p env st d).1.1
  = if decide (l ∈ Trace.opportunityLegs (Arb.checkArbAndPlaceOrders cfg p env st d).2)
    then {[kalshiTicker p]} ∪ ArbSpec.attemptedSet l st
    else ArbSpec.attemptedSet l st.
Proof.
  pose proof (check_events p env st d) as Hev. cbn zeta in Hev.
  unfold Arb.checkArbAndPlaceOrders in *.
  destruct (Arb.arbDecision cfg p st) as [|pos|l'|o|] eqn:Edec; cbn [fst snd] in *.
  1,3,5: rewrite decide_False by apply not_elem_of_nil; reflexivity.
  - pose proof (exitArbPosition_flags l (kalshiTicker p) pos env st) as H.
    destruct (Arb.exitArbPosition cfg (kalshiTicker p) pos env st) as [st' evs].
    cbn [fst snd] in *. destruct Hev as (-> & _).
    rewrite decide_False by apply not_elem_of_nil. exact H.
  - destruct Hev as (-> & _). rewrite placeLeg_flags, markAttempted_flags.
    destruct (decide (Arb.loLeg o = l)) as [->|Hne].
    + rewrite decide_True by (by apply list_elem_of_singleton). reflexivity.
    + rewrite decide_False; [reflexivity|].
      intros Hin. apply list_elem_of_singleton in Hin. congruence.
Qed.

(** What an invocation announces is what it decided to enter. *)
Lemma check_announced p env st d l :
  ArbSpec.announced l (Arb.checkArbAndPlaceOrders cfg p env st d).2
  <-> exists o, Arb.arbDecision cfg p st = Arb.Enter o /\ Arb.loLeg o = l.
Proof.
  pose proof (check_events p env st d) as Hev. cbn zeta in Hev.
  unfold ArbSpec.announced.
  destruct (Arb.arbDecision cfg p st) as [|pos|l'|o|] eqn:Edec.
  1-3,5: destruct Hev as (-> & _); split;
    [intros Hin; by apply elem_of_nil in Hin | intros (o' & ? & _); discriminate].
  destruct Hev as (-> & _). rewrite list_elem_of_singleton. split.
  - intros ->. eauto.
  - intros (o' & [= <-] & <-). reflexivity.
Qed.

Lemma kalshiSideOf_inj (a b : Side) :
  ArbSpec.kalshiSideOf a = ArbSpec.kalshiSideOf b -> a = b.
Proof. destruct a, b; simpl; congruence. Qed.

(** Every buy of an invocation belongs to the entry it announces. *)
Lemma check_attributed p env st d :
  ArbSpec.attributed p (Arb.checkArbAndPlaceOrders cfg p env st d).2.
Proof.
  pose proof (check_events p env st d) as Hev. cbn zeta in Hev.
  unfold ArbSpec.attributed.
  destruct (Arb.arbDecision cfg p st) as [|pos|l'|o|] eqn:Edec.
  1-3,5: destruct Hev as (-> & -> & ->); by split.
  destruct Hev as (-> & HK & HL & HT & _).
  destruct (enter_inv p st o Edec) as (k & pm & _ & Hpm & _ & _ & Hside & Htok & _).
  unfold ArbSpec.buysOfLeg. rewrite HK, <- Hside. split; [|split].
  - destruct (ARB_DRY_RUN cfg); auto.
  - exact HL.
  - intros tok price size Hin. exists pm. split; [done|].
    rewrite <- Htok. by eapply HT.
Qed.

End ArbCheck.

(** ** Cross-venue arbitrage: the entry band *)

Section ArbBand.

Variable cfg : Config.

Lemma inBand_upper_bound : ~ ArbSpec.inBand cfg (ARB_SUM_THRESHOLD cfg).
Proof. intros (_ & _ & H). exact (lt_irrefl _ H). Qed.

Lemma inBand_lower_bound :
  isFinite (ARB_SUM_LOW cfg) = true ->
  JsNum.lt (ARB_SUM_LOW cfg) (ARB_SUM_THRESHOLD cfg) ->
  ArbSpec.inBand cfg (ARB_SUM_LOW cfg).
Proof. intros Hfin Hlt. split; [done|]. split; [by apply le_refl_fin | done]. Qed.

Lemma entryOrders_app (t : string) (l : Side) (a b : list Event) :
  ArbSpec.entryOrders t l (a ++ b)
  = (ArbSpec.entryOrders t l a + ArbSpec.entryOrders t l b)%nat.
Proof.
  unfold ArbSpec.entryOrders. by rewrite kalshiBuysOf_app, List.filter_app, length_app.
Qed.

(** The Kalshi entry orders of one invocation: one, in live mode, for the
    leg it announces. *)
Lemma check_entryOrders p env st d t l :
  ArbSpec.entryOrders t l (Arb.checkArbAndPlaceOrders cfg p env st d).2
  = if ARB_DRY_RUN cfg then 0%nat
    else if bool_decide (kalshiTicker p = t)
            && bool_decide (l ∈ Trace.opportunityLegs
                                  (Arb.checkArbAndPlaceOrders cfg p env st d).2)
         then 1%nat else 0%nat.
Proof.
  pose proof (check_events cfg p env st d) as Hev. cbn zeta in Hev.
  unfold ArbSpec.entryOrders.
  destruct (Arb.arbDecision cfg p st) as [|pos|l'|o|] eqn:Edec.
  1-3,5: destruct Hev as (-> & -> & _);
    rewrite (bool_decide_eq_false_2 (l ∈ [])) by apply not_elem_of_nil;
    rewrite andb_false_r; by destruct (ARB_DRY_RUN cfg).
  destruct Hev as (-> & -> & _).
  destruct (enter_inv cfg p st o Edec) as (k & pm & _ & _ & _ & _ & Hside & _).
  destruct (ARB_DRY_RUN cfg); [reflexivity|]. simpl. rewrite Hside.
  destruct (decide (kalshiTicker p = t)) as [->|Hne].
  - destruct (decide (Arb.loLeg o = l)) as [->|Hnl].
    + rewrite !bool_decide_eq_true_2; try done. by apply list_elem_of_singleton.
    + rewrite (bool_decide_eq_false_2 (_ = (t, ArbSpec.kalshiSideOf l))).
      * rewrite (bool_decide_eq_false_2 (l ∈ _)); [by rewrite andb_false_r|].
        intros Hin. apply list_elem_of_singleton in Hin. congruence.
      * intros [= E]. apply Hnl. by apply kalshiSideOf_inj.
  - rewrite (bool_decide_eq_false_2 (_ = (t, ArbSpec.kalshiSideOf l))) by congruence.
    rewrite (bool_decide_eq_false_2 (kalshiTicker p = t)) by done. reflexivity.
Qed.

End ArbBand.

(** C3 — One invocation of [checkArbAndPlaceOrders] on a snapshot with
    both venues' prices announces the entry of a leg exactly when the
    leg's combined sum is finite with [ARB_SUM_LOW <= sum <
    ARB_SUM_THRESHOLD], the leg's flag is not set for the ticker, no exit
    of a stored position is due, and, for the DOWN leg, the UP sum is
    outside the band.  An announced entry sets the flag and, in live
    mode, sends the one Kalshi buy of the leg's side; every buy of the
    invocation belongs to the announced leg; a leg that is not announced
    keeps its flag and gets no Kalshi buy.  A sum equal to the upper bound
    is never entered; a finite sum equal to the lower bound of a
    non-empty band is entered under the same conditions. *)
Theorem arb_entry_band_half_open (cfg : Config) (p : DualMarketPrices) (env : Arb.ArbEnv)
    (st : Arb.ArbState) (d : Disk) (k : MarketPrices) (pm : PolymarketPrices) (l : Side) :
  kalshi p = Some k -> polymarket p = Some pm ->
  let r := Arb.checkArbAndPlaceOrders cfg p env st d in
  let sum := ArbSpec.legSum l k pm in
  (ArbSpec.announced l r.2 <->
     (ArbSpec.inBand cfg sum
      /\ (kalshiTicker p ∉ ArbSpec.attemptedSet l st)
      /\ ~ ArbSpec.exitPending cfg p st
      /\ (l = DOWN -> ~ ArbSpec.inBand cfg (ArbSpec.legSum UP k pm))))
  /\ (ArbSpec.announced l r.2 ->
        kalshiTicker p ∈ ArbSpec.attemptedSet l r.1.1
        /\ Trace.kalshiBuysOf r.2
           = (if ARB_DRY_RUN cfg then [] else [(kalshiTicker p, ArbSpec.kalshiSideOf l)])
        /\ (ARB_DRY_RUN cfg = true -> Trace.polyBuysOf r.2 = []))
  /\ (~ ArbSpec.announced l r.2 ->
        ArbSpec.attemptedSet l r.1.1 = ArbSpec.attemptedSet l st
        /\ ArbSpec.entryOrders (kalshiTicker p) l r.2 = 0%nat)
  /\ ArbSpec.attributed p r.2
  /\ (sum = ARB_SUM_THRESHOLD cfg -> ~ ArbSpec.announced l r.2)
  /\ (sum = ARB_SUM_LOW cfg -> isFinite sum = true ->
      JsNum.lt (ARB_SUM_LOW cfg) (ARB_SUM_THRESHOLD cfg) ->
      kalshiTicker p ∉ ArbSpec.attemptedSet l st ->
      ~ ArbSpec.exitPending cfg p st ->
      (l = DOWN -> ~ ArbSpec.inBand cfg (ArbSpec.legSum UP k pm)) ->
      ArbSpec.announced l r.2).
Proof.
  intros Hk Hpm r sum.
  assert (ArbSpec.announced l r.2 <->
          (ArbSpec.inBand cfg sum
           /\ (kalshiTicker p ∉ ArbSpec.attemptedSet l st)
           /\ ~ ArbSpec.exitPending cfg p st
           /\ (l = DOWN -> ~ ArbSpec.inBand cfg (ArbSpec.legSum UP k pm)))) as Hiff.
  { unfold r. rewrite check_announced. by apply decision_enter_iff. }
  split; [exact Hiff|]. split; [|split; [|split; [|split]]].
  - intros Hann. split; [|split].
    + unfold r. rewrite check_flags. rewrite decide_True by exact Hann.
      apply elem_of_union_l. by apply elem_of_singleton.
    + apply check_announced in Hann as (o & Edec & <-).
      pose proof (check_events cfg p env st d) as Hev. cbn zeta in Hev.
      rewrite Edec in Hev. destruct Hev as (_ & HK & _).
      destruct (enter_inv cfg p st o Edec) as (_ & _ & _ & _ & _ & _ & Hside & _).
      unfold r. rewrite HK, Hside. reflexivity.
    + apply check_announced in Hann as (o & Edec & <-).
      pose proof (check_events cfg p env st d) as Hev. cbn zeta in Hev.
      rewrite Edec in Hev. destruct Hev as (_ & _ & _ & _ & HD). exact HD.
  - intros Hnot. split.
    + unfold r. rewrite check_flags. by rewrite decide_False by exact Hnot.
    + unfold r. rewrite check_entryOrders. destruct (ARB_DRY_RUN cfg); [reflexivity|].
      rewrite (bool_decide_eq_false_2 (l ∈ _)) by exact Hnot.
      by rewrite andb_false_r.
  - apply check_attributed.
  - intros Hsum Hann. apply Hiff in Hann as (Hin & _). rewrite Hsum in Hin.
    by apply inBand_upper_bound in Hin.
  - intros Hsum Hfin Hlt Hflag Hexit Hup. apply Hiff. split; [|done].
    rewrite Hsum in *. by apply inBand_lower_bound.
Qed.

(** C3 at the upper edge — Kalshi UP at 62 cents and Polymarket DOWN at 0.30: the sum of the two
    doubles is below 0.92 and the UP leg is entered. *)
Lemma arb_entry_at_upper_edge :
  let r := Arb.checkArbAndPlaceOrders ArbScenario.cfg ArbScenario.edge ArbScenario.calm
             Arb.initialArbState Scenario.emptyLedger in
  ArbSpec.announced UP r.2
  /\ Scenario.ticker1 ∈ Arb.upArbDoneTickers r.1.1
  /\ Trace.kalshiBuysOf r.2 = [(Scenario.ticker1, Yes)].
Proof.
  intros r.
  destruct (arb_entry_band_half_open ArbScenario.cfg ArbScenario.edge ArbScenario.calm
              Arb.initialArbState Scenario.emptyLedger ArbScenario.edgeK ArbScenario.edgePm
              UP eq_refl eq_refl) as (Hiff & Hann & _).
  assert (ArbSpec.announced UP r.2) as H.
  { apply Hiff. split; [|split; [|split]].
    - apply inRange_inBand. vm_compute. reflexivity.
    - apply not_elem_of_empty.
    - intros (k & pm & pos & _ & _ & Hpos & _). simpl in Hpos.
      rewrite lookup_empty in Hpos. discriminate.
    - discriminate. }
  split; [exact H|]. destruct (Hann H) as (Hflag & Hbuys & _). split; [exact Hflag|exact Hbuys].
Defined.

(** C3 as stated fails — Both sums are in the band and nothing was attempted: the UP leg is
    entered and the DOWN leg is not, in this invocation and in the next
    one on the same prices. *)
Lemma arb_in_band_leg_not_entered :
  let r := Arb.checkArbAndPlaceOrders ArbScenario.cfg ArbScenario.bothInBand ArbScenario.calm
             Arb.initialArbState Scenario.emptyLedger in
  let r' := Arb.checkArbAndPlaceOrders ArbScenario.cfg ArbScenario.bothInBand
              ArbScenario.calm r.1.1 r.1.2 in
  ArbSpec.inBand ArbScenario.cfg
    (ArbSpec.legSum DOWN ArbScenario.bothK ArbScenario.bothPm)
  /\ (Scenario.ticker1 ∉ ArbSpec.attemptedSet DOWN Arb.initialArbState)
  /\ Arb.openArbPositions Arb.initialArbState = ∅
  /\ ~ ArbSpec.announced DOWN r.2
  /\ Trace.opportunityLegs r.2 = [UP]
  /\ Trace.kalshiBuysOf r.2 = [(Scenario.ticker1, Yes)]
  /\ ~ ArbSpec.announced DOWN r'.2
  /\ r'.2 = [].
Proof.
  intros r r'.
  assert (Trace.opportunityLegs r.2 = [UP]) as Hr by (vm_compute; reflexivity).
  assert (r'.2 = []) as Hr' by (vm_compute; reflexivity).
  split; [apply inRange_inBand; vm_compute; reflexivity|].
  split; [apply not_elem_of_empty|]. split; [reflexivity|].
  split; [unfold ArbSpec.announced; rewrite Hr; intros Hin;
          apply list_elem_of_singleton in Hin; discriminate|].
  split; [exact Hr|]. split; [vm_compute; reflexivity|].
  split; [unfold ArbSpec.announced; rewrite Hr'; apply not_elem_of_nil | exact Hr'].
Qed.

(** ** Cross-venue arbitrage: one attempt per leg and ticker *)

Section ArbIdempotence.

Variable cfg : Config.

Lemma run_unfold p env rest st d :
  Arb.runArb cfg ((p, env) :: rest) st d
  = let '(st1, d1, evs1) := Arb.checkArbAndPlaceOrders cfg p env st d in
    let '(st2, d2, evs2) := Arb.runArb cfg rest st1 d1 in
    (st2, d2, evs1 ++ evs2).
Proof. reflexivity. Qed.

Lemma invocations_unfold p env rest st d :
  ArbSpec.invocations cfg ((p, env) :: rest) st d
  = (p, st, (Arb.checkArbAndPlaceOrders cfg p env st d).2)
    :: ArbSpec.invocations cfg rest (Arb.checkArbAndPlaceOrders cfg p env st d).1.1
         (Arb.checkArbAndPlaceOrders cfg p env st d).1.2.
Proof.
  simpl. by destruct (Arb.checkArbAndPlaceOrders cfg p env st d) as [[st1 d1] evs1].
Qed.

(** The trace of a run is the traces of its invocations, in order. *)
Lemma run_trace ticks : forall st d,
  (Arb.runArb cfg ticks st d).2 = concat (map snd (ArbSpec.invocations cfg ticks st d)).
Proof.
  induction ticks as [|[p env] rest IH]; intros st d; [reflexivity|].
  rewrite run_unfold, invocations_unfold. specialize (IH
    (Arb.checkArbAndPlaceOrders cfg p env st d).1.1
    (Arb.checkArbAndPlaceOrders cfg p env st d).1.2).
  destruct (Arb.checkArbAndPlaceOrders cfg p env st d) as [[st1 d1] evs1].
  cbn [fst snd] in *.
  destruct (Arb.runArb cfg rest st1 d1) as [[st2 d2] evs2]. cbn [fst snd] in *.
  simpl. by rewrite IH.
Qed.

(** A set flag makes the invocation announce nothing for the leg. *)
Lemma flagged_not_announced p env st d l :
  kalshiTicker p ∈ ArbSpec.attemptedSet l st ->
  ~ ArbSpec.announced l (Arb.checkArbAndPlaceOrders cfg p env st d).2.
Proof.
  intros Hin Hann. apply check_announced in Hann as (o & Edec & <-).
  destruct (enter_inv cfg p st o Edec) as (k & pm & _ & _ & _ & _ & _ & _ & Hnot). done.
Qed.

Lemma check_flag_kept p env st d t l :
  t ∈ ArbSpec.attemptedSet l st ->
  t ∈ ArbSpec.attemptedSet l (Arb.checkArbAndPlaceOrders cfg p env st d).1.1.
Proof.
  intros Hin. rewrite check_flags. destruct (decide _); [by apply elem_of_union_r | done].
Qed.

(** Once the flag is set, a run keeps it, announces the leg no more and
    sends no Kalshi order for it. *)
Lemma run_flagged_none ticks : forall st d t l,
  t ∈ ArbSpec.attemptedSet l st ->
  ArbSpec.attemptsOn t l (ArbSpec.invocations cfg ticks st d) = []
  /\ ArbSpec.entryOrders t l (Arb.runArb cfg ticks st d).2 = 0%nat
  /\ t ∈ ArbSpec.attemptedSet l (Arb.runArb cfg ticks st d).1.1.
Proof.
  induction ticks as [|[p env] rest IH]; intros st d t l Hin; [by repeat split|].
  pose proof (check_entryOrders cfg p env st d t l) as Hev.
  pose proof (check_flag_kept p env st d t l Hin) as Hkept.
  assert (bool_decide (kalshiTicker p = t)
          && bool_decide (l ∈ Trace.opportunityLegs
                                (Arb.checkArbAndPlaceOrders cfg p env st d).2) = false)
    as Hno.
  { destruct (decide (kalshiTicker p = t)) as [E|NE].
    - rewrite (bool_decide_eq_false_2 (l ∈ _)); [by rewrite andb_false_r|].
      apply flagged_not_announced. by rewrite E.
    - by rewrite (bool_decide_eq_false_2 _ NE). }
  rewrite Hno in Hev.
  rewrite run_unfold, invocations_unfold.
  destruct (IH (Arb.checkArbAndPlaceOrders cfg p env st d).1.1
              (Arb.checkArbAndPlaceOrders cfg p env st d).1.2 t l Hkept)
    as (IHa & IHe & IHf).
  destruct (Arb.checkArbAndPlaceOrders cfg p env st d) as [[st1 d1] evs1].
  cbn [fst snd] in *.
  destruct (Arb.runArb cfg rest st1 d1) as [[st2 d2] evs2]. cbn [fst snd] in *.
  split; [|split; [|exact IHf]].
  - unfold ArbSpec.attemptsOn in *. cbn [List.filter fst snd]. rewrite Hno. exact IHa.
  - rewrite entryOrders_app, Hev, IHe. by destruct (ARB_DRY_RUN cfg).
Qed.

(** From any state, a run announces a leg of a ticker at most once and
    sends at most one Kalshi order for it. *)
Lemma run_at_most_once ticks : forall st d t l,
  (length (ArbSpec.attemptsOn t l (ArbSpec.invocations cfg ticks st d)) <= 1)%nat
  /\ (ArbSpec.entryOrders t l (Arb.runArb cfg ticks st d).2 <= 1)%nat.
Proof.
  induction ticks as [|[p env] rest IH]; intros st d t l;
    [unfold ArbSpec.entryOrders; simpl; split; lia|].
  pose proof (check_entryOrders cfg p env st d t l) as Hev.
  pose proof (check_flags cfg l p env st d) as Hfl.
  rewrite run_unfold, invocations_unfold.
  destruct (IH (Arb.checkArbAndPlaceOrders cfg p env st d).1.1
              (Arb.checkArbAndPlaceOrders cfg p env st d).1.2 t l) as (IHa & IHe).
  pose proof (run_flagged_none rest (Arb.checkArbAndPlaceOrders cfg p env st d).1.1
                (Arb.checkArbAndPlaceOrders cfg p env st d).1.2 t l) as Hnone.
  destruct (Arb.checkArbAndPlaceOrders cfg p env st d) as [[st1 d1] evs1].
  cbn [fst snd] in *.
  destruct (Arb.runArb cfg rest st1 d1) as [[st2 d2] evs2]. cbn [fst snd] in *.
  unfold ArbSpec.attemptsOn in *. cbn [List.filter fst snd].
  rewrite entryOrders_app, Hev.
  destruct (bool_decide (kalshiTicker p = t)
            && bool_decide (l ∈ Trace.opportunityLegs evs1)) eqn:E.
  - apply andb_true_iff in E as [Et El].
    apply bool_decide_eq_true in Et. apply bool_decide_eq_true in El.
    destruct Hnone as (Ha & He & _).
    { rewrite Hfl. rewrite decide_True by exact El.
      apply elem_of_union_l. by apply elem_of_singleton. }
    rewrite Ha, He. simpl. destruct (ARB_DRY_RUN cfg); split; lia.
  - destruct (ARB_DRY_RUN cfg); split; (exact IHa || lia).
Qed.

(** What holds of every invocation of a run. *)
Lemma invocations_each ticks l : forall st d,
  Forall (fun i : DualMarketPrices * Arb.ArbState * list Event =>
            ArbSpec.attributed i.1.1 i.2
            /\ (kalshiTicker i.1.1 ∈ ArbSpec.attemptedSet l i.1.2 ->
                ~ ArbSpec.announced l i.2
                /\ ArbSpec.entryOrders (kalshiTicker i.1.1) l i.2 = 0%nat))
         (ArbSpec.invocations cfg ticks st d).
Proof.
  induction ticks as [|[p env] rest IH]; intros st d; [constructor|].
  rewrite invocations_unfold. constructor; [|apply IH]. cbn [fst snd].
  split; [apply check_attributed|]. intros Hin.
  pose proof (flagged_not_announced p env st d l Hin) as Hnot.
  split; [exact Hnot|]. rewrite check_entryOrders.
  destruct (ARB_DRY_RUN cfg); [reflexivity|].
  rewrite (bool_decide_eq_false_2 (l ∈ _)) by exact Hnot. by rewrite andb_false_r.
Qed.

End ArbIdempotence.

(** C5 — Arb leg idempotence.  In a run of [checkArbAndPlaceOrders] over
    any snapshots, from any state: a leg of a ticker is announced by at
    most one invocation and gets at most one Kalshi entry order; when
    its flag is set at the start, no invocation announces it, no Kalshi
    order is sent for it and the flag stays set.  In every invocation the
    buys sent to either venue are those of the one entry it announces (none
    when it announces none), and an invocation that starts with the flag
    set announces nothing for the leg. *)
Theorem arb_leg_attempted_at_most_once (cfg : Config)
    (ticks : list (DualMarketPrices * Arb.ArbEnv)) (st : Arb.ArbState) (d : Disk)
    (t : string) (l : Side) :
  let invs := ArbSpec.invocations cfg ticks st d in
  let r := Arb.runArb cfg ticks st d in
  r.2 = concat (map snd invs)
  /\ (length (ArbSpec.attemptsOn t l invs) <= 1)%nat
  /\ (ArbSpec.entryOrders t l r.2 <= 1)%nat
  /\ (t ∈ ArbSpec.attemptedSet l st ->
      ArbSpec.attemptsOn t l invs = []
      /\ ArbSpec.entryOrders t l r.2 = 0%nat
      /\ t ∈ ArbSpec.attemptedSet l r.1.1)
  /\ Forall (fun i : DualMarketPrices * Arb.ArbState * list Event =>
               ArbSpec.attributed i.1.1 i.2
               /\ (kalshiTicker i.1.1 ∈ ArbSpec.attemptedSet l i.1.2 ->
                   ~ ArbSpec.announced l i.2
                   /\ ArbSpec.entryOrders (kalshiTicker i.1.1) l i.2 = 0%nat))
            invs.
Proof.
  intros invs r.
  split; [apply run_trace|].
  destruct (run_at_most_once cfg ticks st d t l) as [Ha He].
  split; [exact Ha|]. split; [exact He|].
  split; [apply run_flagged_none|apply invocations_each].
Qed.

(** ** Cross-venue arbitrage: when a position is recorded *)

Section ArbPosition.

Variable cfg : Config.

Lemma noSells_app (a b : list Event) :
  ArbSpec.noSells (a ++ b) = ArbSpec.noSells a && ArbSpec.noSells b.
Proof. unfold ArbSpec.noSells. apply forallb_app. Qed.

Lemma placePolymarketOrder_noSells tokenId price size options clob d :
  ArbSpec.noSells (placePolymarketOrder cfg tokenId price size options clob d).2 = true.
Proof. unfold placePolymarketOrder. repeat case_match; reflexivity. Qed.

Lemma placeOrder_noSells ticker s count price out :
  ArbSpec.noSells (placeOrder cfg ticker s count price true out).2 = true.
Proof. unfold placeOrder. destruct out; reflexivity. Qed.

Lemma polyWithRetry_noSells o env d :
  ArbSpec.noSells (Arb.polyWithRetry cfg o env d).2 = true.
Proof.
  rewrite polyWithRetry_cases. cbn zeta.
  pose proof (placePolymarketOrder_noSells (Arb.loPolyTokenId o) (Arb.loPolyPrice o)
                (Arb.loPolySize o) (RetrySpec.arbOptions o) (Arb.polyBuy env) d) as H1.
  fold (RetrySpec.arbFirst cfg o env d) in H1.
  destruct ((RetrySpec.arbFirst cfg o env d).1.1) as [oid|e|]; cbn [fst snd]; try exact H1.
  destruct (Arb.isFokNotFilledError e); cbn [fst snd].
  - destruct (Arb.bestAsk env) as [ask|reason]; cbn [fst snd].
    + rewrite !noSells_app, H1. unfold RetrySpec.arbSecond.
      rewrite placePolymarketOrder_noSells. reflexivity.
    + rewrite !noSells_app, H1. reflexivity.
  - rewrite noSells_app, H1. reflexivity.
Qed.

(** [placePolymarketOrder] answers [null] only for a missing credential or
    a dry run that is not forced. *)
Lemma placePolymarketOrder_null tokenId price size options clob d :
  (placePolymarketOrder cfg tokenId price size options clob d).1.1 = PNull ->
  (configured cfg = false
   /\ (placePolymarketOrder cfg tokenId price size options clob d).2
      = [EvLog (LPolyNotConfigured tokenId price size)])
  \/ (configured cfg = true /\ ARB_DRY_RUN cfg && negb (forcePlace options) = true).
Proof.
  unfold placePolymarketOrder.
  destruct (configured cfg); simpl; [|by left].
  destruct (ARB_DRY_RUN cfg && negb (forcePlace options)); [by right|].
  repeat case_match; simpl; discriminate.
Qed.

(** A Polymarket order that does not come back with an order id leaves a
    failure line in the log, also when its retry ends in a rejection. *)
Lemma polyWithRetry_failure_logged o env d :
  ARB_DRY_RUN cfg = false ->
  ArbSpec.polySucceeded cfg o env d = false ->
  existsb ArbSpec.isPolyFailureLog (Arb.polyWithRetry cfg o env d).2 = true.
Proof.
  intros Hlive. unfold ArbSpec.polySucceeded, ArbSpec.polySettledOf.
  rewrite polyWithRetry_cases. cbn zeta.
  pose proof (placePolymarketOrder_null (Arb.loPolyTokenId o) (Arb.loPolyPrice o)
                (Arb.loPolySize o) (RetrySpec.arbOptions o) (Arb.polyBuy env) d) as Hnull.
  fold (RetrySpec.arbFirst cfg o env d) in Hnull.
  destruct ((RetrySpec.arbFirst cfg o env d).1.1) as [oid|e|]; cbn [fst snd].
  - discriminate.
  - intros _. destruct (Arb.isFokNotFilledError e); cbn [fst snd].
    + destruct (Arb.bestAsk env) as [ask|reason]; cbn [fst snd];
        rewrite !existsb_app; simpl; rewrite ?orb_true_r; reflexivity.
    + rewrite existsb_app. simpl. apply orb_true_r.
  - intros _. destruct (Hnull eq_refl) as [[_ ->] | [_ Hdry]]; [reflexivity|].
    rewrite Hlive in Hdry. discriminate.
Qed.

(** A rejection is raised by the query of the best ask, and then ends
    the trace of the entry. *)
Lemma placeLeg_spec ticker o env st d :
  ARB_DRY_RUN cfg = false ->
  let r := Arb.placeLeg cfg ticker o env st d in
  Arb.openArbPositions r.1.1
  = (if ArbSpec.bothSucceeded cfg ticker o env d
     then <[ticker := ArbSpec.positionOf o]> (Arb.openArbPositions st)
     else Arb.openArbPositions st)
  /\ ArbSpec.noSells r.2 = true
  /\ (kIsOk (ArbSpec.kalshiResultOf cfg ticker o env) = false ->
      match ArbSpec.polySettledOf cfg o env d with
      | Fulfilled _ =>
          existsb ArbSpec.isKalshiFailureLog r.2 = true /\ Trace.rejectionsOf r.2 = []
      | Rejected reason => Trace.rejectionsOf r.2 = [reason]
      end)
  /\ (ArbSpec.polySucceeded cfg o env d = false ->
      existsb ArbSpec.isPolyFailureLog r.2 = true).
Proof.
  intros Hlive. unfold Arb.placeLeg, ArbSpec.bothSucceeded, ArbSpec.kalshiResultOf.
  rewrite Hlive.
  pose proof (placeOrder_noSells ticker (Arb.loKalshiSide o) (Arb.loKalshiContracts o)
                (Arb.loKalshiPriceCents o) (Arb.kalshiBuy env)) as Hk.
  destruct (placeOrder_events cfg ticker (Arb.loKalshiSide o) (Arb.loKalshiContracts o)
              (Arb.loKalshiPriceCents o) (Arb.kalshiBuy env)) as (_ & _ & _ & Jk & _).
  destruct (placeOrder cfg ticker (Arb.loKalshiSide o) (Arb.loKalshiContracts o)
              (Arb.loKalshiPriceCents o) true (Arb.kalshiBuy env)) as [kr kEvs].
  pose proof (polyWithRetry_noSells o env d) as Hp.
  pose proof (polyWithRetry_failure_logged o env d Hlive) as Hlog.
  destruct (polyWithRetry_events cfg o env d) as (_ & _ & Jp & _).
  unfold ArbSpec.polySucceeded, ArbSpec.polySettledOf in *.
  destruct (Arb.polyWithRetry cfg o env d) as [[pr d'] pEvs].
  cbn [fst snd] in *. destruct pr as [polyResult|reason]; cbn [fst snd].
  - split; [|split; [|split]].
    + destruct (kIsOk kr && isOk polyResult); reflexivity.
    + rewrite !noSells_app, Hk, Hp. destruct kr; reflexivity.
    + destruct kr; [discriminate|]. intros _. split.
      * rewrite !existsb_app. simpl. rewrite !orb_true_r. reflexivity.
      * trace_app. rewrite Jk, Jp. reflexivity.
    + intros Hf. rewrite !existsb_app, (Hlog Hf). rewrite orb_true_r. reflexivity.
  - split; [|split; [|split]].
    + by rewrite andb_false_r.
    + rewrite !noSells_app, Hk, Hp. reflexivity.
    + intros _. trace_app. rewrite Jk, Jp. reflexivity.
    + intros Hf. rewrite !existsb_app, (Hlog Hf). rewrite orb_true_r. reflexivity.
Qed.

(** The state a position-changing invocation started from. *)
Lemma check_positions p env st d :
  Arb.openArbPositions (Arb.checkArbAndPlaceOrders cfg p env st d).1.1
  = match Arb.arbDecision cfg p st with
    | Arb.ExitPosition _ => delete (kalshiTicker p) (Arb.openArbPositions st)
    | Arb.Enter o =>
        if negb (ARB_DRY_RUN cfg) && ArbSpec.bothSucceeded cfg (kalshiTicker p) o env d
        then <[kalshiTicker p := ArbSpec.positionOf o]> (Arb.openArbPositions st)
        else Arb.openArbPositions st
    | _ => Arb.openArbPositions st
    end.
Proof.
  unfold Arb.checkArbAndPlaceOrders.
  destruct (Arb.arbDecision cfg p st) as [|pos|l'|o|] eqn:Edec; try reflexivity.
  - unfold Arb.exitArbPosition.
    destruct (placeSellOrder _ _ _ _ _ _) as [kr kEvs].
    destruct (sellPolymarketOrder _ _ _ _ _) as [pr pEvs]. reflexivity.
  - destruct (ARB_DRY_RUN cfg) eqn:Hdry.
    + unfold Arb.placeLeg. rewrite Hdry. destruct (Arb.loLeg o); reflexivity.
    + destruct (placeLeg_spec (kalshiTicker p) o env
                  (Arb.markAttempted (kalshiTicker p) (Arb.loLeg o) st) d Hdry) as [H _].
      simpl in H. rewrite H. simpl. destruct (Arb.loLeg o); reflexivity.
Qed.

(** C6 — An ArbPosition is recorded exactly by an entry whose Kalshi
    order and whose Polymarket order (after its retry, if any) both
    returned success.  When an entry does not have both, the failed order
    is logged, no sell is issued in that invocation, and the stored
    positions are left as they were.  The one entry that ends without its
    Kalshi failure line is the one whose retry was cut short by a
    rejected query of the best ask: its trace ends with the rejection,
    after the Polymarket failure line. *)
Theorem arb_position_iff_both_orders_succeed :
  (forall p env st d o,
     Arb.arbDecision cfg p st = Arb.Enter o ->
     ARB_DRY_RUN cfg = false ->
     ArbSpec.bothSucceeded cfg (kalshiTicker p) o env d = true ->
     Arb.openArbPositions (Arb.checkArbAndPlaceOrders cfg p env st d).1.1
     = <[kalshiTicker p := ArbSpec.positionOf o]> (Arb.openArbPositions st))
  /\ (forall p env st d o,
        Arb.arbDecision cfg p st = Arb.Enter o ->
        ARB_DRY_RUN cfg = false ->
        ArbSpec.bothSucceeded cfg (kalshiTicker p) o env d = false ->
        let r := Arb.checkArbAndPlaceOrders cfg p env st d in
        Arb.openArbPositions r.1.1 = Arb.openArbPositions st
        /\ ArbSpec.noSells r.2 = true
        /\ (kIsOk (ArbSpec.kalshiResultOf cfg (kalshiTicker p) o env) = false ->
            match ArbSpec.polySettledOf cfg o env d with
            | Fulfilled _ =>
                existsb ArbSpec.isKalshiFailureLog r.2 = true
                /\ Trace.rejectionsOf r.2 = []
            | Rejected reason => Trace.rejectionsOf r.2 = [reason]
            end)
        /\ (ArbSpec.polySucceeded cfg o env d = false ->
            existsb ArbSpec.isPolyFailureLog r.2 = true))
  /\ (forall p env st d t pos,
        Arb.openArbPositions (Arb.checkArbAndPlaceOrders cfg p env st d).1.1 !! t = Some pos ->
        Arb.openArbPositions st !! t <> Some pos ->
        exists o, Arb.arbDecision cfg p st = Arb.Enter o
          /\ ARB_DRY_RUN cfg = false
          /\ t = kalshiTicker p
          /\ pos = ArbSpec.positionOf o
          /\ ArbSpec.bothSucceeded cfg (kalshiTicker p) o env d = true).
Proof.
  split; [|split].
  - intros p env st d o Hdec Hlive Hboth.
    rewrite check_positions, Hdec, Hlive, Hboth. reflexivity.
  - intros p env st d o Hdec Hlive Hboth r.
    split.
    + unfold r. rewrite check_positions, Hdec, Hboth, andb_false_r. reflexivity.
    + unfold r, Arb.checkArbAndPlaceOrders. rewrite Hdec.
      destruct (placeLeg_spec (kalshiTicker p) o env
                  (Arb.markAttempted (kalshiTicker p) (Arb.loLeg o) st) d Hlive)
        as (_ & Hs & Hk & Hp).
      auto.
  - intros p env st d t pos. rewrite check_positions.
    destruct (Arb.arbDecision cfg p st) as [|pos0|l'|o|] eqn:Edec; try congruence.
    + intros H Hn. destruct (decide (kalshiTicker p = t)) as [<-|Hne].
      * rewrite lookup_delete_eq in H. discriminate.
      * rewrite lookup_delete_ne in H by done. congruence.
    + destruct (ARB_DRY_RUN cfg); cbn [negb andb]; [congruence|].
      destruct (ArbSpec.bothSucceeded cfg (kalshiTicker p) o env d) eqn:Hboth; [|congruence].
      intros H Hn. destruct (decide (kalshiTicker p = t)) as [<-|Hne].
      * rewrite lookup_insert_eq in H. injection H as <-. exists o. by repeat split.
      * rewrite lookup_insert_ne in H by done. congruence.
Qed.

End ArbPosition.

(** ** The single retry of a Polymarket buy, in an invocation *)

Section RetryInCheck.

Variable cfg : Config.


End RetryInCheck.



(** The same fill failure with a book that answers: one second buy, at
    the ask 0.46 plus 0.02, sent with the limit price 0.49; with a book
    that shows no ask the second buy is made at 0.99. *)
Example fill_failure_retried_once :
  let r := Arb.checkArbAndPlaceOrders ArbScenario.cfg ArbScenario.bothInBand
             ArbScenario.refilled Arb.initialArbState Scenario.emptyLedger in
  let r0 := Arb.checkArbAndPlaceOrders ArbScenario.cfg ArbScenario.bothInBand
              ArbScenario.bookEmpty Arb.initialArbState Scenario.emptyLedger in
  Trace.delaysOf r.2 = [200]
  /\ Trace.retryPricesOf r.2 = [(dec 46 100 + dec 2 100)%num]
  /\ Trace.polyBuysOf r.2
     = [("tok-down", dec 48 100, ofZ 5); ("tok-down", dec 49 100, ofZ 5)]
  /\ Arb.openArbPositions r.1.1 !! Scenario.ticker1
     = Some (ArbSpec.positionOf ArbScenario.upOrder)
  /\ Trace.retryPricesOf r0.2 = [dec 99 100]
  /\ Trace.polyBuysOf r0.2
     = [("tok-down", dec 48 100, ofZ 5); ("tok-down", dec 99 100, ofZ 5)].
Proof. vm_compute. by repeat split. Qed.

(** The two patterns: both take the venue's fill failure for one, only
    the arbitrage check takes a fill-and-kill failure for one, and neither
    retries a balance failure. *)
Example fill_failure_patterns :
  Arb.isFokNotFilledError (ErrVenue "order couldn't be fully filled or killed") = true
  /\ Strategy.isFokError (ErrVenue "order couldn't be fully filled or killed") = true
  /\ Arb.isFokNotFilledError (ErrVenue "FAK order not matched") = true
  /\ Strategy.isFokError (ErrVenue "FAK order not matched") = false
  /\ Arb.isFokNotFilledError (ErrVenue "not enough balance / allowance") = false
  /\ Strategy.isFokError (ErrVenue "not enough balance / allowance") = false.
Proof. vm_compute. by repeat split. Qed.
(** ** Follow-confidence strategy: the exit *)

Section StrategyExit.

Import Strategy.

Variable cfg : Config.

Lemma leb_ltb_false (a r : num) : JsNum.leb a r = true -> JsNum.ltb r a = false.
Proof.
  destruct a, r; simpl; try reflexivity; try discriminate.
  rewrite bool_decide_eq_true, bool_decide_eq_false. apply Qcle_not_lt.
Qed.

Lemma floor_ge_one (q : Qc) :
  (fl (Q2Qc (1 # 100)) <= q)%Qc -> (1 <= floorQc (fl (q * Q2Qc (inject_Z 100))%Qc))%Z.
Proof.
  intros H. unfold floorQc.
  assert (Hc : (Q2Qc (1 # 100) <= fl (Q2Qc (1 # 100)))%Qc) by (by vm_compute).
  assert (Hm : (Q2Qc (inject_Z 1) <= q * Q2Qc (inject_Z 100))%Qc).
  { replace (Q2Qc (inject_Z 1)) with (Q2Qc (1 # 100) * Q2Qc (inject_Z 100))%Qc
      by (apply Qc_is_canon; reflexivity).
    apply Qcmult_le_compat_r; [|by vm_compute].
    eapply Qcle_trans; eassumption. }
  assert (H1 : (fl (Q2Qc (inject_Z 1)) <= fl (q * Q2Qc (inject_Z 100)))%Qc)
    by (apply fl_mono_pos; [by vm_compute | exact Hm]).
  replace (fl (Q2Qc (inject_Z 1))) with (Q2Qc (inject_Z 1)) in H1
    by (apply Qc_is_canon; by vm_compute).
  unfold Qcle in H1. apply Qfloor_resp_le in H1. exact H1.
Qed.

Lemma div100_ge (z : Z) :
  (1 <= z)%Z ->
  ~ (fl (Q2Qc (inject_Z z) / Q2Qc (inject_Z 100)) < fl (Q2Qc (1 # 100)))%Qc.
Proof.
  intros Hz Hlt. apply Qclt_not_le in Hlt. apply Hlt.
  apply fl_mono_pos; [by vm_compute|].
  change (Q2Qc (1 # 100) <= Q2Qc (inject_Z z) / Q2Qc (inject_Z 100))%Qc.
  replace (Q2Qc (1 # 100)) with (Q2Qc (inject_Z 1) / Q2Qc (inject_Z 100))%Qc
    by (apply Qc_is_canon; reflexivity).
  unfold Qcdiv. apply Qcmult_le_compat_r; [|by vm_compute].
  unfold Qcle. simpl. rewrite !Qred_correct. rewrite <- Zle_Qle. exact Hz.
Qed.

(** The size of a sell attempt is never below one hundredth of a share:
    the branch [Sell skipped] of the loop is not taken. *)
Lemma sellSizeOf_not_below (balanceHuman positionSize : num) :
  (sellSizeOf balanceHuman positionSize <? dec 1 100)%num = false.
Proof.
  unfold sellSizeOf. destruct (balanceHuman >=? dec 1 100)%num eqn:Hb.
  - destruct balanceHuman as [q| | |]; try discriminate; [|reflexivity].
    unfold JsNum.geb in Hb. simpl in Hb. apply bool_decide_eq_true in Hb.
    pose proof (floor_ge_one q Hb) as Hz.
    unfold JsNum.mul, ofZ, JsNum.floor, JsNum.div.
    rewrite bool_decide_eq_false_2 by (by vm_compute).
    unfold dec, JsNum.ltb. apply bool_decide_eq_false. by apply div100_ge.
  - set (x := (JsNum.floor ((positionSize - dec 2 100) * ofZ 100) / ofZ 100)%num).
    destruct x as [q| | |]; try reflexivity.
    unfold JsNum.max. destruct (JsNum.leb (dec 1 100) (Fin q)) eqn:Hle.
    + by apply leb_ltb_false.
    + apply ltb_irrefl.
Qed.

Lemma exitAttempted_app (a b : list Event) :
  StratSpec.exitAttempted (a ++ b) = StratSpec.exitAttempted a || StratSpec.exitAttempted b.
Proof. apply existsb_app. Qed.

Lemma sellSucceeded_app (a b : list Event) :
  StratSpec.sellSucceeded (a ++ b) = StratSpec.sellSucceeded a || StratSpec.sellSucceeded b.
Proof. apply existsb_app. Qed.

Lemma abandoned_app (a b : list Event) :
  StratSpec.abandoned (a ++ b) = StratSpec.abandoned a || StratSpec.abandoned b.
Proof. apply existsb_app. Qed.

(** The events of the venue call itself. *)
Lemma sellPolymarketOrder_trace tokenId size options clob :
  let evs := (sellPolymarketOrder cfg tokenId size options clob).2 in
  StratSpec.exitAttempted evs = false /\ StratSpec.sellSucceeded evs = false
  /\ StratSpec.abandoned evs = false.
Proof. unfold sellPolymarketOrder. repeat case_match; simpl; done. Qed.

Lemma ensure_trace env c :
  let evs := (ensureProxyBalanceScheduledOrFetched cfg env c).2 in
  StratSpec.exitAttempted evs = false /\ StratSpec.sellSucceeded evs = false
  /\ StratSpec.abandoned evs = false.
Proof.
  unfold ensureProxyBalanceScheduledOrFetched.
  destruct (bool_decide _); destruct (balanceFetchTimeoutId c);
    cbn [balanceFetchScheduled]; repeat case_match; simpl; done.
Qed.

(** One turn of the loop, with the dead branch removed. *)
Lemma sellLoop_step ticker price thr buffered env fuel attempt st d pos :
  position st = Some pos ->
  (attempt <= SELL_MAX_ATTEMPTS)%nat ->
  exists announce sEvs,
    StratSpec.exitAttempted announce = true
    /\ StratSpec.sellSucceeded (announce ++ sEvs) = false
    /\ StratSpec.abandoned (announce ++ sEvs) = false
    /\ sellLoop cfg ticker price thr buffered env (S fuel) attempt st d
       = match StratSpec.sellResultAt cfg pos env attempt with
         | POk _ =>
             (cycleDone ticker st, clearMarketHoldings (conditionId pos) d,
              announce ++ sEvs
              ++ [EvLog (LStratSellSuccessful
                           (sellSizeOf (getProxyTokenBalanceHuman cfg (sellTry env attempt).1)
                              (size pos)))])
         | PErr e =>
             if (attempt <? SELL_MAX_ATTEMPTS)%nat then
               let r := sellLoop cfg ticker price thr buffered env fuel (S attempt) st d in
               (r.1.1, r.1.2,
                announce ++ sEvs
                ++ [EvLog (LStratSellFailed attempt e); EvLog (LStratWillRetry attempt);
                    EvDelay SELL_RETRY_DELAY_MS] ++ r.2)
             else
               (cycleDone ticker st, d,
                announce ++ sEvs
                ++ [EvLog (LStratSellFailed attempt e); EvLog LStratClearingAfterMax])
         | PNull =>
             let r := sellLoop cfg ticker price thr buffered env fuel (S attempt) st d in
             (r.1.1, r.1.2, announce ++ sEvs ++ r.2)
         end.
Proof.
  intros Hpos Hle. cbn [sellLoop]. rewrite Hpos.
  apply Nat.leb_le in Hle. rewrite Hle.
  unfold StratSpec.sellResultAt, StratSpec.sellOptions.
  destruct (sellTry env attempt) as [onChain clob]. cbn [fst snd].
  rewrite sellSizeOf_not_below.
  set (sz := sellSizeOf (getProxyTokenBalanceHuman cfg onChain) (size pos)).
  pose proof (sellPolymarketOrder_trace (tokenId pos) sz
                {| tickSize := None; negRisk := None; forcePlace := true;
                   PolyOrder.conditionId := Some (conditionId pos) |} clob)
    as (T1 & T2 & T3).
  destruct (sellPolymarketOrder cfg (tokenId pos) sz _ clob) as [result sEvs].
  cbn [fst snd] in *.
  eexists _, sEvs. split; [|split; [|split]]; cycle 3.
  - destruct result as [oid|e|].
    + reflexivity.
    + destruct (attempt <? SELL_MAX_ATTEMPTS)%nat; [|reflexivity].
      destruct (sellLoop cfg ticker price thr buffered env fuel (S attempt) st d)
        as [[st' d'] evs']. reflexivity.
    + destruct (sellLoop cfg ticker price thr buffered env fuel (S attempt) st d)
        as [[st' d'] evs']. reflexivity.
  - rewrite exitAttempted_app. apply orb_true_r.
  - rewrite !sellSucceeded_app, T2. by destruct (_ && _ && _).
  - rewrite !abandoned_app, T3. by destruct (_ && _ && _).
Qed.

Lemma sellLoop_stop ticker price thr buffered env fuel attempt st d :
  (SELL_MAX_ATTEMPTS < attempt)%nat ->
  sellLoop cfg ticker price thr buffered env fuel attempt st d = (st, d, []).
Proof.
  intros Hgt. destruct fuel as [|fuel]; [reflexivity|]. cbn [sellLoop].
  destruct (position st); [|reflexivity].
  apply Nat.leb_gt in Hgt. by rewrite Hgt.
Qed.


(** What a successful sell leaves, read off the trace. *)
Lemma sellLoop_sold ticker price thr buffered env fuel : forall attempt st d pos,
  position st = Some pos ->
  let r := sellLoop cfg ticker price thr buffered env fuel attempt st d in
  (StratSpec.sellSucceeded r.2 = true ->
   r.1.1 = cycleDone ticker st /\ r.1.2 = clearMarketHoldings (conditionId pos) d)
  /\ (StratSpec.sellSucceeded r.2 = false -> r.1.2 = d).
Proof.
  induction fuel as [|fuel IH]; intros attempt st d pos Hpos r.
  - unfold r. simpl. split; [discriminate|reflexivity].
  - destruct (Nat.le_gt_cases attempt SELL_MAX_ATTEMPTS) as [Hle|Hgt].
    + unfold r.
      destruct (sellLoop_step ticker price thr buffered env fuel attempt st d pos Hpos Hle)
        as (announce & sEvs & _ & Hs & _ & ->).
      rewrite sellSucceeded_app in Hs. apply orb_false_iff in Hs as [Hs1 Hs2].
      specialize (IH (S attempt) st d pos Hpos). cbn zeta in IH.
      destruct (StratSpec.sellResultAt cfg pos env attempt) as [oid|e|].
      * cbn [fst snd]. split; [done|].
        rewrite !sellSucceeded_app, Hs1, Hs2. discriminate.
      * destruct (attempt <? SELL_MAX_ATTEMPTS)%nat; cbn [fst snd].
        -- rewrite !sellSucceeded_app, Hs1, Hs2. exact IH.
        -- rewrite !sellSucceeded_app, Hs1, Hs2. split; [discriminate|reflexivity].
      * cbn [fst snd]. rewrite !sellSucceeded_app, Hs1, Hs2. exact IH.
    + unfold r. rewrite sellLoop_stop by exact Hgt. simpl.
      split; [discriminate|reflexivity].
Qed.



(** An evaluation that starts while holding runs the exit rule on the
    held position. *)
Lemma check_holding p env st d k pm pos :
  StratSpec.holdingTick p st k pm pos ->
  checkKalshi1PolyStrategy cfg p env st d
  = let c := ensureProxyBalanceScheduledOrFetched cfg env (cache st) in
    let st2 := withCache c.1 (onNewTicker (kalshiTicker p) (withBusy true st)) in
    let r := manageExit cfg (kalshiTicker p) (upAskCents k / ofZ 100)%num
               (downAskCents k / ofZ 100)%num (upAsk pm) (downAsk pm) pos env st2 d in
    (withBusy false r.1.1, r.1.2, c.2 ++ r.2).
Proof.
  intros (Hk & Hpm & Hbusy & Hlast & Hpos).
  unfold checkKalshi1PolyStrategy. rewrite Hk, Hpm, Hbusy.
  cbn [cache onNewTicker withBusy].
  destruct (ensureProxyBalanceScheduledOrFetched cfg env (cache st)) as [c bEvs].
  cbn [position withCache onNewTicker withBusy lastTicker fst snd]. rewrite Hlast, Hpos.
  rewrite bool_decide_eq_true_2 by done. cbn [negb].
  destruct (manageExit _ _ _ _ _ _ _ _ _ _) as [[st3 d3] evs]. reflexivity.
Qed.

Lemma held_state_position p st c pos :
  lastTicker st = Some (kalshiTicker p) -> position st = Some pos ->
  position (withCache c (onNewTicker (kalshiTicker p) (withBusy true st))) = Some pos.
Proof.
  intros Hlast Hpos. cbn [position withCache onNewTicker withBusy lastTicker].
  rewrite Hlast, Hpos. by rewrite bool_decide_eq_true_2.
Qed.

Lemma manageExit_unfold ticker k pm pos env st d :
  manageExit cfg ticker (upAskCents k / ofZ 100)%num (downAskCents k / ofZ 100)%num
    (upAsk pm) (downAsk pm) pos env st d
  = let threshold := effectiveSellThreshold cfg (StratSpec.kalshiSameSide pos k) in
    if (StratSpec.heldPrice pos pm <? threshold)%num then
      if negb (KALSHI_1_POLY_DRY_RUN cfg) then
        sellLoop cfg ticker (StratSpec.heldPrice pos pm) threshold
          (StratSpec.kalshiSameSide pos k >=? one)%num env SELL_MAX_ATTEMPTS 1%nat st d
      else (cycleDone ticker st, d, [])
    else (st, d, []).
Proof.
  unfold manageExit, StratSpec.heldPrice, StratSpec.kalshiSameSide.
  destruct (side pos); reflexivity.
Qed.

(** ** The sell requests of the exit *)









End StrategyExit.

Section StrategyExitClaims.

Import Strategy.

Variable cfg : Config.

Lemma ledgerHas_clear (cid : string) (d : Disk) :
  StratSpec.ledgerHas (clearMarketHoldings cid d) cid
  = StratSpec.ledgerHas d cid && negb (writable d).
Proof.
  unfold StratSpec.ledgerHas, clearMarketHoldings.
  destruct (loadHoldings d !! cid) eqn:E; [|by rewrite E].
  unfold saveHoldings. destruct (writable d); cbn [negb andb].
  - unfold loadHoldings at 1. cbn [holdingsFile]. by rewrite lookup_delete_eq.
  - by rewrite E.
Qed.




End StrategyExitClaims.

Section StrategyExitInstances.

Import Strategy.




End StrategyExitInstances.

(** ** Follow-confidence strategy: the entry and the ledger *)

Section StrategyEntry.

Import Strategy.

Variable cfg : Config.

Lemma truthy_true (s : string) : truthy s = true <-> s <> "".
Proof.
  unfold truthy. rewrite negb_true_iff, bool_decide_eq_false. done.
Qed.

Lemma saveHoldings_writable h d : writable (saveHoldings h d) = writable d.
Proof. unfold saveHoldings. by destruct (writable d) eqn:E. Qed.

Lemma loadHoldings_save h d :
  writable d = true -> loadHoldings (saveHoldings h d) = h.
Proof. intros Hw. unfold saveHoldings. rewrite Hw. reflexivity. Qed.

Lemma addHolding_writable cid tok amount d :
  writable (addHolding cid tok amount d) = writable d.
Proof.
  unfold addHolding. destruct (_ || _ || _); [reflexivity|]. apply saveHoldings_writable.
Qed.

Lemma clearMarketHoldings_writable cid d :
  writable (clearMarketHoldings cid d) = writable d.
Proof.
  unfold clearMarketHoldings. destruct (_ !! _); [|reflexivity]. apply saveHoldings_writable.
Qed.

Lemma ledgerAmount_finite d cid tok : exists c, ledgerAmount d cid tok = Fin c.
Proof.
  unfold ledgerAmount, currentAmount.
  destruct (getMarketHoldings cid d !! tok) as [[q|]|]; eauto.
Qed.

(** One booking of a positive finite quantity adds it to the ledger. *)
Lemma addHolding_amount cid tok (q : Qc) d :
  cid <> "" -> tok <> "" -> (0 < q)%Qc -> writable d = true ->
  ledgerAmount (addHolding cid tok (Fin q) d) cid tok
  = (ledgerAmount d cid tok + Fin q)%num
  /\ StratSpec.ledgerHas (addHolding cid tok (Fin q) d) cid = true.
Proof.
  intros Hc Ht Hq Hw. unfold addHolding.
  apply truthy_true in Hc, Ht. rewrite Hc, Ht. cbn [negb orb].
  assert (Hpos : (Fin q <=? zero)%num = false).
  { unfold JsNum.leb, zero, ofZ. apply bool_decide_eq_false. by apply Qclt_not_le. }
  rewrite Hpos.
  unfold ledgerAmount, getMarketHoldings, StratSpec.ledgerHas.
  rewrite !loadHoldings_save by exact Hw. rewrite !lookup_insert_eq.
  split; [|reflexivity].
  unfold currentAmount at 1. rewrite lookup_insert_eq.
  destruct (currentAmount _ tok) as [c| | |] eqn:Ecur; try reflexivity;
    unfold currentAmount in Ecur; repeat case_match; discriminate.
Qed.

(** What a call of [placePolymarketOrder] does to the ledger. *)
Lemma placePolymarketOrder_disk tokenId price size options clob d :
  (placePolymarketOrder cfg tokenId price size options clob d).1.2
  = if isOk (placePolymarketOrder cfg tokenId price size options clob d).1.1
    then (if truthyOpt (PolyOrder.conditionId options)
          then addHolding (match PolyOrder.conditionId options with
                           | Some c => c | None => "" end) tokenId size d
          else d)
    else d.
Proof.
  unfold placePolymarketOrder.
  destruct (negb (configured cfg)); [reflexivity|].
  destruct (ARB_DRY_RUN cfg && negb (forcePlace options)); [reflexivity|].
  destruct (price * size <? minUsdOf cfg)%num; [reflexivity|].
  destruct clob as [text|text|orderId errMsg]; [reflexivity| |].
  - destruct (_ <? minUsdOf cfg)%num; reflexivity.
  - destruct (_ <? minUsdOf cfg)%num; [reflexivity|].
    destruct (truthyOpt errMsg || negb (truthyOpt orderId)); [reflexivity|].
    cbn [fst snd isOk]. reflexivity.
Qed.

(** A buy that ends in success booked its size once; a buy that fails
    or is cut short by a rejection leaves the ledger as it was. *)
Lemma placePolyBuyWithRetry_disk tokenId price size cid env d :
  cid <> "" ->
  let options := {| tickSize := None; negRisk := None; forcePlace := true;
                    PolyOrder.conditionId := Some cid |} in
  let r := placePolyBuyWithRetry cfg tokenId price size options env d in
  r.1.2 = match r.1.1 with
          | Fulfilled result => if isOk result then addHolding cid tokenId size d else d
          | Rejected _ => d
          end.
Proof.
  intros Hc options r. unfold r. rewrite placePolyBuyWithRetry_cases. cbn zeta.
  apply truthy_true in Hc.
  pose proof (placePolymarketOrder_disk tokenId price size options
                (buyFirst env) d) as H1.
  fold (RetrySpec.stratFirst cfg tokenId price size options env d) in H1.
  cbn [options PolyOrder.conditionId truthyOpt] in H1. rewrite Hc in H1.
  assert (forall ask,
            (RetrySpec.stratSecond cfg tokenId price size options env d
               (retryPrice ask)).1.2
            = if isOk (RetrySpec.stratSecond cfg tokenId price size options env d
                         (retryPrice ask)).1.1
              then addHolding cid tokenId size
                     (RetrySpec.stratFirst cfg tokenId price size options env d).1.2
              else (RetrySpec.stratFirst cfg tokenId price size options env d).1.2) as H2.
  { intros ask. unfold RetrySpec.stratSecond.
    rewrite placePolymarketOrder_disk.
    cbn [options PolyOrder.conditionId truthyOpt]. by rewrite Hc. }
  revert H1 H2.
  generalize (RetrySpec.stratSecond cfg tokenId price size options env d).
  intros second.
  generalize (RetrySpec.stratFirst cfg tokenId price size options env d).
  intros [[r1 d1] evs1]. cbn [fst snd]. intros -> H2.
  destruct r1 as [oid|e|]; cbn [isOk fst snd] in *; try reflexivity.
  destruct (isFokError e); cbn [isOk fst snd]; [|reflexivity].
  destruct (bestAskNow env) as [ask|reason]; cbn [fst snd]; [|reflexivity].
  apply H2.
Qed.

Lemma updatePositionSizeFromBalance_position env st pos :
  position st = Some pos ->
  exists pos', position (updatePositionSizeFromBalance cfg env st).1 = Some pos'
    /\ side pos' = side pos /\ tokenId pos' = tokenId pos
    /\ conditionId pos' = conditionId pos.
Proof.
  intros Hpos. unfold updatePositionSizeFromBalance. rewrite Hpos. cbn [fst position withPosition].
  eexists. split; [reflexivity|]. by destruct (_ >=? _)%num.
Qed.

(** The body of an entry: a position appears only after a successful
    live buy, and then the size was booked a second time. *)
Lemma enter_position s ticker kp pp pm env st d pos' :
  position st = None ->
  DualMonitor.conditionId pm <> "" ->
  let token := match s with UP => upTokenId pm | DOWN => downTokenId pm end in
  let size := (buySize cfg (nowMs env) (cache st)).1 in
  let r := enter cfg s ticker kp pp pm env st d in
  position r.1.1 = Some pos' ->
  KALSHI_1_POLY_DRY_RUN cfg = false
  /\ side pos' = s /\ tokenId pos' = token
  /\ conditionId pos' = DualMonitor.conditionId pm
  /\ r.1.2 = addHolding (DualMonitor.conditionId pm) token size
               (addHolding (DualMonitor.conditionId pm) token size d).
Proof.
  intros Hnone Hc. cbn zeta. unfold enter.
  set (token := match s with UP => upTokenId pm | DOWN => downTokenId pm end).
  destruct (buySize cfg (nowMs env) (cache st)) as [sz sizeEvs]. cbn [fst].
  destruct (KALSHI_1_POLY_DRY_RUN cfg); cbn [negb fst snd]; [congruence|].
  pose proof (placePolyBuyWithRetry_disk token pp sz (DualMonitor.conditionId pm) env d Hc)
    as Hd. cbn zeta in Hd.
  destruct (placePolyBuyWithRetry cfg token pp sz _ env d) as [[result d1] bEvs].
  cbn [fst snd] in Hd.
  destruct result as [[oid|e|]|reason]; cbn [isOk] in Hd; subst d1.
  - set (st1 := {| position := Some _ |}).
    destruct (updatePositionSizeFromBalance_position env st1 _ eq_refl)
      as (pos1 & Hp1 & Hs & Ht & Hcid).
    destruct (updatePositionSizeFromBalance cfg env st1) as [st2 uEvs].
    cbn [fst snd] in *. rewrite Hp1. intros [= <-]. done.
  - cbn [fst]. congruence.
  - cbn [fst]. congruence.
  - cbn [fst]. congruence.
Qed.

(** An evaluation that starts without a position ends with one only by
    running the body of an entry. *)
Lemma seekEntry_position ticker k pm env st d pos' :
  position st = None ->
  position (seekEntry cfg ticker k pm env st d).1.1 = Some pos' ->
  exists s kp pp st2,
    position st2 = None /\ cache st2 = cache st
    /\ position (enter cfg s ticker kp pp pm env st2 d).1.1 = Some pos'
    /\ (seekEntry cfg ticker k pm env st d).1.2 = (enter cfg s ticker kp pp pm env st2 d).1.2.
Proof.
  intros Hnone. unfold seekEntry.
  set (st1 := {| position := position st |}).
  destruct (bool_decide (ticker ∈ skippedTickers st1)); cbn [fst snd position];
    [unfold st1; cbn [position]; congruence|].
  set (st2 := {| position := position st1 |}).
  destruct (bool_decide (cycleDoneTicker st2 = Some ticker)); cbn [fst snd position];
    [unfold st2, st1; cbn [position]; congruence|].
  destruct (_ && _ && _).
  - destruct (enter cfg UP ticker _ _ pm env st2 d) as [[st3 d3] evs3] eqn:E.
    cbn [fst snd]. intros Hp. eexists UP, _, _, st2. rewrite E. cbn [fst snd].
    repeat split; try done.
  - destruct (_ && _ && _).
    + destruct (enter cfg DOWN ticker _ _ pm env st2 d) as [[st3 d3] evs3] eqn:E.
      cbn [fst snd]. intros Hp. eexists DOWN, _, _, st2. rewrite E. cbn [fst snd].
      repeat split; try done.
    + cbn [fst snd]. unfold st2, st1; cbn [position]. congruence.
Qed.

Lemma check_entry_position p env st d k pm pos' :
  kalshi p = Some k -> polymarket p = Some pm ->
  strategyBusy st = false -> position st = None ->
  DualMonitor.conditionId pm <> "" ->
  let r := checkKalshi1PolyStrategy cfg p env st d in
  position r.1.1 = Some pos' ->
  KALSHI_1_POLY_DRY_RUN cfg = false
  /\ tokenId pos' = match side pos' with UP => upTokenId pm | DOWN => downTokenId pm end
  /\ conditionId pos' = DualMonitor.conditionId pm
  /\ r.1.2 = addHolding (DualMonitor.conditionId pm) (tokenId pos')
               (StratSpec.entrySize cfg env st)
               (addHolding (DualMonitor.conditionId pm) (tokenId pos')
                  (StratSpec.entrySize cfg env st) d).
Proof.
  intros Hk Hpm Hbusy Hnone Hc r. unfold r, checkKalshi1PolyStrategy, StratSpec.entrySize.
  rewrite Hk, Hpm, Hbusy. cbn [cache onNewTicker withBusy].
  destruct (ensureProxyBalanceScheduledOrFetched cfg env (cache st)) as [c bEvs].
  cbn [fst]. set (st2 := withCache c _).
  assert (Hp2 : position st2 = None).
  { unfold st2. cbn [position withCache onNewTicker withBusy]. rewrite Hnone.
    by destruct (match lastTicker st with Some _ => _ | None => _ end). }
  rewrite Hp2.
  pose proof (seekEntry_position (kalshiTicker p) k pm env st2 d pos' Hp2) as Hseek.
  destruct (seekEntry cfg (kalshiTicker p) k pm env st2 d) as [[st3 d3] evs].
  cbn [fst snd position withBusy] in *. intros Hpos.
  destruct (Hseek Hpos) as (s & kp & pp & st' & Hn' & Hcache & Hpe & ->).
  destruct (enter_position s (kalshiTicker p) kp pp pm env st' d pos' Hn' Hc Hpe)
    as (Hlive & Hs & Ht & Hcid & Hd).
  rewrite Hd, Hcache, Ht. subst s. unfold st2. cbn [cache withCache]. done.
Qed.

(** C2 — A successful live entry buy of size [s] raises the ledger
    quantity of the market's conditionId and token by [2 * s]:
    [placePolymarketOrder] books [s] and the strategy books [s] again. *)
Theorem entry_buy_books_size_twice
    (p : DualMarketPrices) (env : StratEnv) (st : StratState) (d : Disk)
    (k : MarketPrices) (pm : PolymarketPrices) (pos' : Position) (s : Qc) :
  kalshi p = Some k -> polymarket p = Some pm ->
  strategyBusy st = false -> position st = None ->
  DualMonitor.conditionId pm <> "" -> upTokenId pm <> "" -> downTokenId pm <> "" ->
  writable d = true ->
  StratSpec.entrySize cfg env st = Fin s -> (0 < s)%Qc ->
  position (checkKalshi1PolyStrategy cfg p env st d).1.1 = Some pos' ->
  KALSHI_1_POLY_DRY_RUN cfg = false
  /\ tokenId pos' = match side pos' with UP => upTokenId pm | DOWN => downTokenId pm end
  /\ conditionId pos' = DualMonitor.conditionId pm
  /\ ledgerAmount (checkKalshi1PolyStrategy cfg p env st d).1.2
       (DualMonitor.conditionId pm) (tokenId pos')
     = (ledgerAmount d (DualMonitor.conditionId pm) (tokenId pos') + Fin s + Fin s)%num
  /\ StratSpec.ledgerHas (checkKalshi1PolyStrategy cfg p env st d).1.2
       (DualMonitor.conditionId pm) = true.
Proof.
  intros Hk Hpm Hbusy Hnone Hc Hup Hdown Hw Hsize Hs Hpos.
  destruct (check_entry_position p env st d k pm pos' Hk Hpm Hbusy Hnone Hc Hpos)
    as (Hlive & Ht & Hcid & Hd).
  split; [exact Hlive|]. split; [exact Ht|]. split; [exact Hcid|].
  assert (Htok : tokenId pos' <> "") by (rewrite Ht; by destruct (side pos')).
  rewrite Hd, Hsize.
  destruct (addHolding_amount (DualMonitor.conditionId pm) (tokenId pos') s d Hc Htok Hs Hw)
    as [A1 _].
  destruct (addHolding_amount (DualMonitor.conditionId pm) (tokenId pos') s
              (addHolding (DualMonitor.conditionId pm) (tokenId pos') (Fin s) d)
              Hc Htok Hs) as [A2 L2]; [by rewrite addHolding_writable|].
  rewrite A2, A1. done.
Qed.

End StrategyEntry.

(** ** Buy, then sell: the ledger *)

Section StrategyRoundTrip.

Import Strategy.

Variable cfg : Config.

(** An evaluation whose trace reports a successful sell cleared the
    position, marked the ticker and ran [clearMarketHoldings]. *)
Lemma check_sold p env st d k pm pos :
  StratSpec.holdingTick p st k pm pos ->
  StratSpec.sellSucceeded (checkKalshi1PolyStrategy cfg p env st d).2 = true ->
  position (checkKalshi1PolyStrategy cfg p env st d).1.1 = None
  /\ cycleDoneTicker (checkKalshi1PolyStrategy cfg p env st d).1.1 = Some (kalshiTicker p)
  /\ (checkKalshi1PolyStrategy cfg p env st d).1.2
     = clearMarketHoldings (conditionId pos) d.
Proof.
  intros Hhold. rewrite (check_holding cfg p env st d k pm pos Hhold). cbn zeta.
  destruct Hhold as (_ & _ & _ & Hlast & Hpos).
  rewrite manageExit_unfold. cbn zeta. cbn [snd fst].
  rewrite sellSucceeded_app.
  destruct (ensure_trace cfg env (cache st)) as (_ & -> & _). cbn [orb].
  set (st2 := withCache _ _).
  assert (Hpos2 : position st2 = Some pos) by (by apply held_state_position).
  destruct (StratSpec.heldPrice pos pm <? _)%num; [|discriminate].
  destruct (negb (KALSHI_1_POLY_DRY_RUN cfg)); [|discriminate].
  intros Hs.
  destruct (sellLoop_sold cfg (kalshiTicker p) (StratSpec.heldPrice pos pm)
              (effectiveSellThreshold cfg (StratSpec.kalshiSameSide pos k))
              (StratSpec.kalshiSameSide pos k >=? one)%num env SELL_MAX_ATTEMPTS
              1%nat st2 d pos Hpos2) as [Hsold _].
  destruct (Hsold Hs) as [-> ->]. done.
Qed.

(** C10 — Round trip of the ledger.  A successful entry buy followed by a
    successful sell of the position leaves the ledger without an entry for
    the settlement id (the key is deleted), although the buy had created
    one; the position is cleared and the ticker is cycle-done. *)
Theorem buy_then_sell_leaves_no_ledger_entry
    (p1 p2 : DualMarketPrices) (env1 env2 : StratEnv) (st : StratState) (d : Disk)
    (k1 k2 : MarketPrices) (pm1 pm2 : PolymarketPrices) (pos : Position) (s : Qc) :
  kalshi p1 = Some k1 -> polymarket p1 = Some pm1 ->
  strategyBusy st = false -> position st = None ->
  DualMonitor.conditionId pm1 <> "" -> upTokenId pm1 <> "" -> downTokenId pm1 <> "" ->
  writable d = true ->
  StratSpec.entrySize cfg env1 st = Fin s -> (0 < s)%Qc ->
  position (checkKalshi1PolyStrategy cfg p1 env1 st d).1.1 = Some pos ->
  StratSpec.holdingTick p2 (checkKalshi1PolyStrategy cfg p1 env1 st d).1.1 k2 pm2 pos ->
  StratSpec.sellSucceeded
    (checkKalshi1PolyStrategy cfg p2 env2
       (checkKalshi1PolyStrategy cfg p1 env1 st d).1.1
       (checkKalshi1PolyStrategy cfg p1 env1 st d).1.2).2 = true ->
  StratSpec.ledgerHas (checkKalshi1PolyStrategy cfg p1 env1 st d).1.2 (conditionId pos) = true
  /\ StratSpec.ledgerHas
       (checkKalshi1PolyStrategy cfg p2 env2
          (checkKalshi1PolyStrategy cfg p1 env1 st d).1.1
          (checkKalshi1PolyStrategy cfg p1 env1 st d).1.2).1.2 (conditionId pos) = false
  /\ position
       (checkKalshi1PolyStrategy cfg p2 env2
          (checkKalshi1PolyStrategy cfg p1 env1 st d).1.1
          (checkKalshi1PolyStrategy cfg p1 env1 st d).1.2).1.1 = None.
Proof.
  intros Hk Hpm Hbusy Hnone Hc Hup Hdown Hw Hsize Hs Hpos Hhold Hsold.
  destruct (check_entry_position cfg p1 env1 st d k1 pm1 pos Hk Hpm Hbusy Hnone Hc Hpos)
    as (_ & Ht & Hcid & Hd).
  assert (Htok : tokenId pos <> "") by (rewrite Ht; by destruct (side pos)).
  destruct (check_sold p2 env2 _ _ k2 pm2 pos Hhold Hsold) as (P & _ & D).
  rewrite D, P. rewrite ledgerHas_clear.
  rewrite Hd, Hsize, Hcid.
  destruct (addHolding_amount (DualMonitor.conditionId pm1) (tokenId pos) s
              (addHolding (DualMonitor.conditionId pm1) (tokenId pos) (Fin s) d)
              Hc Htok Hs) as [_ L]; [by rewrite addHolding_writable|].
  rewrite L, !addHolding_writable, Hw. done.
Qed.

End StrategyRoundTrip.

Section StrategyEntryInstances.

Import Strategy.

(** C2 at the entry scenario: five shares bought at 0.82 on an empty
    ledger leave ten booked. *)
Lemma entry_scenario_books_ten :
  kalshi Scenario.entrySnapshot = Some Scenario.kalshiUpAtOne
  /\ polymarket Scenario.entrySnapshot = Some Scenario.polyFollowing
  /\ StratSpec.entrySize Scenario.cfg77 Scenario.envThirdAccepted Scenario.watchingState
     = Fin (Q2Qc (inject_Z 5))
  /\ ledgerAmount
       (checkKalshi1PolyStrategy Scenario.cfg77 Scenario.entrySnapshot
          Scenario.envThirdAccepted Scenario.watchingState Scenario.emptyLedger).1.2
       "0xc0nd" "tok-up"
     = (ledgerAmount Scenario.emptyLedger "0xc0nd" "tok-up"
        + Fin (Q2Qc (inject_Z 5)) + Fin (Q2Qc (inject_Z 5)))%num.
Proof.
  split; [reflexivity|]. split; [reflexivity|].
  assert (Hsize : StratSpec.entrySize Scenario.cfg77 Scenario.envThirdAccepted
                    Scenario.watchingState = Fin (Q2Qc (inject_Z 5)))
    by (vm_compute; reflexivity).
  split; [exact Hsize|].
  destruct (position (checkKalshi1PolyStrategy Scenario.cfg77 Scenario.entrySnapshot
                        Scenario.envThirdAccepted Scenario.watchingState
                        Scenario.emptyLedger).1.1) as [pos|] eqn:Epos.
  - assert (Hc : DualMonitor.conditionId Scenario.polyFollowing <> "") by discriminate.
    assert (Hu : upTokenId Scenario.polyFollowing <> "") by discriminate.
    assert (Hd : downTokenId Scenario.polyFollowing <> "") by discriminate.
    assert (Hs : (0 < Q2Qc (inject_Z 5))%Qc) by (vm_compute; reflexivity).
    destruct (entry_buy_books_size_twice Scenario.cfg77 Scenario.entrySnapshot
                Scenario.envThirdAccepted Scenario.watchingState Scenario.emptyLedger
                Scenario.kalshiUpAtOne Scenario.polyFollowing pos (Q2Qc (inject_Z 5))
                eq_refl eq_refl eq_refl eq_refl Hc Hu Hd eq_refl Hsize Hs Epos)
      as (_ & Ht & _ & Hl & _).
    assert (Hside : tokenId pos = "tok-up").
    { revert Epos. vm_compute. intros [= <-]. reflexivity. }
    rewrite Hside in Hl. exact Hl.
  - exfalso. revert Epos. vm_compute. discriminate.
Defined.

(** C10 at the scenario: the entry above, then the exit snapshot with the
    third sell accepted. *)
Lemma round_trip_scenario :
  StratSpec.ledgerHas
    (checkKalshi1PolyStrategy Scenario.cfg77 Scenario.entrySnapshot
       Scenario.envThirdAccepted Scenario.watchingState Scenario.emptyLedger).1.2
    "0xc0nd" = true
  /\ StratSpec.ledgerHas
       (checkKalshi1PolyStrategy Scenario.cfg77 Scenario.exitSnapshot Scenario.envThirdAccepted
          (checkKalshi1PolyStrategy Scenario.cfg77 Scenario.entrySnapshot
             Scenario.envThirdAccepted Scenario.watchingState Scenario.emptyLedger).1.1
          (checkKalshi1PolyStrategy Scenario.cfg77 Scenario.entrySnapshot
             Scenario.envThirdAccepted Scenario.watchingState Scenario.emptyLedger).1.2).1.2
       "0xc0nd" = false.
Proof.
  destruct (position (checkKalshi1PolyStrategy Scenario.cfg77 Scenario.entrySnapshot
                        Scenario.envThirdAccepted Scenario.watchingState
                        Scenario.emptyLedger).1.1) as [pos|] eqn:Epos.
  - assert (Hcid : conditionId pos = "0xc0nd").
    { revert Epos. vm_compute. intros [= <-]. reflexivity. }
    assert (Hc : DualMonitor.conditionId Scenario.polyFollowing <> "") by discriminate.
    assert (Hu : upTokenId Scenario.polyFollowing <> "") by discriminate.
    assert (Hd : downTokenId Scenario.polyFollowing <> "") by discriminate.
    assert (Hs : (0 < Q2Qc (inject_Z 5))%Qc) by (vm_compute; reflexivity).
    assert (Hsize : StratSpec.entrySize Scenario.cfg77 Scenario.envThirdAccepted
                      Scenario.watchingState = Fin (Q2Qc (inject_Z 5)))
      by (vm_compute; reflexivity).
    assert (Hhold : StratSpec.holdingTick Scenario.exitSnapshot
                      (checkKalshi1PolyStrategy Scenario.cfg77 Scenario.entrySnapshot
                         Scenario.envThirdAccepted Scenario.watchingState
                         Scenario.emptyLedger).1.1
                      Scenario.kalshiUpAtOne Scenario.polyFallen pos).
    { split; [reflexivity|]. split; [reflexivity|].
      split; [vm_compute; reflexivity|]. split; [vm_compute; reflexivity|]. exact Epos. }
    assert (Hsold : StratSpec.sellSucceeded
                      (checkKalshi1PolyStrategy Scenario.cfg77 Scenario.exitSnapshot
                         Scenario.envThirdAccepted
                         (checkKalshi1PolyStrategy Scenario.cfg77 Scenario.entrySnapshot
                            Scenario.envThirdAccepted Scenario.watchingState
                            Scenario.emptyLedger).1.1
                         (checkKalshi1PolyStrategy Scenario.cfg77 Scenario.entrySnapshot
                            Scenario.envThirdAccepted Scenario.watchingState
                            Scenario.emptyLedger).1.2).2 = true)
      by (vm_compute; reflexivity).
    destruct (buy_then_sell_leaves_no_ledger_entry Scenario.cfg77 Scenario.entrySnapshot
                Scenario.exitSnapshot Scenario.envThirdAccepted Scenario.envThirdAccepted
                Scenario.watchingState Scenario.emptyLedger
                Scenario.kalshiUpAtOne Scenario.kalshiUpAtOne
                Scenario.polyFollowing Scenario.polyFallen pos (Q2Qc (inject_Z 5))
                eq_refl eq_refl eq_refl eq_refl Hc Hu Hd eq_refl Hsize Hs Epos Hhold Hsold)
      as (L1 & L2 & _).
    rewrite Hcid in L1, L2. split; [exact L1 | exact L2].
  - exfalso. revert Epos. vm_compute. discriminate.
Defined.

End StrategyEntryInstances.

(** ** The holdings ledger on its own *)

Section HoldingsLedger.

Lemma clearMarketHoldings_lookup (cid c' : string) (d : Disk) :
  loadHoldings (clearMarketHoldings cid d) !! c'
  = if writable d && bool_decide (c' = cid) then None else loadHoldings d !! c'.
Proof.
  unfold clearMarketHoldings.
  destruct (loadHoldings d !! cid) eqn:E.
  - unfold saveHoldings. destruct (writable d); cbn [andb]; [|reflexivity].
    unfold loadHoldings at 1. cbn [holdingsFile].
    case_bool_decide as Hc.
    + subst c'. apply lookup_delete_eq.
    + by apply lookup_delete_ne.
  - destruct (writable d); cbn [andb]; [|reflexivity].
    case_bool_decide as Hc; [by subst c'|reflexivity].
Qed.

Lemma clearMarketHoldings_absent (cid : string) (d : Disk) :
  loadHoldings d !! cid = None -> clearMarketHoldings cid d = d.
Proof. intros E. unfold clearMarketHoldings. by rewrite E. Qed.

(** X3 — [clearMarketHoldings] removes the entry of one settlement id
    and nothing else: afterwards that id is absent (when the file can be
    written), every other id reads as before, a second call changes
    nothing, and a call for an id that is not in the ledger does not write
    the file at all. *)
Theorem clearMarketHoldings_removes_only_that_entry (cid : string) (d : Disk) :
  (forall c', loadHoldings (clearMarketHoldings cid d) !! c'
              = if writable d && bool_decide (c' = cid) then None
                else loadHoldings d !! c')
  /\ clearMarketHoldings cid (clearMarketHoldings cid d) = clearMarketHoldings cid d
  /\ (loadHoldings d !! cid = None -> clearMarketHoldings cid d = d)
  /\ (writable d = false -> clearMarketHoldings cid d = d).
Proof.
  split; [intros c'; apply clearMarketHoldings_lookup|].
  split; [|split].
  - destruct (loadHoldings d !! cid) eqn:E.
    + destruct (writable d) eqn:Hw.
      * apply clearMarketHoldings_absent.
        rewrite clearMarketHoldings_lookup, Hw, bool_decide_eq_true_2 by done. reflexivity.
      * assert (Hid : clearMarketHoldings cid d = d).
        { unfold clearMarketHoldings, saveHoldings. rewrite E, Hw. reflexivity. }
        by rewrite !Hid.
    + by rewrite !(clearMarketHoldings_absent cid d E).
  - apply clearMarketHoldings_absent.
  - intros Hw. unfold clearMarketHoldings, saveHoldings. rewrite Hw.
    by destruct (loadHoldings d !! cid).
Qed.

(** Booking one token leaves every other quantity as it was. *)
Lemma addHolding_frame (cid tok : string) (amount : num) (d : Disk) (c' t' : string) :
  c' <> cid \/ t' <> tok ->
  ledgerAmount (addHolding cid tok amount d) c' t' = ledgerAmount d c' t'.
Proof.
  intros Hne. unfold addHolding.
  destruct (_ || _ || _); [reflexivity|].
  unfold saveHoldings. destruct (writable d); [|reflexivity].
  unfold ledgerAmount, getMarketHoldings. unfold loadHoldings at 1. cbn [holdingsFile].
  destruct (decide (c' = cid)) as [->|Hc].
  - rewrite lookup_insert_eq. unfold currentAmount at 1.
    destruct Hne as [?|Ht]; [done|]. rewrite lookup_insert_ne by done.
    unfold currentAmount. reflexivity.
  - rewrite lookup_insert_ne by done. reflexivity.
Qed.

(** X4 — [addHolding] accumulates: two bookings of positive finite
    quantities [a] and [b] for a token leave its recorded quantity raised by
    [a + b], and no other token or settlement id is touched. *)
Theorem addHolding_accumulates_and_frames
    (cid tok : string) (a b : Qc) (d : Disk) :
  cid <> "" -> tok <> "" -> (0 < a)%Qc -> (0 < b)%Qc -> writable d = true ->
  ledgerAmount (addHolding cid tok (Fin b) (addHolding cid tok (Fin a) d)) cid tok
  = (ledgerAmount d cid tok + Fin a + Fin b)%num
  /\ (forall c' t', c' <> cid \/ t' <> tok ->
        ledgerAmount (addHolding cid tok (Fin b) (addHolding cid tok (Fin a) d)) c' t'
        = ledgerAmount d c' t').
Proof.
  intros Hc Ht Ha Hb Hw. split.
  - destruct (addHolding_amount cid tok a d Hc Ht Ha Hw) as [A1 _].
    destruct (addHolding_amount cid tok b (addHolding cid tok (Fin a) d) Hc Ht Hb)
      as [A2 _]; [by rewrite addHolding_writable|].
    by rewrite A2, A1.
  - intros c' t' Hne. by rewrite !addHolding_frame.
Qed.

Lemma addHolding_accumulates_witness :
  ledgerAmount
    (addHolding "0xc0nd" "tok-up" (Fin (Q2Qc (inject_Z 3)))
       (addHolding "0xc0nd" "tok-up" (Fin (Q2Qc (inject_Z 2))) Scenario.ledgerAfterBuy))
    "0xc0nd" "tok-up"
  = (ledgerAmount Scenario.ledgerAfterBuy "0xc0nd" "tok-up"
     + Fin (Q2Qc (inject_Z 2)) + Fin (Q2Qc (inject_Z 3)))%num.
Proof.
  assert (Hc : "0xc0nd" <> "") by discriminate.
  assert (Ht : "tok-up" <> "") by discriminate.
  assert (Ha : (0 < Q2Qc (inject_Z 2))%Qc) by (vm_compute; reflexivity).
  assert (Hb : (0 < Q2Qc (inject_Z 3))%Qc) by (vm_compute; reflexivity).
  exact (proj1 (addHolding_accumulates_and_frames "0xc0nd" "tok-up" _ _
                  Scenario.ledgerAfterBuy Hc Ht Ha Hb eq_refl)).
Defined.

(** X5 — The guard of [addHolding]: an empty settlement id, an empty
    token id or an amount that is zero, negative or [-Infinity] writes
    nothing.  [NaN] and [+Infinity] pass the guard ([NaN <= 0] is false);
    the sum is then stored as [null], and the token reads back as 0, so
    what was recorded for it is lost. *)
Theorem addHolding_guard_and_non_finite (cid tok : string) (amount : num) (d : Disk) :
  (cid = "" \/ tok = "" \/ JsNum.le amount zero -> addHolding cid tok amount d = d)
  /\ (cid <> "" -> tok <> "" -> writable d = true ->
      amount = NaN \/ amount = PInf ->
      ledgerAmount (addHolding cid tok amount d) cid tok = zero
      /\ getMarketHoldings cid (addHolding cid tok amount d) !! tok = Some None).
Proof.
  split.
  - intros H. unfold addHolding.
    destruct H as [-> | [-> | Hle]].
    + reflexivity.
    + by rewrite orb_true_r.
    + apply leb_le in Hle. rewrite Hle. by rewrite !orb_true_r.
  - intros Hc Ht Hw Hnf. unfold addHolding.
    apply truthy_true in Hc, Ht. rewrite Hc, Ht. cbn [negb orb].
    assert (Hg : (amount <=? zero)%num = false) by (destruct Hnf as [-> | ->]; reflexivity).
    rewrite Hg. unfold ledgerAmount, getMarketHoldings.
    rewrite !loadHoldings_save by exact Hw. rewrite !lookup_insert_eq.
    unfold currentAmount at 1. rewrite !lookup_insert_eq.
    assert (Hj : toJson (currentAmount
                           match loadHoldings d !! cid with Some i => i | None => ∅ end tok
                         + amount)%num = None).
    { destruct (currentAmount _ tok) as [c| | |] eqn:Ecur;
        destruct Hnf as [-> | ->]; reflexivity. }
    rewrite Hj. done.
Qed.

End HoldingsLedger.

(** ** The instance lock *)

Section InstanceLock.

Import MonitorLock.

Lemma signalsOf_app (a b : list Event) :
  LockSpec.signalsOf (a ++ b) = LockSpec.signalsOf a ++ LockSpec.signalsOf b.
Proof.
  induction a as [|e a IH]; [reflexivity|]. destruct e; simpl; by rewrite IH.
Qed.

(** The take-over step when the lock file can be read. *)
Lemma killExisting_spec (env : LockEnv) (w : World) :
  firstReadFails env = false ->
  let r := killExistingAndRemoveLock env w in
  r.2 = LockSpec.signalsOwnGroup env w
  /\ LockSpec.signalsOf r.1.2 = LockSpec.takeoverSignals env w
  /\ lockFile r.1.1
     = match LockSpec.holder w with
       | Some _ =>
           if LockSpec.signalsOwnGroup env w || unlinkFails env then lockFile w else None
       | None => lockFile w
       end.
Proof.
  intros Hr. unfold killExistingAndRemoveLock, LockSpec.signalsOwnGroup,
    LockSpec.takeoverSignals, LockSpec.holder, readLock, unlinkLock, sendSigterm.
  rewrite Hr. destruct w as [file run]. cbn [lockFile running].
  destruct file as [content|]; [|done].
  destruct (parseIntFinite (trim content)) as [e|]; [|done].
  case_bool_decide as Hself; cbn [negb andb orb fst snd].
  { by destruct (unlinkFails env). }
  unfold isPidRunning. cbn [running].
  rewrite (bool_decide_eq_false_2 _ Hself). cbn [orb].
  destruct (ownGroup env e) eqn:Hown; cbn [orb andb].
  - destruct (sigtermFails env); cbn [negb andb orb fst snd].
    + by destruct (unlinkFails env).
    + destruct (targetSurvives env); cbn [negb andb orb fst snd lockFile].
      * by destruct (unlinkFails env).
      * done.
  - destruct (run e); cbn [fst snd].
    + destruct (sigtermFails env); cbn [negb andb orb fst snd lockFile];
        by destruct (unlinkFails env).
    + rewrite andb_false_l. by destruct (unlinkFails env).
Qed.

Lemma killExisting_unread (env : LockEnv) (w : World) :
  firstReadFails env = true -> killExistingAndRemoveLock env w = (w, [], false).
Proof. intros Hr. unfold killExistingAndRemoveLock, readLock. by rewrite Hr. Qed.

(** A lock file that is there after the take-over step was there before,
    and either could not be read or removed, or does not name a process;
    in the last case nothing was changed. *)
Lemma killExisting_leaves (env : LockEnv) (w : World) (c1 : string) :
  (killExistingAndRemoveLock env w).2 = false ->
  lockFile (killExistingAndRemoveLock env w).1.1 = Some c1 ->
  lockFile w = Some c1
  /\ (firstReadFails env = true \/ unlinkFails env = true
      \/ (parseIntFinite (trim c1) = None
          /\ (killExistingAndRemoveLock env w).1.1 = w)).
Proof.
  destruct (firstReadFails env) eqn:Hr.
  { rewrite killExisting_unread by exact Hr. cbn. intros _ ->. split; [done|by left]. }
  destruct (killExisting_spec env w Hr) as (Hk & _ & Hf). intros Hnot Hfile.
  rewrite Hfile in Hf. rewrite Hnot in Hk.
  unfold LockSpec.holder in Hf.
  destruct (lockFile w) as [content|] eqn:Ew.
  - destruct (parseIntFinite (trim content)) as [e|] eqn:Ep.
    + rewrite <- Hk in Hf. cbn [orb] in Hf.
      destruct (unlinkFails env); [|discriminate].
      split; [done|]. right. by left.
    + split; [done|]. right. right. injection Hf as ->. split; [exact Ep|].
      unfold killExistingAndRemoveLock, readLock. rewrite Hr, Ew, Ep. reflexivity.
  - discriminate.
Qed.

Lemma parseIntFinite_empty : parseIntFinite "" = None.
Proof. reflexivity. Qed.

(** The function after the take-over step, by the file it finds. *)
Lemma acquire_unfold (env : LockEnv) (w : World) :
  acquireMonitorLock env w
  = let k := killExistingAndRemoveLock env w in
    if k.2 then (Killed, k.1.1, k.1.2)
    else
      let w1 := interfere env k.1.1 in
      match lockFile w1 with
      | None =>
          if createFails env then (Threw, w1, k.1.2)
          else (Returned, {| lockFile := Some (stringOfPid (pid env));
                             running := running w1 |}, k.1.2)
      | Some _ =>
          match parseIntFinite
                  match readLock (secondReadFails env) w1 with
                  | Some c => trim c
                  | None => ""
                  end with
          | Some e =>
              if isPidRunning env w1 e
              then (Exited 1, w1, k.1.2 ++ [EvLog (LAnotherMonitorRunning e)])
              else if rewriteFails env
                   then (Exited 1, w1, k.1.2 ++ [EvLog LLockFileError])
                   else (Returned, {| lockFile := Some (stringOfPid (pid env));
                                      running := running w1 |}, k.1.2)
          | None =>
              if rewriteFails env
              then (Exited 1, w1, k.1.2 ++ [EvLog LLockFileError])
              else (Returned, {| lockFile := Some (stringOfPid (pid env));
                                 running := running w1 |}, k.1.2)
          end
      end.
Proof.
  unfold acquireMonitorLock.
  destruct (killExistingAndRemoveLock env w) as [[w0 evs] killed]. cbn [fst snd].
  destruct killed; [reflexivity|].
  destruct (lockFile (interfere env w0)); [|reflexivity].
  destruct (parseIntFinite _) as [e|]; [|reflexivity].
  by destruct (isPidRunning env (interfere env w0) e).
Qed.

Lemma interfere_file (env : LockEnv) (w : World) :
  lockFile (interfere env w)
  = match lockFile w with
    | Some c => Some c
    | None => createdMeanwhile env
    end.
Proof.
  unfold interfere. destruct (createdMeanwhile env), (lockFile w) eqn:E; cbn; congruence.
Qed.

Lemma interfere_running (env : LockEnv) (w : World) :
  running (interfere env w) = running w.
Proof. unfold interfere. by destruct (createdMeanwhile env), (lockFile w). Qed.

(** A process that answers the probe still does after the take-over step
    when the signal could not be sent or has not taken effect. *)
Lemma killExisting_running (env : LockEnv) (w : World) (p : Z) :
  running w p = true ->
  sigtermFails env = true \/ targetSurvives env = true ->
  running (killExistingAndRemoveLock env w).1.1 p = true.
Proof.
  intros Hrun Hstay. unfold killExistingAndRemoveLock, readLock, unlinkLock, sendSigterm.
  destruct w as [file run]. cbn [lockFile running] in *.
  destruct (firstReadFails env); [exact Hrun|].
  destruct file as [content|]; [|exact Hrun].
  destruct (parseIntFinite (trim content)) as [e|]; [|exact Hrun].
  case_bool_decide; [by destruct (unlinkFails env)|].
  destruct (isPidRunning env _ e).
  - destruct (sigtermFails env) eqn:Hs; cbn [fst snd].
    + by destruct (unlinkFails env).
    + destruct Hstay as [?|Hsurv]; [discriminate|]. rewrite Hsurv, andb_false_r.
      cbn [fst snd]. destruct (unlinkFails env); cbn [running];
        by case_bool_decide.
  - cbn [fst snd]. by destruct (unlinkFails env).
Qed.




(** The take-over of a lock held by a running process, and of garbage. *)
Example acquire_takes_over_scenarios :
  (acquireMonitorLock LockSpec.calmEnv LockSpec.heldWorld).1.1 = Returned
  /\ lockFile (acquireMonitorLock LockSpec.calmEnv LockSpec.heldWorld).1.2 = Some "100"
  /\ (acquireMonitorLock LockSpec.calmEnv LockSpec.heldWorld).2 = [EvSigterm 4242]
  /\ (acquireMonitorLock LockSpec.calmEnv
        {| lockFile := Some "not a pid"; running := fun _ => false |}).1.1 = Returned
  /\ (acquireMonitorLock LockSpec.calmEnv LockSpec.zeroWorld).1.1 = Killed
  /\ (acquireMonitorLock LockSpec.calmEnv LockSpec.zeroWorld).2 = [EvSigterm 0]
  /\ lockFile (acquireMonitorLock LockSpec.calmEnv LockSpec.zeroWorld).1.2 = Some "0".
Proof. vm_compute. by repeat split. Qed.

(** X7 — The refusal path of the lock.  When the lock file names
    another running process, the file cannot be removed, and that process
    is still running after the take-over attempt (the signal could not be
    sent, or it has not taken effect yet), [acquireMonitorLock] prints that
    another monitor is running and exits with status 1, leaving the
    holder's lock file in place.  The signal is sent all the same when it
    can be. *)
Theorem acquire_refuses_when_holder_remains
    (env : LockEnv) (w : World) (content : string) (holderPid : Z) :
  lockFile w = Some content ->
  parseIntFinite (trim content) = Some holderPid ->
  holderPid <> pid env ->
  running w holderPid = true ->
  firstReadFails env = false -> secondReadFails env = false ->
  unlinkFails env = true ->
  sigtermFails env = true \/ targetSurvives env = true ->
  (acquireMonitorLock env w).1.1 = Exited 1
  /\ lockFile (acquireMonitorLock env w).1.2 = Some content
  /\ existsb LockSpec.isRefusalLog (acquireMonitorLock env w).2 = true
  /\ LockSpec.signalsOf (acquireMonitorLock env w).2
     = if sigtermFails env then [] else [holderPid].
Proof.
  intros Hf Hp Hne Hrun Hr1 Hr2 Hu Hstay.
  assert (Hown : LockSpec.signalsOwnGroup env w = false).
  { unfold LockSpec.signalsOwnGroup, LockSpec.holder. rewrite Hf, Hp.
    destruct Hstay as [-> | ->]; cbn [negb]; by rewrite ?andb_false_r. }
  assert (Hprobe : isPidRunning env w holderPid = true).
  { unfold isPidRunning. rewrite Hrun. apply orb_true_r. }
  destruct (killExisting_spec env w Hr1) as (Hk & Hsig & Hfile).
  rewrite Hown in Hk. unfold LockSpec.holder in Hfile.
  rewrite Hf, Hp, Hu, orb_true_r in Hfile.
  assert (Hsigs : LockSpec.takeoverSignals env w
                  = if sigtermFails env then [] else [holderPid]).
  { unfold LockSpec.takeoverSignals, LockSpec.holder. rewrite Hf, Hp, Hprobe.
    rewrite bool_decide_eq_false_2 by exact Hne. by destruct (sigtermFails env). }
  assert (Halive : isPidRunning env (interfere env (killExistingAndRemoveLock env w).1.1)
                     holderPid = true).
  { unfold isPidRunning. rewrite interfere_running.
    rewrite (killExisting_running env w holderPid Hrun Hstay). apply orb_true_r. }
  rewrite acquire_unfold. cbn zeta. rewrite Hk.
  rewrite interfere_file, Hfile. unfold readLock.
  rewrite Hr2, interfere_file, Hfile, Hp, Halive. cbn [fst snd].
  rewrite interfere_file, Hfile, existsb_app, signalsOf_app, Hsig, Hsigs.
  cbn. rewrite orb_true_r, app_nil_r. done.
Qed.

Lemma acquire_refuses_witness :
  (acquireMonitorLock LockSpec.stuckEnv LockSpec.heldWorld).1.1 = Exited 1
  /\ lockFile (acquireMonitorLock LockSpec.stuckEnv LockSpec.heldWorld).1.2 = Some "4242"
  /\ LockSpec.signalsOf (acquireMonitorLock LockSpec.stuckEnv LockSpec.heldWorld).2 = [4242].
Proof.
  assert (Hne : 4242 <> pid LockSpec.stuckEnv) by (cbn; lia).
  destruct (acquire_refuses_when_holder_remains LockSpec.stuckEnv LockSpec.heldWorld
              "4242" 4242 eq_refl eq_refl Hne eq_refl eq_refl eq_refl eq_refl
              (or_intror eq_refl)) as (H1 & H2 & _ & H4).
  split; [exact H1|]. split; [exact H2|]. exact H4.
Defined.

(** X8 — How [acquireMonitorLock] can end other than by returning.  An
    exit has status 1 and starts from a lock file that is there at the
    exclusive create: one that could not be read or removed, one that does
    not name a process and cannot be overwritten, or one that another
    process created meanwhile.  An exception leaves the function only
    when the exclusive create fails for another reason than an existing
    file.  The process is ended by its own [SIGTERM] exactly when the lock
    file, read at the start, names the caller's own process group and the
    signal is delivered and takes effect.  When the function returns, the
    lock file holds the caller's pid. *)
Theorem acquire_stops_only_after_a_failed_call (env : LockEnv) (w : World) :
  let r := acquireMonitorLock env w in
  (forall code, r.1.1 = Exited code ->
     code = 1
     /\ ((lockFile w <> None
          /\ (firstReadFails env = true \/ unlinkFails env = true
              \/ rewriteFails env = true))
         \/ createdMeanwhile env <> None))
  /\ (r.1.1 = Threw -> createFails env = true)
  /\ (r.1.1 = Killed <->
      firstReadFails env = false /\ LockSpec.signalsOwnGroup env w = true)
  /\ (r.1.1 = Returned -> lockFile r.1.2 = Some (stringOfPid (pid env))).
Proof.
  intros r. unfold r. rewrite acquire_unfold. cbn zeta.
  pose proof (killExisting_leaves env w) as Hleave.
  assert (Hkill : (killExistingAndRemoveLock env w).2 = true <->
                  firstReadFails env = false /\ LockSpec.signalsOwnGroup env w = true).
  { destruct (firstReadFails env) eqn:Hr.
    - rewrite killExisting_unread by exact Hr. cbn. split; [discriminate|].
      intros [? _]. discriminate.
    - destruct (killExisting_spec env w Hr) as (-> & _). tauto. }
  destruct ((killExistingAndRemoveLock env w).2) eqn:Hk; cbn [fst snd].
  { split; [discriminate|]. split; [discriminate|]. split; [|discriminate].
    split; [intros _; by apply Hkill | reflexivity]. }
  assert (Hnk : ~ (firstReadFails env = false
                   /\ LockSpec.signalsOwnGroup env w = true)).
  { intros H. apply Hkill in H. discriminate. }
  pose proof (interfere_file env (killExistingAndRemoveLock env w).1.1) as Hint.
  destruct (lockFile (interfere env (killExistingAndRemoveLock env w).1.1))
    as [c1|] eqn:E1.
  - assert (Hcause : forall code : Z, code = 1 ->
              rewriteFails env = true
              \/ (exists e, parseIntFinite (trim c1) = Some e) ->
              code = 1
              /\ ((lockFile w <> None
                   /\ (firstReadFails env = true \/ unlinkFails env = true
                       \/ rewriteFails env = true))
                  \/ createdMeanwhile env <> None)).
    { intros code Hcode Hwhy. split; [exact Hcode|].
      destruct (lockFile (killExistingAndRemoveLock env w).1.1) as [c0|] eqn:E0.
      - injection Hint as <-. left.
        destruct (Hleave c1 eq_refl eq_refl) as (Hw0 & Hwhy0).
        split; [congruence|].
        destruct Hwhy0 as [?|[?|[Hn _]]]; [tauto..|].
        destruct Hwhy as [?|[e He]]; [tauto|congruence].
      - right. congruence. }
    unfold readLock. rewrite E1.
    destruct (secondReadFails env).
    + rewrite parseIntFinite_empty.
      destruct (rewriteFails env) eqn:Hw; cbn [fst snd lockFile].
      * split; [intros code [= <-]; apply Hcause; [reflexivity|by left]|].
        split; [discriminate|]. split; [split; [discriminate|tauto]|discriminate].
      * split; [discriminate|]. split; [discriminate|].
        split; [split; [discriminate|tauto]|reflexivity].
    + destruct (parseIntFinite (trim c1)) as [e|] eqn:Ep.
      * destruct (isPidRunning env _ e); cbn [fst snd lockFile].
        -- split; [intros code [= <-]; apply Hcause; [reflexivity|right; eauto]|].
           split; [discriminate|]. split; [split; [discriminate|tauto]|discriminate].
        -- destruct (rewriteFails env) eqn:Hw; cbn [fst snd lockFile].
           ++ split; [intros code [= <-]; apply Hcause; [reflexivity|by left]|].
              split; [discriminate|]. split; [split; [discriminate|tauto]|discriminate].
           ++ split; [discriminate|]. split; [discriminate|].
              split; [split; [discriminate|tauto]|reflexivity].
      * destruct (rewriteFails env) eqn:Hw; cbn [fst snd lockFile].
        -- split; [intros code [= <-]; apply Hcause; [reflexivity|by left]|].
           split; [discriminate|]. split; [split; [discriminate|tauto]|discriminate].
        -- split; [discriminate|]. split; [discriminate|].
           split; [split; [discriminate|tauto]|reflexivity].
  - destruct (createFails env) eqn:Hc; cbn [fst snd lockFile].
    + split; [discriminate|]. split; [reflexivity|].
      split; [split; [discriminate|tauto]|discriminate].
    + split; [discriminate|]. split; [discriminate|].
      split; [split; [discriminate|tauto]|reflexivity].
Qed.

End InstanceLock.
(** ** The two entry points: the balance gate *)

Section BalanceGate.

Variable cfg : Config.

(** What the test of both gates finds. *)
Lemma gate_test (kalshiCents : num) (queried : option num) :
  negb (kalshiCents >=? round (MIN_BALANCE_USD cfg * ofZ 100))%num
  || negb match getPolymarketBalanceUsd cfg queried with
          | None => true
          | Some usd => (usd >=? MIN_BALANCE_USD cfg)%num
          end = true
  <-> GateSpec.shortfall cfg kalshiCents queried.
Proof.
  unfold GateSpec.shortfall, getPolymarketBalanceUsd.
  rewrite orb_true_iff, !negb_true_iff, <- !not_true_iff_false, geb_le.
  split.
  - intros [H|H]; [by left|]. right.
    destruct (configured cfg); cbn [negb] in H; [|congruence].
    split; [reflexivity|].
    destruct queried as [usd|]; [|congruence].
    exists usd. split; [reflexivity|]. by rewrite <- geb_le.
  - intros [H|(Hc & usd & -> & H)]; [by left|]. right.
    rewrite Hc. cbn [negb]. by rewrite geb_le.
Qed.

Lemma main_at_gate_follow (env : MainEnv) (w : MonitorLock.World) :
  GateSpec.reachesGate env w ->
  RunKalshi1Poly.main cfg env w
  = let l := MonitorLock.acquireMonitorLock (lockEnv env) w in
    let g := RunKalshi1Poly.checkBalancesOrExit cfg env in
    (match g.1 with
     | Resolves => StartsMonitor
     | Exits code => ProcessExit code
     | Rejects _ => ProcessExit 1
     end, l.1.2,
     l.2 ++ g.2 ++ match g.1 with Rejects reason => [EvLog (LMainFailed reason)] | _ => [] end).
Proof.
  intros [Henv Hlock]. unfold RunKalshi1Poly.main, ValidateEnv.validateRequiredEnvOrExit.
  rewrite Henv.
  destruct (MonitorLock.acquireMonitorLock (lockEnv env) w) as [[locked w1] lEvs].
  cbn [fst snd] in *. subst locked.
  destruct (RunKalshi1Poly.checkBalancesOrExit cfg env) as [[|code|reason] gEvs];
    cbn [fst snd]; by rewrite ?app_nil_r.
Qed.

Lemma main_at_gate_arb (env : MainEnv) (w : MonitorLock.World) :
  GateSpec.reachesGate env w ->
  RunMonitor.main cfg env w
  = let l := MonitorLock.acquireMonitorLock (lockEnv env) w in
    let g := RunMonitor.checkBalancesOrExit cfg env in
    (match g.1 with
     | Resolves => StartsMonitor
     | Exits code => ProcessExit code
     | Rejects _ => ProcessExit 1
     end, l.1.2,
     l.2 ++ g.2 ++ match g.1 with Rejects reason => [EvLog (LMainFailed reason)] | _ => [] end).
Proof.
  intros [Henv Hlock]. unfold RunMonitor.main, ValidateEnv.validateRequiredEnvOrExit.
  rewrite Henv.
  destruct (MonitorLock.acquireMonitorLock (lockEnv env) w) as [[locked w1] lEvs].
  cbn [fst snd] in *. subst locked.
  destruct (RunMonitor.checkBalancesOrExit cfg env) as [[|code|reason] gEvs];
    cbn [fst snd]; by rewrite ?app_nil_r.
Qed.

(** The lock writes no balance line. *)
Lemma acquire_no_balance_line (lenv : MonitorLock.LockEnv) (w : MonitorLock.World) :
  GateSpec.shortfallLogged (MonitorLock.acquireMonitorLock lenv w).2 = false.
Proof.
  unfold MonitorLock.acquireMonitorLock, MonitorLock.killExistingAndRemoveLock,
    MonitorLock.sendSigterm, GateSpec.shortfallLogged.
  repeat case_match; simplify_eq; rewrite ?existsb_app; reflexivity.
Qed.

End BalanceGate.

(** C9, as the code has it — Once [main] has a complete environment and
    the lock, the balance gate decides as follows.  When the Kalshi
    balance is read and a balance is short (Kalshi below the minimum in
    cents, or a configured and readable Polymarket balance below the
    minimum), both entry points print the shortfall; the follow-confidence
    entry point then goes on to start the monitor, and the arbitrage entry
    point exits with status 1.  When no balance is short both go on and
    print nothing about balances.  When the Kalshi balance cannot be read,
    both exit with status 1 through the handler of [main]. *)
Theorem balance_gate_stops_only_the_arbitrage_monitor
    (cfg : Config) (env : MainEnv) (w : MonitorLock.World) :
  GateSpec.reachesGate env w ->
  let follow := RunKalshi1Poly.main cfg env w in
  let arb := RunMonitor.main cfg env w in
  match kalshiBalance env with
  | Fulfilled kalshiCents =>
      (GateSpec.shortfall cfg kalshiCents (polyBalance env) ->
       follow.1.1 = StartsMonitor /\ GateSpec.shortfallLogged follow.2 = true
       /\ arb.1.1 = ProcessExit 1 /\ GateSpec.shortfallLogged arb.2 = true)
      /\ (~ GateSpec.shortfall cfg kalshiCents (polyBalance env) ->
          follow.1.1 = StartsMonitor /\ GateSpec.shortfallLogged follow.2 = false
          /\ arb.1.1 = StartsMonitor /\ GateSpec.shortfallLogged arb.2 = false)
  | Rejected reason =>
      follow.1.1 = ProcessExit 1 /\ GateSpec.shortfallLogged follow.2 = false
      /\ arb.1.1 = ProcessExit 1 /\ GateSpec.shortfallLogged arb.2 = false
  end.
Proof.
  intros Hgate follow arb. unfold follow, arb.
  rewrite (main_at_gate_follow cfg env w Hgate), (main_at_gate_arb cfg env w Hgate).
  cbn zeta. unfold RunKalshi1Poly.checkBalancesOrExit, RunMonitor.checkBalancesOrExit.
  pose proof (acquire_no_balance_line (lockEnv env) w) as Hquiet.
  unfold GateSpec.shortfallLogged in *.
  destruct (kalshiBalance env) as [kalshiCents|reason]; cbn [fst snd].
  - pose proof (gate_test cfg kalshiCents (polyBalance env)) as Htest.
    destruct (negb (kalshiCents >=? round (MIN_BALANCE_USD cfg * ofZ 100))%num
              || negb match getPolymarketBalanceUsd cfg (polyBalance env) with
                      | None => true
                      | Some usd => (usd >=? MIN_BALANCE_USD cfg)%num
                      end) eqn:E; cbn [fst snd].
    + split; [|intros Hn; destruct Hn; by apply Htest].
      intros _. rewrite !existsb_app, Hquiet. by repeat split.
    + split; [intros Hs; apply Htest in Hs; discriminate|].
      intros _. rewrite !existsb_app, Hquiet. by repeat split.
  - rewrite !existsb_app, Hquiet. by repeat split.
Qed.

(** C9 as stated fails — Kalshi holds 1.00 USD against a minimum of 5 USD: the arbitrage entry
    point prints the shortfall and exits with status 1 instead of going
    on; the follow-confidence entry point prints it and goes on. *)
Lemma arbitrage_monitor_halts_on_low_balance :
  let cfg := defaultConfig "key" "0xproxy" in
  GateSpec.reachesGate GateSpec.kalshiShort LockSpec.freeWorld
  /\ GateSpec.shortfall cfg (ofZ 100) (polyBalance GateSpec.kalshiShort)
  /\ RunMonitor.main cfg GateSpec.kalshiShort LockSpec.freeWorld
     = (ProcessExit 1,
        {| MonitorLock.lockFile := Some "100";
           MonitorLock.running := MonitorLock.running LockSpec.freeWorld |},
        [EvLog (LBalanceBelowMinimum (ofZ 100) (Some (ofZ 40)))])
  /\ (RunKalshi1Poly.main cfg GateSpec.kalshiShort LockSpec.freeWorld).1.1 = StartsMonitor.
Proof.
  intros cfg. split; [split; reflexivity|]. split; [|split; reflexivity].
  left. vm_compute. intros H. by apply H.
Qed.

(** C9 as amended, at the three kinds of balance. *)
Lemma balance_gate_witness :
  let cfg := defaultConfig "key" "0xproxy" in
  ((RunKalshi1Poly.main cfg GateSpec.kalshiShort LockSpec.freeWorld).1.1 = StartsMonitor
   /\ (RunMonitor.main cfg GateSpec.kalshiShort LockSpec.freeWorld).1.1 = ProcessExit 1)
  /\ ((RunKalshi1Poly.main cfg GateSpec.funded LockSpec.freeWorld).1.1 = StartsMonitor
      /\ (RunMonitor.main cfg GateSpec.funded LockSpec.freeWorld).1.1 = StartsMonitor)
  /\ ((RunKalshi1Poly.main cfg GateSpec.kalshiUnreachable LockSpec.freeWorld).1.1
      = ProcessExit 1
      /\ (RunMonitor.main cfg GateSpec.kalshiUnreachable LockSpec.freeWorld).1.1
         = ProcessExit 1).
Proof.
  intros cfg.
  assert (Hshort : GateSpec.shortfall cfg (ofZ 100) (polyBalance GateSpec.kalshiShort)).
  { left. vm_compute. intros H. by apply H. }
  assert (Hfunded : ~ GateSpec.shortfall cfg (ofZ 2500) (polyBalance GateSpec.funded)).
  { intros [H|(_ & usd & [= <-] & H)]; apply H; by vm_compute. }
  pose proof (balance_gate_stops_only_the_arbitrage_monitor cfg GateSpec.kalshiShort
                LockSpec.freeWorld (conj eq_refl eq_refl)) as H1.
  pose proof (balance_gate_stops_only_the_arbitrage_monitor cfg GateSpec.funded
                LockSpec.freeWorld (conj eq_refl eq_refl)) as H2.
  pose proof (balance_gate_stops_only_the_arbitrage_monitor cfg GateSpec.kalshiUnreachable
                LockSpec.freeWorld (conj eq_refl eq_refl)) as H3.
  cbn zeta in H1, H2, H3. cbn [kalshiBalance GateSpec.kalshiShort GateSpec.funded
                                GateSpec.kalshiUnreachable] in H1, H2, H3.
  destruct H1 as [H1 _]. destruct (H1 Hshort) as (A1 & _ & A2 & _).
  destruct H2 as [_ H2]. destruct (H2 Hfunded) as (B1 & _ & B2 & _).
  destruct H3 as (C1 & _ & C2 & _).
  by repeat split.
Defined.
